(** * Equilibria controller IPC layer: a shallow embedding and its properties

    The repository holds two implementations of the same line protocol:

    - [minimal_json] and [controller] embed
      [src/controller/third_party/json/minimal_json.hpp] and
      [src/controller/src/ipc_protocol.cpp] (class [IPCProtocol], the
      dispatcher that answers every line with an ack);
    - [json] and [app] embed [src/shared/include/json_utils.hpp] and
      [src/controller/main.cpp] ([process_command], [handle_client]);
    - [ipc_server] embeds [IpcServer::send] and [IpcServer::handleClient]
      of [src/controller/src/ipc_server.cpp];
    - [telemetry] embeds the packed [TelemetryMessage],
      [Controller::PublishTelemetry] and the loop of [Controller::Run] of
      [src/controller/src/controller.cpp].

    A [std::string] is a [string] (a list of 8-bit characters), a [double]
    is a primitive binary64 [float], the 32-bit [float] of [ProcessState]
    is a [spec_float] at precision 24, fixed-width integers are [Z].
    Exceptions are values of [exception]; a function that may throw returns
    a [result]. *)

From Stdlib Require Import String Ascii List ZArith Lia Bool Arith.
From Stdlib Require Import Floats DecimalString.
Import ListNotations.
Local Open Scope string_scope.
Set Warnings "-inexact-float,-notation-for-abbreviation".

(** ** Characters and text *)

(** The double quote, written by its code: a string literal of this file
    never holds one. *)
Definition dq : ascii := "034"%char.
Definition backslash : ascii := "092"%char.
Definition newline : ascii := "010"%char.
Definition nul : ascii := "000"%char.

(** [jq] turns every apostrophe of a literal into a double quote, so that
    the lines of the protocol can be written with apostrophes around their
    keys and string values. *)
Fixpoint jq (s : string) : string :=
  match s with
  | EmptyString => EmptyString
  | String c r => String (if Ascii.eqb c "'" then dq else c) (jq r)
  end.

(** [std::isspace] in the C locale: space, tab, newline, vertical tab,
    form feed, carriage return. *)
Definition isspace (c : ascii) : bool :=
  Ascii.eqb c " " || Ascii.eqb c "009" || Ascii.eqb c "010"
  || Ascii.eqb c "011" || Ascii.eqb c "012" || Ascii.eqb c "013".

(** [std::isdigit] *)
Definition isdigit (c : ascii) : bool :=
  Ascii.eqb c "0" || Ascii.eqb c "1" || Ascii.eqb c "2" || Ascii.eqb c "3"
  || Ascii.eqb c "4" || Ascii.eqb c "5" || Ascii.eqb c "6" || Ascii.eqb c "7"
  || Ascii.eqb c "8" || Ascii.eqb c "9".

Fixpoint take_while (p : ascii -> bool) (s : string) : string :=
  match s with
  | EmptyString => EmptyString
  | String c r => if p c then String c (take_while p r) else EmptyString
  end.

Fixpoint drop_while (p : ascii -> bool) (s : string) : string :=
  match s with
  | EmptyString => EmptyString
  | String c r => if p c then drop_while p r else s
  end.

Fixpoint drop (n : nat) (s : string) : string :=
  match n, s with
  | S n', String _ r => drop n' r
  | _, _ => s
  end.

(** Whether [s] starts with [n]. *)
Fixpoint starts_with (n s : string) : bool :=
  match n with
  | EmptyString => true
  | String a n' =>
      match s with
      | EmptyString => false
      | String b s' => Ascii.eqb a b && starts_with n' s'
      end
  end.

(** [s.find(needle)]: the suffix of [s] that starts at the first occurrence
    of [needle], [None] for [npos]. *)
Fixpoint find_str (needle s : string) : option string :=
  if starts_with needle s then Some s
  else match s with
       | EmptyString => None
       | String _ r => find_str needle r
       end.

(** [s.find(c)]: the suffix of [s] that starts at the first [c]. *)
Fixpoint find_char (c : ascii) (s : string) : option string :=
  match s with
  | EmptyString => None
  | String d r => if Ascii.eqb d c then Some s else find_char c r
  end.

(** Substring containment, as the tests' [ASSERT_CONTAINS] reads it. *)
Definition Contains (needle s : string) : Prop :=
  exists pre post, s = pre ++ needle ++ post.

Definition containsb (needle s : string) : bool :=
  match find_str needle s with Some _ => true | None => false end.

(** ** Exceptions *)

(** The exceptions the code can raise, all derived from [std::exception]:
    [std::runtime_error] with the text the source gives it,
    [std::out_of_range] from [basic_string::substr], and the
    [std::invalid_argument] or [std::out_of_range] of [std::stod]. *)
Inductive exception : Type :=
| runtime_error (what : string)
| substr_out_of_range
| stod_failure.

Inductive result (A : Type) : Type :=
| Ok (a : A)
| Throw (e : exception).
Arguments Ok {A} a.
Arguments Throw {A} e.

(** ** minimal_json.hpp *)

Module minimal_json.

(** [std::map<std::string, std::string> strings_]: the entries in key
    order, which is the order [dump] writes them in. *)
Definition JsonObject : Type := list (string * string).

(** [strings_.find(key)] *)
Fixpoint find (key : string) (o : JsonObject) : option string :=
  match o with
  | [] => None
  | (k, v) :: r => if String.eqb k key then Some v else find key r
  end.

(** [strings_[key] = value] *)
Fixpoint set (key value : string) (o : JsonObject) : JsonObject :=
  match o with
  | [] => [(key, value)]
  | (k, v) :: r =>
      match String.compare key k with
      | Lt => (key, value) :: o
      | Eq => (key, value) :: r
      | Gt => (k, v) :: set key value r
      end
  end.

Definition has (key : string) (o : JsonObject) : bool :=
  match find key o with Some _ => true | None => false end.

Definition getString (key : string) (o : JsonObject) : string :=
  match find key o with Some v => v | None => EmptyString end.

Definition not_quote (c : ascii) : bool := negb (Ascii.eqb c dq).
Definition space_or_colon (c : ascii) : bool := isspace c || Ascii.eqb c ":".
Definition space_or_comma (c : ascii) : bool := isspace c || Ascii.eqb c ",".
Definition number_char (c : ascii) : bool :=
  isdigit c || Ascii.eqb c "." || Ascii.eqb c "-".

(** [jsonStr[pos]] at [pos <= size()]: the character, or the terminating
    NUL at [pos = size()]. *)
Definition char_at_head (s : string) : ascii :=
  match s with EmptyString => nul | String c _ => c end.

(** The value of one member, read at [s] (the text from [pos] on): the
    object with the member stored, and the text left after the value and
    after the whitespace and commas that follow it. *)
Definition parse_value (key s : string) (obj : JsonObject)
  : JsonObject * string :=
  let c := char_at_head s in
  if Ascii.eqb c dq then
    let body := drop 1 s in
    (set key (take_while not_quote body) obj,
     drop_while space_or_comma (drop 1 (drop_while not_quote body)))
  else if isdigit c || Ascii.eqb c "-" then
    (set key (take_while number_char s) obj,
     drop_while space_or_comma (drop_while number_char s))
  else if starts_with "true" s then
    (set key "true" obj, drop_while space_or_comma (drop 4 s))
  else if starts_with "false" s then
    (set key "false" obj, drop_while space_or_comma (drop 5 s))
  else (obj, drop_while space_or_comma s).

(** The [while (pos < jsonStr.size())] loop of [parse], on the text from
    [pos] on. Every round consumes the opening quote of a key, so the
    length of the text bounds the rounds; [fuel] counts them and [None]
    means it ran out (it never does, see [parse_members_fuel]).

    When a key has no closing quote, [pos++] leaves [pos = size() + 1]:
    the source then reads [jsonStr[pos]] outside the string, and whichever
    branch that character selects calls [substr] with a start beyond
    [size()], which throws [std::out_of_range]. *)
Fixpoint parse_members (fuel : nat) (s : string) (obj : JsonObject)
  : option (result JsonObject) :=
  match fuel with
  | O => None
  | S fuel' =>
      match drop_while isspace s with
      | EmptyString => Some (Ok obj)
      | String c after_quote =>
          if Ascii.eqb c "}" then Some (Ok obj)
          else if negb (Ascii.eqb c dq) then
            Some (Throw (runtime_error "Invalid JSON: expected key"))
          else
            let key := take_while not_quote after_quote in
            match drop_while not_quote after_quote with
            | EmptyString => Some (Throw substr_out_of_range)
            | String _ after_key =>
                let '(obj', rest) :=
                  parse_value key (drop_while space_or_colon after_key) obj in
                parse_members fuel' rest obj'
            end
      end
  end.

(** [JsonObject::parse] *)
Definition parse_fuel (fuel : nat) (jsonStr : string)
  : option (result JsonObject) :=
  match find_char "{" jsonStr with
  | None => Some (Throw (runtime_error "Invalid JSON: missing opening brace"))
  | Some at_brace => parse_members fuel (drop 1 at_brace) []
  end.

Definition parse (jsonStr : string) : result JsonObject :=
  match parse_fuel (S (String.length jsonStr)) jsonStr with
  | Some r => r
  | None => Throw (runtime_error "unreachable")
  end.

(** How [dump] writes one value: bare when it is [true], [false] or starts
    like a number, quoted otherwise. *)
Definition dump_value (v : string) : string :=
  if String.eqb v "true" || String.eqb v "false" then v
  else match v with
       | String c _ =>
           if isdigit c || Ascii.eqb c "-" then v
           else String dq (v ++ String dq EmptyString)
       | EmptyString => String dq (String dq EmptyString)
       end.

Fixpoint dump_members (first : bool) (o : JsonObject) : string :=
  match o with
  | [] => EmptyString
  | (k, v) :: r =>
      (if first then EmptyString else ",")
      ++ String dq (k ++ String dq ":") ++ dump_value v
      ++ dump_members false r
  end.

(** [JsonObject::dump] *)
Definition dump (o : JsonObject) : string :=
  "{" ++ dump_members true o ++ "}".

(** [set(key, bool)] *)
Definition set_bool (key : string) (value : bool) (o : JsonObject)
  : JsonObject :=
  set key (if value then "true" else "false") o.

(** [getBool(key, defaultValue)] *)
Definition getBool (key : string) (defaultValue : bool) (o : JsonObject)
  : bool :=
  match find key o with
  | Some v => String.eqb v "true"
  | None => defaultValue
  end.

End minimal_json.

(** ** ipc_protocol.cpp: class IPCProtocol *)

Module controller.

Inductive Mode : Type := IDLE | ACTIVE.

Record ControllerState : Type := mkState {
  mode : Mode;
  target_abv : float;
  target_flow : float
}.

(** [ControllerState::ControllerState()] *)
Definition initial_state : ControllerState :=
  {| mode := IDLE; target_abv := 0%float; target_flow := 0%float |}.

(** Member functions of [IPCProtocol] run on the member [state_] and may
    throw: a computation takes the state and gives a result and the state
    it leaves, also when it throws. *)
Definition M (A : Type) : Type := ControllerState -> result A * ControllerState.

Definition ret {A} (a : A) : M A := fun st => (Ok a, st).

Definition bind {A B} (m : M A) (k : A -> M B) : M B :=
  fun st => match m st with
            | (Ok a, st') => k a st'
            | (Throw e, st') => (Throw e, st')
            end.

Definition lift {A} (r : result A) : M A := fun st => (r, st).

Definition put_mode (m : Mode) : M unit :=
  fun st => (Ok tt, {| mode := m; target_abv := target_abv st;
                       target_flow := target_flow st |}).

Definition put_target_abv (x : float) : M unit :=
  fun st => (Ok tt, {| mode := mode st; target_abv := x;
                       target_flow := target_flow st |}).

Definition put_target_flow (x : float) : M unit :=
  fun st => (Ok tt, {| mode := mode st; target_abv := target_abv st;
                       target_flow := x |}).

Notation "x <- m ;; k" := (bind m (fun x => k))
  (at level 61, m at next level, right associativity).
Notation "m ;;; k" := (bind m (fun _ => k))
  (at level 61, right associativity).

(** [create_ok_ack]: [ack.set] is called for [version], [type] and
    [status] with a string literal as the value. Of the overloads of
    [set], the one that takes [bool] needs only the standard conversion of
    the literal's pointer, the one that takes [std::string] a constructor
    call, so the [bool] one is chosen and every literal is stored as
    [true]; [dump] writes the three of them bare. The text of the file is
    damaged here: it keeps the three [set] calls of this function, on the
    flat object that [minimal_json] offers, next to lines of a variant
    that nests a [payload] object, which the [JsonObject] of the file
    cannot hold. *)
Definition create_ok_ack : string :=
  minimal_json.dump
    (minimal_json.set_bool "status" true
      (minimal_json.set_bool "type" true
        (minimal_json.set_bool "version" true []))).

(** [create_error_ack]: the same three calls, and [set] with the message,
    which is a [std::string] and so is stored as it is. *)
Definition create_error_ack (message : string) : string :=
  minimal_json.dump
    (minimal_json.set "message" message
      (minimal_json.set_bool "status" true
        (minimal_json.set_bool "type" true
          (minimal_json.set_bool "version" true [])))).

(** Modelled from the spec: the range test of [handle_set_targets]. The
    source text between the call of [getNumber] for [target_flow] and the
    tail [abv out of range (0-100)] of its error message is lost; the spec
    says [target_abv] must lie in [0,100] inclusive, else out of range;
    the header comments the field as [0-100%], and the tests
    [set_targets_boundary_values] and [set_targets_max_abv] expect 0 and
    100 to be accepted. *)
Definition abv_in_range (abv : float) : bool :=
  ((0 <=? abv) && (abv <=? 100))%float.

Section IPCProtocol.

(** [std::stod] is the C++ library's: [None] when it throws. The [what()]
    texts of the library's exceptions are the library's too. *)
Variable stod : string -> option float.
Variables what_substr what_stod : string.

Definition what (e : exception) : string :=
  match e with
  | runtime_error w => w
  | substr_out_of_range => what_substr
  | stod_failure => what_stod
  end.

(** [JsonObject::getNumber(key)], default [0.0] *)
Definition getNumber (key : string) (o : minimal_json.JsonObject)
  : result float :=
  match minimal_json.find key o with
  | Some v => match stod v with
              | Some x => Ok x
              | None => Throw stod_failure
              end
  | None => Ok 0%float
  end.

Definition handle_get_telemetry (msg : minimal_json.JsonObject) : M string :=
  ret create_ok_ack.

Definition handle_set_mode (msg : minimal_json.JsonObject) : M string :=
  if negb (minimal_json.has "mode" msg) then
    ret (create_error_ack "Missing 'mode' field")
  else
    let mode_str := minimal_json.getString "mode" msg in
    if String.eqb mode_str "IDLE" then
      put_mode IDLE ;;; ret create_ok_ack
    else if String.eqb mode_str "ACTIVE" then
      put_mode ACTIVE ;;; ret create_ok_ack
    else ret (create_error_ack ("Invalid mode: " ++ mode_str)).

(** The version of [handle_set_targets] that takes [msg] (the one the
    header declares); the lines of the [payload.contains] variant left in
    the file belong to no function. *)
Definition handle_set_targets (msg : minimal_json.JsonObject) : M string :=
  if negb (minimal_json.has "target_abv" msg) then
    ret (create_error_ack "Missing 'target_abv' field")
  else if negb (minimal_json.has "target_flow" msg) then
    ret (create_error_ack "Missing 'target_flow' field")
  else
    abv <- lift (getNumber "target_abv" msg) ;;
    flow <- lift (getNumber "target_flow" msg) ;;
    if negb (abv_in_range abv) then
      ret (create_error_ack "target_abv out of range (0-100)")
    else if (flow <? 0)%float then
      ret (create_error_ack "target_flow cannot be negative")
    else
      put_target_abv abv ;;; put_target_flow flow ;;; ret create_ok_ack.

(** The body of the [try] block, after [json::parse]. *)
Definition dispatch (msg : minimal_json.JsonObject) : M string :=
  if negb (minimal_json.has "version" msg) then
    ret (create_error_ack "Missing 'version' field")
  else
    let version := minimal_json.getString "version" msg in
    if negb (String.eqb version "v0") then
      ret (create_error_ack ("Unknown version: " ++ version))
    else if negb (minimal_json.has "type" msg) then
      ret (create_error_ack "Missing 'type' field")
    else
      let type := minimal_json.getString "type" msg in
      if String.eqb type "get_telemetry" then handle_get_telemetry msg
      else if String.eqb type "set_mode" then handle_set_mode msg
      else if String.eqb type "set_targets" then handle_set_targets msg
      else ret (create_error_ack ("Unknown message type: " ++ type)).

(** [IPCProtocol::process_message]: the response and the state left. *)
Definition process_message (line : string) (st : ControllerState)
  : string * ControllerState :=
  match (msg <- lift (minimal_json.parse line) ;; dispatch msg) st with
  | (Ok response, st') => (response, st')
  | (Throw e, st') => (create_error_ack ("Error: " ++ what e), st')
  end.

End IPCProtocol.

End controller.

(** A plain-decimal fragment of [std::stod], for the examples: optional
    leading whitespace, an optional sign, digits with an optional
    fraction, read up to the first character that does not fit; the value
    is the quotient of two integers that a [double] holds exactly, which
    is the nearest [double] to the literal. Exponents, hexadecimal
    literals, [inf] and [nan] are outside this fragment. *)
Fixpoint digits_value (acc : Z) (s : string) : Z :=
  match s with
  | EmptyString => acc
  | String c r =>
      if isdigit c then digits_value (10 * acc + (Z.of_nat (nat_of_ascii c) - 48)) r
      else acc
  end.

Definition float_of_Z (z : Z) : float :=
  if (z <? 0)%Z then (- PrimFloat.of_uint63 (Uint63.of_Z (- z)))%float
  else PrimFloat.of_uint63 (Uint63.of_Z z).

Definition stod_plain (s : string) : option float :=
  let s0 := drop_while isspace s in
  let '(neg, s1) :=
    match s0 with
    | String "-" r => (true, r)
    | String "+" r => (false, r)
    | _ => (false, s0)
    end in
  let int_part := take_while isdigit s1 in
  let s2 := drop_while isdigit s1 in
  let frac_part :=
    match s2 with
    | String "." r => take_while isdigit r
    | _ => EmptyString
    end in
  match (String.length int_part + String.length frac_part)%nat with
  | O => None
  | _ =>
      let num := digits_value (digits_value 0 int_part) frac_part in
      let den := Z.pow 10 (Z.of_nat (String.length frac_part)) in
      let x := (float_of_Z num / float_of_Z den)%float in
      Some (if neg then (- x)%float else x)
  end.

(** ** ipc_protocol.hpp: the shared protocol types *)

Module ipc.

Definition PROTOCOL_VERSION : string := "v0".

Definition GET_TELEMETRY : string := "get_telemetry".
Definition SET_MODE : string := "set_mode".
Definition SET_TARGETS : string := "set_targets".
Definition TELEMETRY : string := "telemetry".
Definition ACK : string := "ack".

Definition IDLE : string := "IDLE".
Definition ACTIVE : string := "ACTIVE".

Definition OK : string := "ok".
Definition ERROR : string := "error".

Record TemperatureReadings : Type := {
  vapour_head : option float;
  boiler_liquid : option float;
  pcb_environment : option float
}.

Record PressureReadings : Type := {
  ambient : option float;
  vapour : option float
}.

Record ValvePositions : Type := { reflux_control : Z; product_takeoff : Z }.

Record HeaterLevels : Type := { heater_1 : Z; heater_2 : Z }.

Record TelemetryPayload : Type := {
  timestamp_ms : Z;
  mode : string;
  temps : TemperatureReadings;
  pressures : PressureReadings;
  flow_ml_min : option float;
  valves : ValvePositions;
  heaters : HeaterLevels;
  faults : list string
}.

Record SetModePayload : Type := { set_mode_mode : string }.

Record SetTargetsPayload : Type := {
  target_abv : option float;
  target_flow : option float
}.

Record AckPayload : Type := {
  command : string;
  status : string;
  message : option string
}.

Record Message : Type := {
  version : string;
  type : string;
  payload_json : string
}.

End ipc.

(** ** json_utils.hpp *)

Module json.

Definition hex_digit (n : nat) : ascii :=
  if (n <? 10)%nat then ascii_of_nat (48 + n) else ascii_of_nat (87 + n).

(** The [snprintf] of a backslash, [u] and the byte in four lower-case
    hexadecimal digits. *)
Definition unicode_escape (c : ascii) : string :=
  let n := nat_of_ascii c in
  String backslash
    (String "u" (String "0" (String "0"
      (String (hex_digit (n / 16)) (String (hex_digit (n mod 16)) EmptyString))))).

(** Printing an integer with [operator<<]. *)
Definition int_to_string (z : Z) : string :=
  NilZero.string_of_int (Z.to_int z).

Section Serialization.

(** Whether plain [char] is signed on the platform: it decides whether
    [c < 0x20] holds for the bytes from 0x80 on. *)
Variable char_is_signed : bool.

(** [std::to_string(double)] is the C++ library's. *)
Variable to_string_double : float -> string.

Definition escape_char (c : ascii) : string :=
  let n := nat_of_ascii c in
  if Ascii.eqb c dq then String backslash (String dq EmptyString)
  else if Ascii.eqb c backslash then String backslash (String backslash EmptyString)
  else if (n =? 8)%nat then String backslash "b"
  else if (n =? 12)%nat then String backslash "f"
  else if (n =? 10)%nat then String backslash "n"
  else if (n =? 13)%nat then String backslash "r"
  else if (n =? 9)%nat then String backslash "t"
  else if (n <? 32)%nat || ((128 <=? n)%nat && char_is_signed)
       then unicode_escape c
  else String c EmptyString.

Fixpoint escape_json_string (input : string) : string :=
  match input with
  | EmptyString => EmptyString
  | String c r => escape_char c ++ escape_json_string r
  end.

Definition optional_double_to_json (opt : option float) : string :=
  match opt with
  | Some x => to_string_double x
  | None => "null"
  end.

(** A key in double quotes followed by a colon. *)
Definition key (k : string) : string := String dq (k ++ String dq ":").

(** A string value in double quotes, escaped. *)
Definition quoted (v : string) : string :=
  String dq (escape_json_string v ++ String dq EmptyString).

Fixpoint serialize_faults (first : bool) (fs : list string) : string :=
  match fs with
  | [] => EmptyString
  | f :: r => (if first then EmptyString else ",") ++ quoted f
              ++ serialize_faults false r
  end.

Definition serialize_telemetry (t : ipc.TelemetryPayload) : string :=
  "{" ++ key "timestamp_ms" ++ int_to_string (ipc.timestamp_ms t) ++ ","
  ++ key "mode" ++ quoted (ipc.mode t) ++ ","
  ++ key "temps" ++ "{"
  ++ key "vapour_head"
  ++ optional_double_to_json (ipc.vapour_head (ipc.temps t)) ++ ","
  ++ key "boiler_liquid"
  ++ optional_double_to_json (ipc.boiler_liquid (ipc.temps t)) ++ ","
  ++ key "pcb_environment"
  ++ optional_double_to_json (ipc.pcb_environment (ipc.temps t)) ++ "},"
  ++ key "pressures" ++ "{"
  ++ key "ambient"
  ++ optional_double_to_json (ipc.ambient (ipc.pressures t)) ++ ","
  ++ key "vapour"
  ++ optional_double_to_json (ipc.vapour (ipc.pressures t)) ++ "},"
  ++ key "flow_ml_min" ++ optional_double_to_json (ipc.flow_ml_min t) ++ ","
  ++ key "valves" ++ "{"
  ++ key "reflux_control"
  ++ int_to_string (ipc.reflux_control (ipc.valves t)) ++ ","
  ++ key "product_takeoff"
  ++ int_to_string (ipc.product_takeoff (ipc.valves t)) ++ "},"
  ++ key "heaters" ++ "{"
  ++ key "heater_1" ++ int_to_string (ipc.heater_1 (ipc.heaters t)) ++ ","
  ++ key "heater_2" ++ int_to_string (ipc.heater_2 (ipc.heaters t)) ++ "},"
  ++ key "faults" ++ "[" ++ serialize_faults true (ipc.faults t) ++ "]"
  ++ "}".

Definition serialize_ack (ack : ipc.AckPayload) : string :=
  "{" ++ key "command" ++ quoted (ipc.command ack) ++ ","
  ++ key "status" ++ quoted (ipc.status ack)
  ++ match ipc.message ack with
     | Some m => "," ++ key "message" ++ quoted m
     | None => EmptyString
     end
  ++ "}".

(** [serialize_message]: the version is written as it is, the type
    escaped, the payload as it is, and one newline ends the line. *)
Definition serialize_message (type payload_json : string) : string :=
  "{" ++ key "version"
  ++ String dq (ipc.PROTOCOL_VERSION ++ String dq EmptyString) ++ ","
  ++ key "type" ++ quoted type ++ ","
  ++ key "payload" ++ payload_json
  ++ String "}" (String newline EmptyString).

Definition create_telemetry_message (t : ipc.TelemetryPayload) : string :=
  serialize_message ipc.TELEMETRY (serialize_telemetry t).

Definition create_ack_message (ack : ipc.AckPayload) : string :=
  serialize_message ipc.ACK (serialize_ack ack).

End Serialization.

(** The string branch of [extract_json_field], on the text after the
    opening quote: the text up to the first quote that an even number of
    backslashes precedes, [None] when there is none. [run] is the length
    of the run of backslashes that ends just before the current
    character, which the source counts backwards at each quote. *)
Fixpoint scan_string (run : nat) (s : string) : option string :=
  match s with
  | EmptyString => None
  | String c r =>
      if Ascii.eqb c dq then
        if Nat.even run then Some EmptyString
        else option_map (String c) (scan_string 0 r)
      else if Ascii.eqb c backslash then
        option_map (String c) (scan_string (S run) r)
      else option_map (String c) (scan_string 0 r)
  end.

(** The object branch, on the text after the opening brace: the
    characters read while [brace_count > 0], braces counted wherever they
    stand. *)
Fixpoint take_object (brace_count : nat) (s : string) : string :=
  match brace_count, s with
  | O, _ => EmptyString
  | _, EmptyString => EmptyString
  | S n, String c r =>
      String c (take_object
                  (if Ascii.eqb c "{" then S (S n)
                   else if Ascii.eqb c "}" then n else S n) r)
  end.

Definition scalar_char (c : ascii) : bool :=
  negb (Ascii.eqb c "," || Ascii.eqb c "}" || Ascii.eqb c "]" || isspace c).

(** The value that starts at [value_start], by its first character: a
    string, an object, or a scalar up to the next delimiter. *)
Definition read_value (value : string) : option string :=
  match value with
  | EmptyString => None
  | String first_char rest =>
      if Ascii.eqb first_char dq then scan_string 0 rest
      else if Ascii.eqb first_char "{" then
        Some (String first_char (take_object 1 rest))
      else Some (take_while scalar_char value)
  end.

(** [extract_json_field] *)
Definition extract_json_field (json field : string) : option string :=
  let search := String dq (field ++ String dq EmptyString) in
  match find_str search json with
  | None => None
  | Some at_field =>
      match find_char ":" at_field with
      | None => None
      | Some at_colon =>
          read_value (drop_while isspace (drop 1 at_colon))
      end
  end.

(** [parse_message] *)
Definition parse_message (json : string) : option ipc.Message :=
  match extract_json_field json "version" with
  | None => None
  | Some version =>
      match extract_json_field json "type" with
      | None => None
      | Some type =>
          match extract_json_field json "payload" with
          | None => None
          | Some payload =>
              Some {| ipc.version := version; ipc.type := type;
                      ipc.payload_json := payload |}
          end
      end
  end.

Section Payloads.

Variable stod : string -> option float.

(** [extract_optional_double]: [nullopt] when the field is absent or
    [std::stod] throws. *)
Definition extract_optional_double (json field : string) : option float :=
  match extract_json_field json field with
  | None => None
  | Some value_str => stod value_str
  end.

Definition parse_set_mode (payload_json : string) : option ipc.SetModePayload :=
  match extract_json_field payload_json "mode" with
  | None => None
  | Some mode => Some {| ipc.set_mode_mode := mode |}
  end.

Definition parse_set_targets (payload_json : string)
  : option ipc.SetTargetsPayload :=
  Some {| ipc.target_abv := extract_optional_double payload_json "target_abv";
          ipc.target_flow := extract_optional_double payload_json "target_flow" |}.

End Payloads.

End json.

(** ** main.cpp *)

Module app.

Record ControllerState : Type := mkState {
  running : bool;
  mode : string;
  target_abv : float;
  target_flow : float
}.

Definition initial_state : ControllerState :=
  {| running := true; mode := ipc.IDLE;
     target_abv := 92%float; target_flow := 250%float |}.

(** What the reader of one connection does to its socket, in order. The
    telemetry thread that writes to the same socket every 100 ms runs
    beside it and is not part of this trace. *)
Inductive event : Type :=
| Sent (text : string)
| Closed_invalid_json
| Closed_disconnected.

Section Controller.

Variable char_is_signed : bool.
Variable to_string_double : float -> string.
Variable stod : string -> option float.

(** [ipc::get_timestamp_ms()]: the clock, which may read differently
    after every event. *)
Variable get_timestamp_ms : list event -> Z.

(** [ControllerState::get_telemetry] *)
Definition get_telemetry (now_ms : Z) (state : ControllerState)
  : ipc.TelemetryPayload :=
  {| ipc.timestamp_ms := now_ms;
     ipc.mode := mode state;
     ipc.temps := {| ipc.vapour_head := Some 78.2%float;
                     ipc.boiler_liquid := Some 91.5%float;
                     ipc.pcb_environment := Some 42.1%float |};
     ipc.pressures := {| ipc.ambient := Some 101.3%float;
                         ipc.vapour := None |};
     ipc.flow_ml_min := Some 240%float;
     ipc.valves := {| ipc.reflux_control := 65; ipc.product_takeoff := 30 |};
     ipc.heaters := {| ipc.heater_1 := 70; ipc.heater_2 := 70 |};
     ipc.faults := [] |}.

Definition ack_message (command status : string) (message : option string)
  : string :=
  json.create_ack_message char_is_signed
    {| ipc.command := command; ipc.status := status; ipc.message := message |}.

(** [process_command]: what is sent to the client (the result of
    [send_message] is not looked at) and the controller state left.
    [history] is what happened on the connection so far. *)
Definition process_command (history : list event) (state : ControllerState)
    (msg : ipc.Message) : list event * ControllerState :=
  let command := ipc.type msg in
  if negb (String.eqb (ipc.version msg) ipc.PROTOCOL_VERSION) then
    ([Sent (ack_message command ipc.ERROR
              (Some ("Unsupported protocol version: " ++ ipc.version msg)))],
     state)
  else if String.eqb (ipc.type msg) ipc.GET_TELEMETRY then
    ([Sent (json.create_telemetry_message char_is_signed to_string_double
              (get_telemetry (get_timestamp_ms history) state))],
     state)
  else if String.eqb (ipc.type msg) ipc.SET_MODE then
    match json.parse_set_mode (ipc.payload_json msg) with
    | None =>
        ([Sent (ack_message command ipc.ERROR (Some "Invalid set_mode payload"))],
         state)
    | Some payload =>
        let m := ipc.set_mode_mode payload in
        if String.eqb m ipc.IDLE || String.eqb m ipc.ACTIVE then
          ([Sent (ack_message command ipc.OK (Some ("Mode set to " ++ m)))],
           {| running := running state; mode := m;
              target_abv := target_abv state;
              target_flow := target_flow state |})
        else
          ([Sent (ack_message command ipc.ERROR
                    (Some ("Invalid mode value: " ++ m)))],
           state)
    end
  else if String.eqb (ipc.type msg) ipc.SET_TARGETS then
    match json.parse_set_targets stod (ipc.payload_json msg) with
    | None =>
        ([Sent (ack_message command ipc.ERROR
                  (Some "Invalid set_targets payload"))],
         state)
    | Some payload =>
        let abv' := match ipc.target_abv payload with
                    | Some x => x
                    | None => target_abv state
                    end in
        let flow' := match ipc.target_flow payload with
                     | Some x => x
                     | None => target_flow state
                     end in
        ([Sent (ack_message command ipc.OK (Some "Targets updated"))],
         {| running := running state; mode := mode state;
            target_abv := abv'; target_flow := flow' |})
    end
  else
    ([Sent (ack_message command ipc.ERROR
              (Some ("Unknown command type: " ++ ipc.type msg)))],
     state).

Definition not_newline (c : ascii) : bool := negb (Ascii.eqb c newline).
Definition not_nul (c : ascii) : bool := negb (Ascii.eqb c nul).

(** What the inner loop of [handle_client] leaves: the connection still
    open with the incomplete rest of the buffer, or closed. *)
Inductive drained : Type :=
| Open (history : list event) (state : ControllerState) (incomplete : string)
| Shut (history : list event) (state : ControllerState).

(** The inner [while] of [handle_client], over the complete lines of
    [incomplete_message]. Every round removes a newline from the buffer;
    [fuel] counts the rounds and [None] means it ran out (it never does,
    see [process_lines_fuel]). *)
Fixpoint process_lines (fuel : nat) (history : list event)
    (state : ControllerState) (incomplete_message : string) : option drained :=
  match fuel with
  | O => None
  | S fuel' =>
      match find_char newline incomplete_message with
      | None => Some (Open history state incomplete_message)
      | Some at_newline =>
          let message_str := take_while not_newline incomplete_message in
          let rest := drop 1 at_newline in
          match json.parse_message message_str with
          | Some msg =>
              let '(sent, state') := process_command history state msg in
              process_lines fuel' (history ++ sent)%list state' rest
          | None => Some (Shut (history ++ [Closed_invalid_json])%list state)
          end
      end
  end.

(** The outer loop of [handle_client]. [reads] holds what the successive
    calls of [recv] deliver; the end of the list is the call that returns
    zero or less. A chunk is appended as a C string, up to its first NUL. *)
Fixpoint read_loop (reads : list string) (history : list event)
    (state : ControllerState) (incomplete_message : string)
  : list event * ControllerState :=
  if negb (running state) then ((history ++ [Closed_disconnected])%list, state)
  else
    match reads with
    | [] => ((history ++ [Closed_disconnected])%list, state)
    | chunk :: later =>
        let buffer := incomplete_message ++ take_while not_nul chunk in
        match process_lines (S (String.length buffer)) history state buffer with
        | Some (Open history' state' incomplete') =>
            read_loop later history' state' incomplete'
        | Some (Shut history' state') => (history', state')
        | None => (history, state)
        end
    end.

(** [handle_client] *)
Definition handle_client (reads : list string) (state : ControllerState)
  : list event * ControllerState :=
  read_loop reads [] state EmptyString.

End Controller.

End app.

(** ** ipc_server.cpp *)

Module ipc_server.

Definition socket_t : Type := Z.
Definition SOCKET_ERROR_VALUE : Z := (-1)%Z.

(** The socket calls [IpcServer::send] makes, in order. *)
Inductive syscall : Type :=
| Send (s : socket_t) (msg : string) (result : Z)
| Closesocket (s : socket_t).

Fixpoint last_char (s : string) : option ascii :=
  match s with
  | EmptyString => None
  | String c EmptyString => Some c
  | String _ r => last_char r
  end.

(** The message with the newline added when it is missing. *)
Definition with_newline (message : string) : string :=
  match last_char message with
  | Some c => if Ascii.eqb c newline then message
              else message ++ String newline EmptyString
  | None => message ++ String newline EmptyString
  end.

(** [std::remove] and [erase] of one socket from [clients_] *)
Definition erase (dead : socket_t) (clients : list socket_t) : list socket_t :=
  filter (fun c => negb (Z.eqb c dead)) clients.

Section Send.

(** [::send] on a socket: its result may depend on every call made so
    far. *)
Variable sys_send : list syscall -> socket_t -> string -> Z.

(** The first loop of [send], over [clients_]: every client is written
    to, the failed ones are collected in [deadClients]. *)
Fixpoint send_pass (msg : string) (clients : list socket_t)
    (calls : list syscall) (deadClients : list socket_t)
  : list syscall * list socket_t :=
  match clients with
  | [] => (calls, deadClients)
  | clientSocket :: r =>
      let result := sys_send calls clientSocket msg in
      send_pass msg r (calls ++ [Send clientSocket msg result])
        (if Z.eqb result SOCKET_ERROR_VALUE
         then deadClients ++ [clientSocket] else deadClients)
  end.

(** The second loop of [send], over [deadClients]. *)
Fixpoint remove_dead (deadClients : list socket_t) (clients : list socket_t)
    (calls : list syscall) : list socket_t * list syscall :=
  match deadClients with
  | [] => (clients, calls)
  | deadSocket :: r =>
      remove_dead r (erase deadSocket clients) (calls ++ [Closesocket deadSocket])
  end.

(** [IpcServer::send], under [clientsMutex_]: the client list and the
    calls made, after it. *)
Definition send (message : string) (clients : list socket_t)
    (calls : list syscall) : list socket_t * list syscall :=
  let msg := with_newline message in
  let '(calls', deadClients) := send_pass msg clients calls [] in
  remove_dead deadClients clients calls'.

End Send.

(** The message the callback gets for one complete line, [None] when the
    line is skipped: an empty line, or one that is empty once its trailing
    carriage return is removed. *)
Definition strip_cr (message : string) : string :=
  match last_char message with
  | Some c => if Ascii.eqb c "013"%char
              then substring 0 (String.length message - 1) message
              else message
  | None => message
  end.

Definition callback_argument (line : string) : option string :=
  match strip_cr line with
  | EmptyString => None
  | m => Some m
  end.

Definition not_newline (c : ascii) : bool := negb (Ascii.eqb c newline).
Definition not_nul (c : ascii) : bool := negb (Ascii.eqb c nul).

(** The inner loop of [handleClient]: the messages handed to
    [messageCallback_], in order, and the incomplete rest of
    [lineBuffer]. *)
Fixpoint forward_lines (fuel : nat) (lineBuffer : string)
  : option (list string * string) :=
  match fuel with
  | O => None
  | S fuel' =>
      match find_char newline lineBuffer with
      | None => Some ([], lineBuffer)
      | Some at_newline =>
          let message := take_while not_newline lineBuffer in
          match forward_lines fuel' (drop 1 at_newline) with
          | None => None
          | Some (calls, rest) =>
              Some (match callback_argument message with
                    | Some m => m :: calls
                    | None => calls
                    end, rest)
          end
      end
  end.

(** [IpcServer::handleClient], while [running_] holds: the messages handed
    to the callback over the whole connection. [reads] is what the
    successive calls of [recv] deliver, up to the one that returns zero
    or less. *)
Fixpoint handleClient (reads : list string) (lineBuffer : string)
  : list string :=
  match reads with
  | [] => []
  | chunk :: later =>
      let buffer := lineBuffer ++ take_while not_nul chunk in
      match forward_lines (S (String.length buffer)) buffer with
      | Some (calls, rest) => (calls ++ handleClient later rest)%list
      | None => []
      end
  end.

(** The end of [IpcServer::handleClient], once its loop is left: under
    [clientsMutex_] the client is erased from [clients_], then its socket
    is closed. *)
Definition leave (clientSocket : socket_t) (clients : list socket_t)
    (calls : list syscall) : list socket_t * list syscall :=
  (erase clientSocket clients, (calls ++ [Closesocket clientSocket])%list).

End ipc_server.

(** ** controller.cpp: the binary telemetry frame *)

Module telemetry.

Local Open Scope Z_scope.

(** The 32-bit [float] of [ProcessState]: IEEE binary32. *)
Definition prec : Z := 24.
Definition emax : Z := 128.
Definition float32 : Type := spec_float.

Definition f32_of_int (z : Z) : float32 := binary_normalize prec emax z 0 false.
Definition f32_mul (x y : float32) : float32 := SFmul prec emax x y.

(** The integral part of a finite value, as a conversion to an integer
    type takes it (towards zero). *)
Definition truncate (x : float32) : option Z :=
  match x with
  | S754_zero _ => Some 0
  | S754_finite s m e =>
      let v := if 0 <=? e then Zpos m * 2 ^ e else Zpos m / 2 ^ (- e) in
      Some (if s then - v else v)
  | S754_infinity _ => None
  | S754_nan => None
  end.

(** [static_cast] of a [float] to an integer type of range [lo..hi]:
    undefined ([None]) when the integral part does not fit. *)
Definition cast_to_int (lo hi : Z) (x : float32) : option Z :=
  match truncate x with
  | Some v => if (lo <=? v) && (v <=? hi) then Some v else None
  | None => None
  end.

Definition INT16_MIN : Z := -32768.
Definition INT16_MAX : Z := 32767.
Definition UINT16_MAX : Z := 65535.
Definition UINT8_MAX : Z := 255.

(** controller.h *)
Inductive ProcessMode : Type := IDLE | STARTUP | ACTIVE | SHUTDOWN | FAULT.

Definition mode_code (m : ProcessMode) : Z :=
  match m with
  | IDLE => 0 | STARTUP => 1 | ACTIVE => 2 | SHUTDOWN => 3 | FAULT => 4
  end.

Record ProcessState : Type := {
  temp_vapour_head_degc : float32;
  temp_boiler_liquid_degc : float32;
  temp_pcb_environment_degc : float32;
  pressure_ambient_kpa : float32;
  pressure_vapour_kpa : float32;
  flow_ml_min_reading : float32;
  valve_reflux_percent : Z;
  valve_product_percent : Z;
  heater_1_percent : Z;
  heater_2_percent : Z;
  fault_flags : Z
}.

(** [struct TelemetryMessage], packed: the fields in their order. *)
Record TelemetryMessage : Type := {
  version : Z;               (* uint8_t *)
  timestamp_ms : Z;          (* uint64_t *)
  mode : Z;                  (* uint8_t *)
  temp_vapour_head : Z;      (* int16_t *)
  temp_boiler_liquid : Z;    (* int16_t *)
  temp_pcb_environment : Z;  (* int16_t *)
  pressure_ambient : Z;      (* int16_t *)
  pressure_vapour : Z;       (* int16_t *)
  flow_ml_min : Z;           (* uint16_t *)
  valve_reflux_control : Z;  (* uint8_t *)
  valve_product_takeoff : Z; (* uint8_t *)
  heater_1 : Z;              (* uint8_t *)
  heater_2 : Z;              (* uint8_t *)
  faults : Z;                (* uint32_t *)
  sensor_presence : Z        (* uint16_t *)
}.

Definition VERSION : Z := 1.

(** [enum SensorPresenceBits] *)
Definition SENSOR_TEMP_VAPOUR_HEAD : Z := Z.shiftl 1 0.
Definition SENSOR_TEMP_BOILER_LIQUID : Z := Z.shiftl 1 1.
Definition SENSOR_TEMP_PCB_ENVIRONMENT : Z := Z.shiftl 1 2.
Definition SENSOR_PRESSURE_AMBIENT : Z := Z.shiftl 1 3.
Definition SENSOR_PRESSURE_VAPOUR : Z := Z.shiftl 1 4.
Definition SENSOR_FLOW : Z := Z.shiftl 1 5.
Definition SENSOR_VALVE_REFLUX : Z := Z.shiftl 1 6.
Definition SENSOR_VALVE_PRODUCT : Z := Z.shiftl 1 7.
Definition SENSOR_HEATER_1 : Z := Z.shiftl 1 8.
Definition SENSOR_HEATER_2 : Z := Z.shiftl 1 9.

(** [sensor_presence_ & bit], read as a condition *)
Definition present (sensor_presence bit : Z) : bool :=
  negb (Z.land sensor_presence bit =? 0).

(** [present ? static_cast<int16_t>(reading * 100) : INT16_MAX] *)
Definition scaled_int16 (sensor_presence bit : Z) (reading : float32)
  : option Z :=
  if present sensor_presence bit
  then cast_to_int INT16_MIN INT16_MAX (f32_mul reading (f32_of_int 100))
  else Some INT16_MAX.

(** [present ? static_cast<uint16_t>(reading * 10) : UINT16_MAX] *)
Definition scaled_uint16 (sensor_presence bit : Z) (reading : float32)
  : option Z :=
  if present sensor_presence bit
  then cast_to_int 0 UINT16_MAX (f32_mul reading (f32_of_int 10))
  else Some UINT16_MAX.

(** [present ? percent : UINT8_MAX] *)
Definition percent_uint8 (sensor_presence bit percent : Z) : Z :=
  if present sensor_presence bit then percent else UINT8_MAX.

(** The message [Controller::PublishTelemetry] fills in; [None] when a
    conversion of a present reading is undefined. *)
Definition build_message (sensor_presence : Z) (current_mode : ProcessMode)
    (state : ProcessState) (now_ms : Z) : option TelemetryMessage :=
  match scaled_int16 sensor_presence SENSOR_TEMP_VAPOUR_HEAD
          (temp_vapour_head_degc state),
        scaled_int16 sensor_presence SENSOR_TEMP_BOILER_LIQUID
          (temp_boiler_liquid_degc state),
        scaled_int16 sensor_presence SENSOR_TEMP_PCB_ENVIRONMENT
          (temp_pcb_environment_degc state),
        scaled_int16 sensor_presence SENSOR_PRESSURE_AMBIENT
          (pressure_ambient_kpa state),
        scaled_int16 sensor_presence SENSOR_PRESSURE_VAPOUR
          (pressure_vapour_kpa state),
        scaled_uint16 sensor_presence SENSOR_FLOW (flow_ml_min_reading state)
  with
  | Some t1, Some t2, Some t3, Some p1, Some p2, Some fl =>
      Some {| version := VERSION;
              timestamp_ms := now_ms;
              mode := mode_code current_mode;
              temp_vapour_head := t1;
              temp_boiler_liquid := t2;
              temp_pcb_environment := t3;
              pressure_ambient := p1;
              pressure_vapour := p2;
              flow_ml_min := fl;
              valve_reflux_control :=
                percent_uint8 sensor_presence SENSOR_VALVE_REFLUX
                  (valve_reflux_percent state);
              valve_product_takeoff :=
                percent_uint8 sensor_presence SENSOR_VALVE_PRODUCT
                  (valve_product_percent state);
              heater_1 :=
                percent_uint8 sensor_presence SENSOR_HEATER_1
                  (heater_1_percent state);
              heater_2 :=
                percent_uint8 sensor_presence SENSOR_HEATER_2
                  (heater_2_percent state);
              faults := fault_flags state;
              sensor_presence := sensor_presence |}
  | _, _, _, _, _, _ => None
  end.

(** [n] bytes of an integer, least significant first; a negative value
    comes out in two's complement. *)
Fixpoint le_bytes (n : nat) (z : Z) : list Z :=
  match n with
  | O => []
  | S n' => (z mod 256) :: le_bytes n' (z / 256)
  end.

(** The bytes [memcpy] takes from the packed struct on a little-endian
    machine: the fields one after the other, nothing between them. *)
Definition frame (m : TelemetryMessage) : list Z :=
  (le_bytes 1 (version m) ++ le_bytes 8 (timestamp_ms m)
   ++ le_bytes 1 (mode m)
   ++ le_bytes 2 (temp_vapour_head m) ++ le_bytes 2 (temp_boiler_liquid m)
   ++ le_bytes 2 (temp_pcb_environment m)
   ++ le_bytes 2 (pressure_ambient m) ++ le_bytes 2 (pressure_vapour m)
   ++ le_bytes 2 (flow_ml_min m)
   ++ le_bytes 1 (valve_reflux_control m) ++ le_bytes 1 (valve_product_takeoff m)
   ++ le_bytes 1 (heater_1 m) ++ le_bytes 1 (heater_2 m)
   ++ le_bytes 4 (faults m) ++ le_bytes 2 (sensor_presence m))%list.

(** [Controller::PublishTelemetry]: the frame handed to the publisher. *)
Definition PublishTelemetry (sensor_presence : Z) (current_mode : ProcessMode)
    (state : ProcessState) (now_ms : Z) : option (list Z) :=
  option_map frame (build_message sensor_presence current_mode state now_ms).

(** [uint64_t] arithmetic is modulo 2^64. *)
Definition UINT64_MODULUS : Z := 2 ^ 64.

(** [telemetry_interval_ms_(200)] *)
Definition telemetry_interval_ms : Z := 200.

(** [now_ms - last_telemetry_ms_ >= telemetry_interval_ms_], on
    [uint64_t]. *)
Definition due (last_telemetry_ms now_ms : Z) : bool :=
  (now_ms - last_telemetry_ms) mod UINT64_MODULUS >=? telemetry_interval_ms.

(** The rounds of the loop of [Controller::Run], one for each reading
    [GetTimestampMs] gives: the frames published, each with its time
    stamp, and the [last_telemetry_ms_] left. [UpdateState] and
    [ExecuteControlLogic] have empty bodies; the sleep at the end of a
    round shows in the next reading of the clock only. *)
Fixpoint Run (sensor_presence : Z) (current_mode : ProcessMode)
    (state : ProcessState) (clock : list Z) (last_telemetry_ms : Z)
  : list (Z * option (list Z)) * Z :=
  match clock with
  | [] => ([], last_telemetry_ms)
  | now_ms :: later =>
      if due last_telemetry_ms now_ms then
        let '(published, last) :=
          Run sensor_presence current_mode state later now_ms in
        ((now_ms, PublishTelemetry sensor_presence current_mode state now_ms)
           :: published, last)
      else Run sensor_presence current_mode state later last_telemetry_ms
  end.

End telemetry.

(** * Vocabulary of the statements *)

(** ** The acks of IPCProtocol and the lines of the examples *)

(** The two texts [IPCProtocol] answers with: the members in key order,
    each of [status], [type] and [version] with the bare value [true], no
    [command] and no nested [payload]; the text for a refusal differs by
    its [message] member. *)
Definition ok_ack_text : string :=
  jq "{'status':true,'type':true,'version':true}".

Definition error_ack_text (message : string) : string :=
  jq "{'message':'" ++ message
  ++ jq "','status':true,'type':true,'version':true}".

(** A message that [dump] writes in quotes: it is neither [true] nor
    [false] and does not start with a digit or a minus sign. *)
Definition written_in_quotes (m : string) : bool :=
  negb (String.eqb m "true" || String.eqb m "false")
  && match m with
     | EmptyString => true
     | String c _ => negb (isdigit c || Ascii.eqb c "-")
     end.

(** A [set_mode] line as [IPCProtocol] reads it, the mode a member of
    the message. *)
Definition set_mode_active_line : string :=
  jq "{'version':'v0','type':'set_mode','mode':'ACTIVE'}".


(** A [set_targets] line with both fields valid, as [IPCProtocol] reads
    it. *)
Definition set_targets_both_line : string :=
  jq "{'version':'v0','type':'set_targets','target_abv':42.5,'target_flow':1.5}".

(** The out-of-range request of the test
    [set_targets_abv_out_of_range_high], as main.cpp reads it. *)
Definition set_targets_150_line : string :=
  jq "{'version':'v0','type':'set_targets','payload':{'target_abv':150.0,'target_flow':1.5}}".

(** The [get_telemetry] request without a payload, the line of the test
    [missing_payload_field]. *)
Definition get_telemetry_no_payload_line : string :=
  jq "{'version':'v0','type':'get_telemetry'}".

(** The [get_telemetry] request of the spec's scenario and of the test
    [valid_json_get_telemetry], and the ack the scenario expects. *)
Definition get_telemetry_line : string :=
  jq "{'version':'v0','type':'get_telemetry','payload':{}}".

Definition get_telemetry_expected_ack : string :=
  jq "{'version':'v0','type':'ack','payload':{'command':'get_telemetry','status':'ok'}}".

(** ** The envelope *)

(** The message types of the protocol. *)
Definition supported_types : list string :=
  [ipc.GET_TELEMETRY; ipc.SET_MODE; ipc.SET_TARGETS; ipc.TELEMETRY; ipc.ACK].

(** Text whose braces match, wherever they stand. *)
Inductive balanced : string -> Prop :=
| balanced_nil : balanced EmptyString
| balanced_char c s :
    c <> "{"%char -> c <> "}"%char -> balanced s -> balanced (String c s)
| balanced_nest s1 s2 :
    balanced s1 -> balanced s2 -> balanced ("{" ++ s1 ++ "}" ++ s2).

(** ** Lines of a connection *)

(** Complete lines as they arrive: each followed by its newline. *)
Fixpoint lines_text (lines : list string) : string :=
  match lines with
  | [] => EmptyString
  | l :: r => l ++ String newline (lines_text r)
  end.

Section AfterLines.

Variable char_is_signed : bool.
Variable to_string_double : float -> string.
Variable stod : string -> option float.
Variable get_timestamp_ms : list app.event -> Z.

(** What the connection has seen and the state, after the commands of
    [lines] were processed in order by [process_command]. *)
Fixpoint after_lines (lines : list string) (history : list app.event)
    (st : app.ControllerState) : list app.event * app.ControllerState :=
  match lines with
  | [] => (history, st)
  | l :: r =>
      match json.parse_message l with
      | Some msg =>
          let '(sent, st') :=
            app.process_command char_is_signed to_string_double stod
              get_timestamp_ms history st msg in
          after_lines r (history ++ sent)%list st'
      | None => (history, st)
      end
  end.

End AfterLines.

(** What [IpcServer::handleClient] hands to the callback for the complete
    lines [lines]: each line that is not empty, without its trailing
    carriage return. *)
Definition forwarded (lines : list string) : list string :=
  flat_map (fun l => match ipc_server.callback_argument l with
                     | Some m => [m]
                     | None => []
                     end) lines.

(** ** One pass of send *)

(** The writes of one pass: every client of the list, in order, with the
    result of its own write. *)
Fixpoint attempts (sys_send : list ipc_server.syscall -> Z -> string -> Z)
    (msg : string) (clients : list Z) (calls : list ipc_server.syscall)
  : list (Z * Z) :=
  match clients with
  | [] => []
  | c :: r =>
      let result := sys_send calls c msg in
      (c, result)
        :: attempts sys_send msg r (calls ++ [ipc_server.Send c msg result])
  end.

Definition send_calls (msg : string) (tried : list (Z * Z))
  : list ipc_server.syscall :=
  map (fun a => ipc_server.Send (fst a) msg (snd a)) tried.

(** The clients whose write failed. *)
Definition failed (tried : list (Z * Z)) : list Z :=
  map fst (filter (fun a => Z.eqb (snd a) ipc_server.SOCKET_ERROR_VALUE) tried).

(** The clients that are not among the dead. *)
Definition survivors (dead clients : list Z) : list Z :=
  filter (fun c => negb (existsb (Z.eqb c) dead)) clients.

(** ** The channels of the telemetry frame *)

(** The ten channels of the frame that a sentinel can stand for. *)
Inductive channel : Type :=
| TempVapourHead | TempBoilerLiquid | TempPcbEnvironment
| PressureAmbient | PressureVapour | Flow
| ValveReflux | ValveProduct | Heater1 | Heater2.

Definition presence_bit (c : channel) : Z :=
  match c with
  | TempVapourHead => telemetry.SENSOR_TEMP_VAPOUR_HEAD
  | TempBoilerLiquid => telemetry.SENSOR_TEMP_BOILER_LIQUID
  | TempPcbEnvironment => telemetry.SENSOR_TEMP_PCB_ENVIRONMENT
  | PressureAmbient => telemetry.SENSOR_PRESSURE_AMBIENT
  | PressureVapour => telemetry.SENSOR_PRESSURE_VAPOUR
  | Flow => telemetry.SENSOR_FLOW
  | ValveReflux => telemetry.SENSOR_VALVE_REFLUX
  | ValveProduct => telemetry.SENSOR_VALVE_PRODUCT
  | Heater1 => telemetry.SENSOR_HEATER_1
  | Heater2 => telemetry.SENSOR_HEATER_2
  end.

Definition frame_field (c : channel) (m : telemetry.TelemetryMessage) : Z :=
  match c with
  | TempVapourHead => telemetry.temp_vapour_head m
  | TempBoilerLiquid => telemetry.temp_boiler_liquid m
  | TempPcbEnvironment => telemetry.temp_pcb_environment m
  | PressureAmbient => telemetry.pressure_ambient m
  | PressureVapour => telemetry.pressure_vapour m
  | Flow => telemetry.flow_ml_min m
  | ValveReflux => telemetry.valve_reflux_control m
  | ValveProduct => telemetry.valve_product_takeoff m
  | Heater1 => telemetry.heater_1 m
  | Heater2 => telemetry.heater_2 m
  end.

Definition sentinel (c : channel) : Z :=
  match c with
  | TempVapourHead | TempBoilerLiquid | TempPcbEnvironment
  | PressureAmbient | PressureVapour => telemetry.INT16_MAX
  | Flow => telemetry.UINT16_MAX
  | ValveReflux | ValveProduct | Heater1 | Heater2 => telemetry.UINT8_MAX
  end.

(** The scaled value of a channel's reading: times 100 for the
    temperatures and pressures, times 10 for the flow, the integral part
    taken; the percent itself for valves and heaters. [None] when the
    integral part is not defined (an infinity or a NaN). *)
Definition scaled_reading (c : channel) (state : telemetry.ProcessState)
  : option Z :=
  let times k x :=
    telemetry.truncate (telemetry.f32_mul x (telemetry.f32_of_int k)) in
  match c with
  | TempVapourHead => times 100%Z (telemetry.temp_vapour_head_degc state)
  | TempBoilerLiquid => times 100%Z (telemetry.temp_boiler_liquid_degc state)
  | TempPcbEnvironment =>
      times 100%Z (telemetry.temp_pcb_environment_degc state)
  | PressureAmbient => times 100%Z (telemetry.pressure_ambient_kpa state)
  | PressureVapour => times 100%Z (telemetry.pressure_vapour_kpa state)
  | Flow => times 10%Z (telemetry.flow_ml_min_reading state)
  | ValveReflux => Some (telemetry.valve_reflux_percent state)
  | ValveProduct => Some (telemetry.valve_product_percent state)
  | Heater1 => Some (telemetry.heater_1_percent state)
  | Heater2 => Some (telemetry.heater_2_percent state)
  end.

(** A state with every reading in its range and a presence map without
    the vapour pressure sensor. *)
Definition example_state : telemetry.ProcessState :=
  {| telemetry.temp_vapour_head_degc := telemetry.f32_of_int 100;
     telemetry.temp_boiler_liquid_degc := telemetry.f32_of_int (-5);
     telemetry.temp_pcb_environment_degc := S754_zero false;
     telemetry.pressure_ambient_kpa := telemetry.f32_of_int 101;
     telemetry.pressure_vapour_kpa := S754_nan;
     telemetry.flow_ml_min_reading := telemetry.f32_of_int 240;
     telemetry.valve_reflux_percent := 65;
     telemetry.valve_product_percent := 30;
     telemetry.heater_1_percent := 70;
     telemetry.heater_2_percent := 70;
     telemetry.fault_flags := 0 |}.

Definition example_message : telemetry.TelemetryMessage :=
  {| telemetry.version := 1;
     telemetry.timestamp_ms := 1234;
     telemetry.mode := 2;
     telemetry.temp_vapour_head := 10000;
     telemetry.temp_boiler_liquid := -500;
     telemetry.temp_pcb_environment := 0;
     telemetry.pressure_ambient := 10100;
     telemetry.pressure_vapour := 32767;
     telemetry.flow_ml_min := 2400;
     telemetry.valve_reflux_control := 65;
     telemetry.valve_product_takeoff := 30;
     telemetry.heater_1 := 70;
     telemetry.heater_2 := 70;
     telemetry.faults := 0;
     telemetry.sensor_presence := 65519 |}.

(** ** Vocabulary of the further properties *)

(** Whether every character of a text passes a test. *)
Fixpoint string_forallb (p : ascii -> bool) (s : string) : bool :=
  match s with
  | EmptyString => true
  | String c r => p c && string_forallb p r
  end.

(** *** Objects of minimal_json *)

(** The order [std::map] keeps: every key below the key after it. *)
Definition key_before (k : string) (o : minimal_json.JsonObject) : Prop :=
  match o with
  | [] => True
  | (k', _) :: _ => String.compare k k' = Lt
  end.

Fixpoint keys_increasing (o : minimal_json.JsonObject) : Prop :=
  match o with
  | [] => True
  | (k, _) :: r => key_before k r /\ keys_increasing r
  end.

(** A value that [dump] writes in a form [parse] reads back: it holds no
    double quote and, when it starts like a number (so that [dump] writes
    it bare), it is made of digits, points and minus signs only. *)
Definition plain_value (v : string) : bool :=
  string_forallb minimal_json.not_quote v
  && match v with
     | EmptyString => true
     | String c _ =>
         if isdigit c || Ascii.eqb c "-"
         then string_forallb minimal_json.number_char v
         else true
     end.

Definition plain_member (m : string * string) : bool :=
  string_forallb minimal_json.not_quote (fst m) && plain_value (snd m).

(** One step of the loop of [parse] on the object: the member is stored. *)
Definition store (acc : minimal_json.JsonObject) (m : string * string)
  : minimal_json.JsonObject :=
  minimal_json.set (fst m) (snd m) acc.

(** *** Text of json_utils *)

(** A control character, as [escape_json_string] tests it on the byte
    value: below 0x20. *)
Definition control_char (c : ascii) : bool := (nat_of_ascii c <? 32)%nat.

(** A character [escape_json_string] copies as it is on every platform:
    printable 7-bit ASCII other than the double quote and the backslash. *)
Definition plain_char (c : ascii) : bool :=
  (32 <=? nat_of_ascii c)%nat && (nat_of_ascii c <? 128)%nat
  && negb (Ascii.eqb c dq) && negb (Ascii.eqb c backslash).

Definition not_dq (c : ascii) : bool := negb (Ascii.eqb c dq).

(** The search [extract_json_field] makes for the payload in [text]: the
    quoted name is found, and the first colon from there on is followed
    by [R]. *)
Definition finds_payload (R text : string) : Prop :=
  exists at_field,
    find_str (jq "'payload'") text = Some at_field
    /\ find_char ":" at_field = Some (":" ++ R).

(** *** The byte stream of a connection *)

(** What the successive calls of [recv] deliver, put together: each chunk
    as the C string that is appended to the buffer. *)
Fixpoint received (reads : list string) : string :=
  match reads with
  | [] => EmptyString
  | chunk :: later => take_while app.not_nul chunk ++ received later
  end.

(** A line [parse_message] decodes. *)
Definition decodable (line : string) : bool :=
  match json.parse_message line with Some _ => true | None => false end.

(** How [handle_client] ends on a stream whose complete lines are
    [lines]: by the end of the stream when every line decodes, by the
    first line that does not otherwise. *)
Definition closing (lines : list string) : app.event :=
  if forallb decodable lines then app.Closed_disconnected
  else app.Closed_invalid_json.

(** The two modes of the protocol. *)
Definition valid_mode (m : string) : Prop := m = ipc.IDLE \/ m = ipc.ACTIVE.

(** How often a socket was closed in a sequence of calls. *)
Fixpoint closes (s : Z) (calls : list ipc_server.syscall) : nat :=
  match calls with
  | [] => O
  | ipc_server.Closesocket c :: r =>
      if Z.eqb c s then S (closes s r) else closes s r
  | ipc_server.Send _ _ _ :: r => closes s r
  end.

(** A [set_targets] line whose flow is no number, as [IPCProtocol] reads
    it. *)
Definition set_targets_unreadable_flow_line : string :=
  jq "{'version':'v0','type':'set_targets','target_abv':50,'target_flow':'fast'}".

(** A [::send] that fails on socket 7 and writes five bytes to every
    other socket. *)
Definition send_fails_on_7 (calls : list ipc_server.syscall) (s : Z)
    (msg : string) : Z :=
  if Z.eqb s 7 then (-1)%Z else 5%Z.

(** *** Lines given to IPCProtocol *)

Section StateAfter.

Variable stod : string -> option float.
Variables what_substr what_stod : string.

(** The state [IPCProtocol] is left in after [process_message] was called
    on each of [lines], in order. *)
Fixpoint state_after (lines : list string) (st : controller.ControllerState)
  : controller.ControllerState :=
  match lines with
  | [] => st
  | l :: r =>
      state_after r
        (snd (controller.process_message stod what_substr what_stod l st))
  end.

End StateAfter.

(** *** The telemetry frame and the loop *)

(** A message whose fields hold values of their types. *)
Definition fits (m : telemetry.TelemetryMessage) : Prop :=
  (0 <= telemetry.version m < 2 ^ 8
   /\ 0 <= telemetry.timestamp_ms m < 2 ^ 64
   /\ 0 <= telemetry.mode m < 2 ^ 8
   /\ - 2 ^ 15 <= telemetry.temp_vapour_head m < 2 ^ 15
   /\ - 2 ^ 15 <= telemetry.temp_boiler_liquid m < 2 ^ 15
   /\ - 2 ^ 15 <= telemetry.temp_pcb_environment m < 2 ^ 15
   /\ - 2 ^ 15 <= telemetry.pressure_ambient m < 2 ^ 15
   /\ - 2 ^ 15 <= telemetry.pressure_vapour m < 2 ^ 15
   /\ 0 <= telemetry.flow_ml_min m < 2 ^ 16
   /\ 0 <= telemetry.valve_reflux_control m < 2 ^ 8
   /\ 0 <= telemetry.valve_product_takeoff m < 2 ^ 8
   /\ 0 <= telemetry.heater_1 m < 2 ^ 8
   /\ 0 <= telemetry.heater_2 m < 2 ^ 8
   /\ 0 <= telemetry.faults m < 2 ^ 32
   /\ 0 <= telemetry.sensor_presence m < 2 ^ 16)%Z.

(** Readings of a clock that does not go back, from [prev] on. *)
Fixpoint nondecreasing (prev : Z) (ts : list Z) : Prop :=
  match ts with
  | [] => True
  | t :: r => (prev <= t)%Z /\ nondecreasing t r
  end.

(** Time stamps that are at least [gap] apart, the first one from
    [prev]. *)
Fixpoint spaced (gap prev : Z) (ts : list Z) : Prop :=
  match ts with
  | [] => True
  | t :: r => (prev + gap <= t)%Z /\ spaced gap t r
  end.

(** The value of bytes read least significant first. *)
Fixpoint le_value (bytes : list Z) : Z :=
  match bytes with
  | [] => 0%Z
  | b :: r => (b + 256 * le_value r)%Z
  end.

(** *** Inputs of the examples *)

(** A [set_mode] request as main.cpp reads it, and the same request as
    two calls of [recv] deliver it, followed by the start of a line that
    never ends. *)
Definition set_mode_nested_line : string :=
  jq "{'version':'v0','type':'set_mode','payload':{'mode':'ACTIVE'}}".

Definition set_mode_in_two_reads : list string :=
  [jq "{'version':'v0','type':'set_mo";
   jq "de','payload':{'mode':'ACTIVE'}}" ++ String newline "{"].

Definition set_mode_in_one_read : list string :=
  [set_mode_nested_line ++ String newline "{"].

(** A [set_targets] line with a flow below zero, as [IPCProtocol] reads
    it. *)
Definition set_targets_negative_flow_line : string :=
  jq "{'version':'v0','type':'set_targets','target_abv':50,'target_flow':-1}".

(** A line with a version the protocol does not know. *)
Definition version_v1_line : string :=
  jq "{'version':'v1','type':'get_telemetry'}".

(** Readings of the clock of [Controller::Run], in milliseconds. *)
Definition example_clock : list Z := [100; 200; 300; 400; 650]%Z.

(** *** Lines of set_targets and set_mode *)






(** A line of the protocol as main.cpp reads it: the envelope around a
    payload. *)
Definition command_line (type payload : string) : string :=
  jq "{'version':'v0','type':'" ++ type ++ jq "','payload':" ++ payload ++ "}".

(** The payload of a [set_targets] command that supplies the given
    fields. *)
Definition targets_payload (abv flow : option string) : string :=
  match abv, flow with
  | Some a, Some f =>
      jq "{'target_abv':" ++ a ++ jq ",'target_flow':" ++ f ++ "}"
  | Some a, None => jq "{'target_abv':" ++ a ++ "}"
  | None, Some f => jq "{'target_flow':" ++ f ++ "}"
  | None, None => "{}"
  end.

(** The payload of a [set_mode] command. *)
Definition mode_payload (mode : string) : string :=
  jq "{'mode':'" ++ mode ++ jq "'}".


(** The ack main.cpp writes for a [set_targets] command it has applied. *)
Definition targets_updated_ack : string :=
  jq "{'version':'v0','type':'ack','payload':{'command':'set_targets','status':'ok','message':'Targets updated'}}"
  ++ String newline EmptyString.

(** A [set_mode] line as main.cpp and the tests of [IPCProtocol] write
    it, and the same request with the mode as a member of the message. *)
Definition set_mode_line (mode : string) : string :=
  command_line "set_mode" (mode_payload mode).

Definition set_mode_flat_line (mode : string) : string :=
  jq "{'version':'v0','type':'set_mode','mode':'" ++ mode ++ jq "'}".

(** The acks main.cpp writes for a [set_mode] command: applied, and
    refused. *)
Definition mode_set_ack (mode : string) : string :=
  jq "{'version':'v0','type':'ack','payload':{'command':'set_mode','status':'ok','message':'Mode set to "
  ++ mode ++ jq "'}}" ++ String newline EmptyString.

Definition invalid_mode_ack (mode : string) : string :=
  jq "{'version':'v0','type':'ack','payload':{'command':'set_mode','status':'error','message':'Invalid mode value: "
  ++ mode ++ jq "'}}" ++ String newline EmptyString.

(** The request of the test [set_targets_negative_flow], as main.cpp
    reads it. *)
Definition set_targets_negative_flow_nested_line : string :=
  command_line "set_targets" (targets_payload (Some "42.5") (Some "-1.0")).

(** *** The place of a channel in the frame *)

(** Where the field of a channel stands in the frame, after the version
    (1 byte), the time stamp (8) and the mode (1): the index of its first
    byte, and the number of its bytes. *)
Definition channel_offset (c : channel) : nat :=
  match c with
  | TempVapourHead => 10
  | TempBoilerLiquid => 12
  | TempPcbEnvironment => 14
  | PressureAmbient => 16
  | PressureVapour => 18
  | Flow => 20
  | ValveReflux => 22
  | ValveProduct => 23
  | Heater1 => 24
  | Heater2 => 25
  end.

Definition channel_width (c : channel) : nat :=
  match c with
  | TempVapourHead | TempBoilerLiquid | TempPcbEnvironment
  | PressureAmbient | PressureVapour | Flow => 2
  | ValveReflux | ValveProduct | Heater1 | Heater2 => 1
  end.

Definition channel_bytes (c : channel) (frame : list Z) : list Z :=
  firstn (channel_width c) (skipn (channel_offset c) frame).

(** The bytes of the sentinels, least significant first: 0x7FFF, 0xFFFF
    and 0xFF. *)
Definition sentinel_bytes (c : channel) : list Z :=
  match c with
  | TempVapourHead | TempBoilerLiquid | TempPcbEnvironment
  | PressureAmbient | PressureVapour => [255; 127]%Z
  | Flow => [255; 255]%Z
  | ValveReflux | ValveProduct | Heater1 | Heater2 => [255]%Z
  end.

(** The values the integer type of a channel's field holds, for the
    channels whose reading is converted from a [float]. *)
Definition in_field_range (c : channel) (v : Z) : Prop :=
  match c with
  | TempVapourHead | TempBoilerLiquid | TempPcbEnvironment
  | PressureAmbient | PressureVapour =>
      (telemetry.INT16_MIN <= v <= telemetry.INT16_MAX)%Z
  | Flow => (0 <= v <= telemetry.UINT16_MAX)%Z
  | ValveReflux | ValveProduct | Heater1 | Heater2 => True
  end.

(** The [float] nearest to 327.67, and a state in which the vapour head
    sensor reads it, every other reading in its range. *)
Definition reading_327_67 : telemetry.float32 :=
  SFdiv telemetry.prec telemetry.emax
    (telemetry.f32_of_int 32767) (telemetry.f32_of_int 100).

Definition hot_state : telemetry.ProcessState :=
  {| telemetry.temp_vapour_head_degc := reading_327_67;
     telemetry.temp_boiler_liquid_degc := telemetry.f32_of_int 91;
     telemetry.temp_pcb_environment_degc := telemetry.f32_of_int 42;
     telemetry.pressure_ambient_kpa := telemetry.f32_of_int 101;
     telemetry.pressure_vapour_kpa := telemetry.f32_of_int 101;
     telemetry.flow_ml_min_reading := telemetry.f32_of_int 240;
     telemetry.valve_reflux_percent := 65;
     telemetry.valve_product_percent := 30;
     telemetry.heater_1_percent := 70;
     telemetry.heater_2_percent := 70;
     telemetry.fault_flags := 0 |}.

(** * Properties *)

(** ** Text *)

Lemma append_nil_r (s : string) : s ++ EmptyString = s.
Proof. induction s as [|c s IH]; simpl; [reflexivity | now rewrite IH]. Qed.

Lemma append_assoc (a b c : string) : (a ++ b) ++ c = a ++ b ++ c.
Proof. induction a as [|x a IH]; simpl; [reflexivity | now rewrite IH]. Qed.

Lemma length_append (a b : string) :
  String.length (a ++ b) = (String.length a + String.length b)%nat.
Proof. induction a as [|x a IH]; simpl; [reflexivity | now rewrite IH]. Qed.

Lemma length_drop_while p s :
  (String.length (drop_while p s) <= String.length s)%nat.
Proof.
  induction s as [|c s IH]; simpl; [lia|].
  destruct (p c); simpl; lia.
Qed.

Lemma length_drop n s : (String.length (drop n s) <= String.length s)%nat.
Proof.
  revert s; induction n as [|n IH]; intros [|c s]; simpl; try lia.
  specialize (IH s); lia.
Qed.

Lemma take_drop_while p s : take_while p s ++ drop_while p s = s.
Proof.
  induction s as [|c s IH]; simpl; [reflexivity|].
  destruct (p c); simpl; [now rewrite IH | reflexivity].
Qed.

Lemma starts_with_iff (n s : string) :
  starts_with n s = true <-> exists post, s = n ++ post.
Proof.
  revert s; induction n as [|c n IH]; intros s; simpl.
  - split; [intros _; now exists s | reflexivity].
  - destruct s as [|d s].
    + split; [discriminate | intros [post H]; discriminate].
    + rewrite andb_true_iff, IH, Ascii.eqb_eq.
      split.
      * intros [-> [post ->]]. now exists post.
      * intros [post H]. inversion H. eauto.
Qed.

Lemma find_str_some (n s r : string) :
  find_str n s = Some r -> exists pre post, s = pre ++ n ++ post.
Proof.
  revert r; induction s as [|c s IH]; intros r; simpl.
  - destruct (starts_with n EmptyString) eqn:E; [|discriminate].
    intros _. apply starts_with_iff in E as [post E]. now exists EmptyString, post.
  - destruct (starts_with n (String c s)) eqn:E.
    + intros _. apply starts_with_iff in E as [post E]. now exists EmptyString, post.
    + intros H. apply IH in H as (pre & post & ->).
      now exists (String c pre), post.
Qed.

Lemma find_str_none (n s : string) :
  find_str n s = None -> forall pre post, s <> pre ++ n ++ post.
Proof.
  induction s as [|c s IH]; simpl.
  - destruct (starts_with n EmptyString) eqn:E; [discriminate|].
    intros _ pre post H.
    destruct pre; simpl in H.
    + assert (starts_with n EmptyString = true) by (apply starts_with_iff; eauto).
      congruence.
    + discriminate.
  - destruct (starts_with n (String c s)) eqn:E; [discriminate|].
    intros Hn pre post H. destruct pre as [|d pre]; simpl in H.
    + assert (starts_with n (String c s) = true) by (apply starts_with_iff; eauto).
      congruence.
    + inversion H; subst. eapply IH; eauto.
Qed.

(** [containsb] decides [Contains]. *)
Lemma containsb_iff (n s : string) : containsb n s = true <-> Contains n s.
Proof.
  unfold containsb, Contains. destruct (find_str n s) eqn:E.
  - split; [intros _; eapply find_str_some; eauto | reflexivity].
  - split; [discriminate|]. intros (pre & post & H).
    exfalso. eapply find_str_none; eauto.
Qed.

(** ** minimal_json *)

Lemma set_find_same key value o :
  minimal_json.find key (minimal_json.set key value o) = Some value.
Proof.
  induction o as [|[k v] o IH]; simpl.
  - now rewrite String.eqb_refl.
  - destruct (String.compare key k) eqn:E; simpl.
    + now rewrite String.eqb_refl.
    + now rewrite String.eqb_refl.
    + destruct (String.eqb k key) eqn:Ek; [|exact IH].
      apply String.eqb_eq in Ek; subst.
      pose proof (String.compare_antisym key key) as Ha.
      rewrite E in Ha. discriminate.
Qed.

Lemma set_find_other key key' value o :
  key <> key' ->
  minimal_json.find key' (minimal_json.set key value o) = minimal_json.find key' o.
Proof.
  intros Hne. induction o as [|[k v] o IH]; simpl.
  - destruct (String.eqb key key') eqn:E; [|reflexivity].
    apply String.eqb_eq in E; congruence.
  - destruct (String.compare key k) eqn:E; simpl.
    + apply String.compare_eq_iff in E; subst k.
      destruct (String.eqb key key') eqn:E'; [|reflexivity].
      apply String.eqb_eq in E'; congruence.
    + destruct (String.eqb key key') eqn:E'; [|reflexivity].
      apply String.eqb_eq in E'; congruence.
    + now rewrite IH.
Qed.

Ltac shorter :=
  repeat first
    [ apply Nat.le_refl
    | eapply Nat.le_trans; [apply length_drop_while|]
    | eapply Nat.le_trans; [apply length_drop|] ].

Lemma parse_value_length key s obj :
  (String.length (snd (minimal_json.parse_value key s obj)) <= String.length s)%nat.
Proof.
  unfold minimal_json.parse_value.
  repeat match goal with |- context [if ?b then _ else _] => destruct b end;
    cbn [snd]; shorter.
Qed.

(** The loop of [parse] ends within as many rounds as the text has
    characters. *)
Lemma parse_members_fuel fuel s obj :
  (String.length s < fuel)%nat -> minimal_json.parse_members fuel s obj <> None.
Proof.
  revert s obj; induction fuel as [|fuel IH]; intros s obj Hlen; [lia|].
  simpl. pose proof (length_drop_while isspace s) as H1.
  destruct (drop_while isspace s) as [|c after_quote]; [discriminate|].
  destruct (Ascii.eqb c "}"); [discriminate|].
  destruct (negb (Ascii.eqb c dq)); [discriminate|].
  pose proof (length_drop_while minimal_json.not_quote after_quote) as H2.
  destruct (drop_while minimal_json.not_quote after_quote) as [|d after_key];
    [discriminate|].
  pose proof (length_drop_while minimal_json.space_or_colon after_key) as H3.
  pose proof (parse_value_length
                (take_while minimal_json.not_quote after_quote)
                (drop_while minimal_json.space_or_colon after_key) obj) as H4.
  destruct (minimal_json.parse_value _ _ obj) as [obj' rest].
  apply IH. simpl in *. lia.
Qed.

Lemma parse_fuel_enough line :
  minimal_json.parse_fuel (S (String.length line)) line <> None.
Proof.
  unfold minimal_json.parse_fuel.
  destruct (find_char "{" line) as [at_brace|] eqn:E; [|discriminate].
  apply parse_members_fuel.
  assert (String.length at_brace <= String.length line)%nat.
  { clear -E. revert E. induction line as [|c l IH]; simpl; [discriminate|].
    destruct (Ascii.eqb c "{"); intros H.
    - inversion H; subst; simpl; lia.
    - specialize (IH H); lia. }
  pose proof (length_drop 1 at_brace). lia.
Qed.

(** X1. [parse] ends on every text: it returns what the loop computes
    within as many rounds as the text has characters, an object or one of
    the exceptions of the source, never the filler of the fuel. *)
Lemma parse_total line :
  minimal_json.parse_fuel (S (String.length line)) line
  = Some (minimal_json.parse line).
Proof.
  unfold minimal_json.parse.
  pose proof (parse_fuel_enough line).
  destruct (minimal_json.parse_fuel _ line); congruence.
Qed.

(** ** IPCProtocol *)

Lemma create_ok_ack_text : controller.create_ok_ack = ok_ack_text.
Proof. reflexivity. Qed.

Lemma create_error_ack_text (m : string) :
  written_in_quotes m = true ->
  controller.create_error_ack m = error_ack_text m.
Proof.
  unfold written_in_quotes. intros H.
  apply andb_true_iff in H as [H1 H2]. apply negb_true_iff in H1.
  unfold controller.create_error_ack, error_ack_text, minimal_json.dump.
  cbn [minimal_json.set String.compare Ascii.compare minimal_json.dump_members].
  cbn -[minimal_json.dump_value append isdigit].
  unfold minimal_json.dump_value at 1. rewrite H1.
  destruct m as [|c r].
  - reflexivity.
  - apply negb_true_iff in H2. rewrite H2.
    cbn. rewrite !append_assoc. reflexivity.
Qed.

Section IPCProtocolFacts.

Variable stod : string -> option float.
Variables what_substr what_stod : string.

Local Notation process_message :=
  (controller.process_message stod what_substr what_stod).
Local Notation dispatch := (controller.dispatch stod).
Local Notation handle_set_targets := (controller.handle_set_targets stod).

Lemma has_find key msg v :
  minimal_json.find key msg = Some v -> minimal_json.has key msg = true.
Proof. unfold minimal_json.has. now intros ->. Qed.

Lemma getString_find key msg v :
  minimal_json.find key msg = Some v -> minimal_json.getString key msg = v.
Proof. unfold minimal_json.getString. now intros ->. Qed.

Lemma has_none key msg :
  minimal_json.find key msg = None -> minimal_json.has key msg = false.
Proof. unfold minimal_json.has. now intros ->. Qed.

(** [process_message] on a line that parses: the [try] body decides. *)
Lemma process_message_parsed line msg st :
  minimal_json.parse line = Ok msg ->
  process_message line st =
    match dispatch msg st with
    | (Ok response, st') => (response, st')
    | (Throw e, st') =>
        (controller.create_error_ack
           ("Error: " ++ controller.what what_substr what_stod e), st')
    end.
Proof.
  intros H. unfold controller.process_message, controller.bind, controller.lift.
  now rewrite H.
Qed.

(** [process_message] on a line that [parse] rejects. *)
Lemma process_message_unparsed line e st :
  minimal_json.parse line = Throw e ->
  process_message line st =
    (controller.create_error_ack
       ("Error: " ++ controller.what what_substr what_stod e), st).
Proof.
  intros H. unfold controller.process_message, controller.bind, controller.lift.
  now rewrite H.
Qed.

(** Routing: a [v0] message of a given type reaches its handler. *)
Lemma dispatch_routed msg type :
  minimal_json.find "version" msg = Some "v0" ->
  minimal_json.find "type" msg = Some type ->
  dispatch msg =
    if String.eqb type "get_telemetry" then controller.handle_get_telemetry msg
    else if String.eqb type "set_mode" then controller.handle_set_mode msg
    else if String.eqb type "set_targets" then handle_set_targets msg
    else controller.ret
           (controller.create_error_ack ("Unknown message type: " ++ type)).
Proof.
  intros Hv Ht. unfold controller.dispatch.
  rewrite (has_find _ _ _ Hv), (getString_find _ _ _ Hv).
  rewrite (has_find _ _ _ Ht), (getString_find _ _ _ Ht).
  reflexivity.
Qed.


(** What [handle_set_targets] does once both fields are there and
    [std::stod] has read them. *)
Lemma handle_set_targets_both msg st sa sf abv flow :
  minimal_json.find "target_abv" msg = Some sa ->
  minimal_json.find "target_flow" msg = Some sf ->
  stod sa = Some abv -> stod sf = Some flow ->
  handle_set_targets msg st =
    if negb (controller.abv_in_range abv) then
      (Ok (controller.create_error_ack "target_abv out of range (0-100)"), st)
    else if (flow <? 0)%float then
      (Ok (controller.create_error_ack "target_flow cannot be negative"), st)
    else
      (Ok controller.create_ok_ack,
       {| controller.mode := controller.mode st;
          controller.target_abv := abv; controller.target_flow := flow |}).
Proof.
  intros Ha Hf Hsa Hsf.
  unfold controller.handle_set_targets, controller.getNumber, controller.bind,
    controller.lift.
  rewrite (has_find _ _ _ Ha), (has_find _ _ _ Hf), Ha, Hf, Hsa, Hsf. cbn.
  destruct (controller.abv_in_range abv); cbn; [|reflexivity].
  destruct (flow <? 0)%float; reflexivity.
Qed.

Lemma handle_set_targets_no_abv msg st :
  minimal_json.find "target_abv" msg = None ->
  handle_set_targets msg st =
    (Ok (controller.create_error_ack "Missing 'target_abv' field"), st).
Proof.
  intros Ha. unfold controller.handle_set_targets.
  now rewrite (has_none _ _ Ha).
Qed.

Lemma handle_set_targets_no_flow msg st sa :
  minimal_json.find "target_abv" msg = Some sa ->
  minimal_json.find "target_flow" msg = None ->
  handle_set_targets msg st =
    (Ok (controller.create_error_ack "Missing 'target_flow' field"), st).
Proof.
  intros Ha Hf. unfold controller.handle_set_targets.
  now rewrite (has_find _ _ _ Ha), (has_none _ _ Hf).
Qed.

(** All or nothing: [handle_set_targets] either answers with the ok ack
    or leaves the state as it was. *)
Lemma handle_set_targets_all_or_nothing msg st r st' :
  handle_set_targets msg st = (r, st') ->
  r = Ok controller.create_ok_ack \/ st' = st.
Proof.
  unfold controller.handle_set_targets, controller.getNumber, controller.bind,
    controller.lift, controller.ret.
  repeat match goal with
         | |- context [if ?b then _ else _] => destruct b; cbn
         | |- context [match ?o with Some _ => _ | None => _ end] =>
             destruct o; cbn
         end; intros H; inversion H; auto.
Qed.

(** What [handle_set_mode] does with a [mode] member. *)
Lemma handle_set_mode_found msg st s :
  minimal_json.find "mode" msg = Some s ->
  controller.handle_set_mode msg st =
    if String.eqb s "IDLE" then
      (Ok controller.create_ok_ack,
       {| controller.mode := controller.IDLE;
          controller.target_abv := controller.target_abv st;
          controller.target_flow := controller.target_flow st |})
    else if String.eqb s "ACTIVE" then
      (Ok controller.create_ok_ack,
       {| controller.mode := controller.ACTIVE;
          controller.target_abv := controller.target_abv st;
          controller.target_flow := controller.target_flow st |})
    else (Ok (controller.create_error_ack ("Invalid mode: " ++ s)), st).
Proof.
  intros Hm. unfold controller.handle_set_mode.
  rewrite (has_find _ _ _ Hm), (getString_find _ _ _ Hm). cbn.
  destruct (String.eqb s "IDLE"); [reflexivity|].
  destruct (String.eqb s "ACTIVE"); reflexivity.
Qed.

End IPCProtocolFacts.

(** ** process_command (main.cpp) *)

Section ProcessCommandFacts.

Variable char_is_signed : bool.
Variable to_string_double : float -> string.
Variable stod : string -> option float.
Variable get_timestamp_ms : list app.event -> Z.

Local Notation process_command :=
  (app.process_command char_is_signed to_string_double stod get_timestamp_ms).
Local Notation ack_message := (app.ack_message char_is_signed).


End ProcessCommandFacts.

(** ** The envelope: serialize_message and parse_message *)

Lemma take_object_balanced b :
  balanced b ->
  forall n rest,
    json.take_object (S n) (b ++ rest) = b ++ json.take_object (S n) rest.
Proof.
  induction 1 as [|c s Ho Hc _ IH|s1 s2 _ IH1 _ IH2]; intros n rest.
  - reflexivity.
  - cbn [append json.take_object].
    apply Ascii.eqb_neq in Ho, Hc. rewrite Ho, Hc. now rewrite IH.
  - cbn [append json.take_object Ascii.eqb Bool.eqb].
    rewrite !append_assoc, IH1.
    cbn [append json.take_object Ascii.eqb Bool.eqb].
    now rewrite IH2.
Qed.

Lemma escape_json_string_append cis (a b : string) :
  json.escape_json_string cis (a ++ b)
  = json.escape_json_string cis a ++ json.escape_json_string cis b.
Proof.
  induction a as [|c a IH]; cbn [append json.escape_json_string];
    [reflexivity|]. now rewrite IH, append_assoc.
Qed.

Lemma serialize_message_text cis type payload :
  json.serialize_message cis type payload
  = jq "{'version':'v0','type':'" ++ json.escape_json_string cis type
    ++ jq "','payload':" ++ payload ++ String "}" (String newline EmptyString).
Proof.
  unfold json.serialize_message, json.quoted, json.key.
  cbn. rewrite !append_assoc. reflexivity.
Qed.

(** The three fields of a line whose head is known: [version] and [type]
    are found in the head, and [payload] is the value that starts after
    it. *)
Lemma envelope_version cis type rest :
  json.extract_json_field
    (jq "{'version':'v0','type':'" ++ json.escape_json_string cis type ++ rest)
    "version" = Some "v0".
Proof. reflexivity. Qed.

Lemma envelope_type cis type rest :
  type = "get_telemetry" \/ type = "set_mode" \/ type = "set_targets"
  \/ type = "telemetry" \/ type = "ack" ->
  json.extract_json_field
    (jq "{'version':'v0','type':'" ++ json.escape_json_string cis type
     ++ jq "','payload':" ++ rest)
    "type" = Some type.
Proof.
  intros [->|[->|[->|[->| ->]]]]; reflexivity.
Qed.

Lemma envelope_payload cis type rest :
  type = "get_telemetry" \/ type = "set_mode" \/ type = "set_targets"
  \/ type = "telemetry" \/ type = "ack" ->
  json.extract_json_field
    (jq "{'version':'v0','type':'" ++ json.escape_json_string cis type
     ++ jq "','payload':" ++ rest)
    "payload" = json.read_value (drop_while isspace rest).
Proof.
  intros [->|[->|[->|[->| ->]]]]; reflexivity.
Qed.

(** C4 as stated fails: a payload with a closing brace inside a string is
    a JSON object of plain ASCII, and decoding what encoding makes of it
    gives a payload cut at that brace. *)
Lemma roundtrip_fails_on_brace_in_string :
  json.parse_message
    (json.serialize_message true ipc.ACK (jq "{'message':'}'}"))
  = Some {| ipc.version := "v0"; ipc.type := "ack";
            ipc.payload_json := jq "{'message':'}" |} /\
  json.parse_message
    (json.serialize_message false ipc.ACK (jq "{'message':'}'}"))
  = Some {| ipc.version := "v0"; ipc.type := "ack";
            ipc.payload_json := jq "{'message':'}" |} /\
  jq "{'message':'}" <> jq "{'message':'}'}".
Proof.
  repeat split; try reflexivity. discriminate.
Qed.

(** C4, amended. For every message type of the protocol and every payload
    that is an object whose braces match as characters (none unmatched
    inside a string), decoding the line that encoding produces succeeds
    and gives back the version [v0], the type and the payload. *)
Theorem parse_serialize_roundtrip :
  forall (char_is_signed : bool) (type body : string),
    In type supported_types ->
    balanced body ->
    json.parse_message
      (json.serialize_message char_is_signed type ("{" ++ body ++ "}"))
    = Some {| ipc.version := "v0"; ipc.type := type;
              ipc.payload_json := "{" ++ body ++ "}" |}.
Proof.
  intros char_is_signed type body Hin Hb.
  assert (Hobj : forall rest,
             json.take_object 1 (body ++ String "}" rest) = body ++ "}").
  { intros rest. rewrite (take_object_balanced _ Hb).
    cbn. now destruct rest. }
  unfold supported_types in Hin. cbn [In] in Hin.
  rewrite serialize_message_text.
  unfold json.parse_message.
  destruct Hin as [<-|[<-|[<-|[<-|[<-|[]]]]]];
    rewrite envelope_version, envelope_type, envelope_payload by intuition;
    cbn [append json.read_value drop_while isspace Ascii.eqb Bool.eqb orb];
    rewrite !append_assoc; cbn [append]; rewrite Hobj; reflexivity.
Qed.

Lemma parse_serialize_roundtrip_witness :
  json.parse_message
    (json.serialize_message true "set_mode" (jq "{'mode':'IDLE'}"))
  = Some {| ipc.version := "v0"; ipc.type := "set_mode";
            ipc.payload_json := jq "{'mode':'IDLE'}" |}.
Proof.
  refine (parse_serialize_roundtrip true "set_mode" (jq "'mode':'IDLE'") _ _).
  - right; left; reflexivity.
  - repeat (apply balanced_char; [discriminate | discriminate |]).
    apply balanced_nil.
Defined.

(** ** Every line is answered with an ack *)




(** C5, at the failing input. The line of the test
    [missing_payload_field] has [version] and [type] and no [payload];
    [process_message] never looks for a payload and answers with the text
    it gives to an accepted request, which has no message and in which
    the word [payload] does not occur (first two conjuncts).
    [parse_message] of json_utils.hpp, the sibling decoder, does reject
    the same line (third). For the two other fields [process_message]
    does what the claim says: a line without [version], and one without
    [type], is answered with the message that names the missing field,
    and the state is left as it was (last two). *)
Theorem missing_payload_is_acknowledged_ok :
  forall (stod : string -> option float) (what_substr what_stod : string),
  controller.process_message stod what_substr what_stod
    get_telemetry_no_payload_line controller.initial_state
  = (ok_ack_text, controller.initial_state) /\
  containsb "payload" ok_ack_text = false /\
  json.parse_message get_telemetry_no_payload_line = None /\
  controller.process_message stod what_substr what_stod
    (jq "{'type':'get_telemetry'}") controller.initial_state
  = (error_ack_text "Missing 'version' field", controller.initial_state) /\
  controller.process_message stod what_substr what_stod
    (jq "{'version':'v0'}") controller.initial_state
  = (error_ack_text "Missing 'type' field", controller.initial_state).
Proof. intros. repeat split; reflexivity. Qed.

(** C6, at the failing input. On the line of the scenario,
    [minimal_json] stops at the brace of the empty payload with
    [Invalid JSON: expected key], and [process_message] answers with the
    text that carries this message, not with the ok ack the scenario and
    the test [valid_json_get_telemetry] expect; the text it gives to an
    accepted request is not the expected one either. main.cpp decodes the
    line and answers with the telemetry message itself; the expected text
    is what its ack writer gives for an ok ack of [get_telemetry]. *)
Theorem get_telemetry_scenario_gets_error_ack :
  forall (stod : string -> option float) (what_substr what_stod : string)
         (char_is_signed : bool) (to_string_double : float -> string)
         (get_timestamp_ms : list app.event -> Z),
  controller.process_message stod what_substr what_stod
    get_telemetry_line controller.initial_state
  = (error_ack_text "Error: Invalid JSON: expected key",
     controller.initial_state) /\
  error_ack_text "Error: Invalid JSON: expected key"
    <> get_telemetry_expected_ack /\
  ok_ack_text <> get_telemetry_expected_ack /\
  (exists msg,
      json.parse_message get_telemetry_line = Some msg /\
      app.process_command char_is_signed to_string_double stod
        get_timestamp_ms [] app.initial_state msg
      = ([app.Sent
            (json.create_telemetry_message char_is_signed to_string_double
               (app.get_telemetry (get_timestamp_ms []) app.initial_state))],
         app.initial_state)) /\
  app.ack_message char_is_signed "get_telemetry" "ok" None
  = get_telemetry_expected_ack ++ String newline EmptyString.
Proof.
  intros stod what_substr what_stod char_is_signed to_string_double
    get_timestamp_ms.
  split; [reflexivity|]. split; [discriminate|]. split; [discriminate|].
  split; [eexists; split; reflexivity | reflexivity].
Qed.

(** ** handle_client (main.cpp): a line that does not decode *)

Lemma find_char_append_here c (line rest : string) :
  find_char c line = None ->
  find_char c (line ++ String c rest) = Some (String c rest).
Proof.
  induction line as [|d line IH]; cbn [append find_char].
  - now rewrite Ascii.eqb_refl.
  - destruct (Ascii.eqb d c); [discriminate | exact IH].
Qed.

Lemma take_while_not_newline_append (line rest : string) :
  find_char newline line = None ->
  take_while app.not_newline (line ++ String newline rest) = line.
Proof.
  unfold app.not_newline.
  induction line as [|d line IH]; cbn [append find_char take_while].
  - now rewrite Ascii.eqb_refl.
  - destruct (Ascii.eqb d newline); [discriminate|].
    intros H. cbn [negb]. now rewrite IH.
Qed.

Lemma length_lines_text (lines : list string) (tail : string) :
  (List.length lines <= String.length (lines_text lines ++ tail))%nat.
Proof.
  induction lines as [|l r IH]; cbn [lines_text List.length]; [lia|].
  rewrite append_assoc, length_append. cbn [append String.length]. lia.
Qed.

Section HandleClientFacts.

Variable char_is_signed : bool.
Variable to_string_double : float -> string.
Variable stod : string -> option float.
Variable get_timestamp_ms : list app.event -> Z.

Local Notation process_command :=
  (app.process_command char_is_signed to_string_double stod get_timestamp_ms).
Local Notation process_lines :=
  (app.process_lines char_is_signed to_string_double stod get_timestamp_ms).
Local Notation read_loop :=
  (app.read_loop char_is_signed to_string_double stod get_timestamp_ms).
Local Notation processed :=
  (after_lines char_is_signed to_string_double stod get_timestamp_ms).

(** One round of the inner loop, on a buffer whose first line is known. *)
Lemma process_lines_step fuel history st (line rest : string) :
  find_char newline line = None ->
  process_lines (S fuel) history st (line ++ String newline rest) =
    match json.parse_message line with
    | Some msg =>
        let '(sent, st') := process_command history st msg in
        process_lines fuel (history ++ sent)%list st' rest
    | None => Some (app.Shut (history ++ [app.Closed_invalid_json])%list st)
    end.
Proof.
  intros Hl. cbn [app.process_lines].
  rewrite (find_char_append_here _ _ _ Hl).
  rewrite (take_while_not_newline_append _ _ Hl).
  reflexivity.
Qed.

(** The inner loop on lines that decode, followed by one that does not:
    the good lines are processed in order, then the connection is shut;
    what follows the bad line is not looked at. *)
Lemma process_lines_good_then_bad good :
  forall fuel history st (bad rest : string),
    (List.length good < fuel)%nat ->
    Forall (fun l => find_char newline l = None
                     /\ json.parse_message l <> None) good ->
    find_char newline bad = None ->
    json.parse_message bad = None ->
    process_lines fuel history st
      (lines_text good ++ bad ++ String newline rest)
    = Some (app.Shut
              (fst (processed good history st)
               ++ [app.Closed_invalid_json])%list
              (snd (processed good history st))).
Proof.
  induction good as [|l good IH]; intros fuel history st bad rest Hf Hg Hb Hp.
  - destruct fuel as [|fuel]; [cbn in Hf; lia|].
    cbn [lines_text append after_lines fst snd].
    rewrite (process_lines_step _ _ _ _ _ Hb), Hp. reflexivity.
  - destruct fuel as [|fuel]; [cbn in Hf; lia|].
    inversion Hg as [|? ? [Hl Hd] Hg']; subst.
    cbn [lines_text after_lines].
    rewrite append_assoc. cbn [append].
    rewrite (process_lines_step _ _ _ _ _ Hl).
    destruct (json.parse_message l) as [msg|]; [|congruence].
    destruct (process_command history st msg) as [sent st'].
    apply IH; auto. cbn in Hf. lia.
Qed.

End HandleClientFacts.

(** In [handle_client] of main.cpp, once a complete line that does not
    decode has arrived (here: with the chunk just read, after the complete
    lines [good], all of which decode), the reader processes the lines
    before it in order and then closes the connection: nothing is sent for
    the bad line (no ack at all, so at most one), and neither the rest of
    the buffer nor anything a later [recv] would deliver is processed. *)
Lemma read_loop_closes_on_undecodable_line :
  forall (char_is_signed : bool) (to_string_double : float -> string)
         (stod : string -> option float)
         (get_timestamp_ms : list app.event -> Z)
         (good : list string) (bad rest incomplete chunk : string)
         (later : list string) (history : list app.event)
         (st : app.ControllerState),
    app.running st = true ->
    incomplete ++ take_while app.not_nul chunk
      = lines_text good ++ bad ++ String newline rest ->
    Forall (fun l => find_char newline l = None
                     /\ json.parse_message l <> None) good ->
    find_char newline bad = None ->
    json.parse_message bad = None ->
    app.read_loop char_is_signed to_string_double stod get_timestamp_ms
      (chunk :: later) history st incomplete
    = ((fst (after_lines char_is_signed to_string_double stod
               get_timestamp_ms good history st)
        ++ [app.Closed_invalid_json])%list,
       snd (after_lines char_is_signed to_string_double stod
              get_timestamp_ms good history st)).
Proof.
  intros cis tsd stod clock good bad rest incomplete chunk later history st
    Hrun Hbuf Hgood Hbad Hparse.
  cbn [app.read_loop]. rewrite Hrun. cbn [negb].
  rewrite Hbuf.
  rewrite (process_lines_good_then_bad cis tsd stod clock good _ _ _ _ _);
    auto.
  pose proof (length_lines_text good (bad ++ String newline rest)). lia.
Qed.



(** One round of the inner loop of [IpcServer::handleClient]. *)
Lemma forward_lines_step fuel (line rest : string) :
  find_char newline line = None ->
  ipc_server.forward_lines (S fuel) (line ++ String newline rest) =
    match ipc_server.forward_lines fuel rest with
    | None => None
    | Some (calls, r) =>
        Some (match ipc_server.callback_argument line with
              | Some m => m :: calls
              | None => calls
              end, r)
    end.
Proof.
  intros Hl. cbn [ipc_server.forward_lines].
  rewrite (find_char_append_here _ _ _ Hl).
  change ipc_server.not_newline with app.not_newline.
  rewrite (take_while_not_newline_append _ _ Hl).
  reflexivity.
Qed.

(** The inner loop of [IpcServer::handleClient] hands every complete line
    to the callback and keeps the incomplete rest. *)
Lemma forward_lines_all lines :
  forall fuel (tail : string),
    (List.length lines < fuel)%nat ->
    Forall (fun l => find_char newline l = None) lines ->
    find_char newline tail = None ->
    ipc_server.forward_lines fuel (lines_text lines ++ tail)
    = Some (forwarded lines, tail).
Proof.
  induction lines as [|l lines IH]; intros fuel tail Hf Hl Ht.
  - destruct fuel as [|fuel]; [cbn in Hf; lia|].
    cbn [lines_text append ipc_server.forward_lines forwarded flat_map].
    now rewrite Ht.
  - destruct fuel as [|fuel]; [cbn in Hf; lia|].
    inversion Hl as [|? ? Hl1 Hl2]; subst.
    cbn [lines_text]. rewrite append_assoc. cbn [append].
    rewrite (forward_lines_step _ _ _ Hl1).
    rewrite IH; auto; [|cbn in Hf; lia].
    unfold forwarded. cbn [flat_map].
    destruct (ipc_server.callback_argument l); reflexivity.
Qed.

(** C7 as stated fails on [IpcServer::handleClient]: a line that neither
    decoder of the repository accepts is handed to the callback, the
    connection stays open, and the line after it is handed over too. *)
Lemma handleClient_keeps_reading_after_garbage :
  json.parse_message "garbage" = None /\
  minimal_json.parse "garbage"
    = Throw (runtime_error "Invalid JSON: missing opening brace") /\
  ipc_server.handleClient
    ["garbage" ++ String newline
       (get_telemetry_line ++ String newline EmptyString)]
    EmptyString
  = ["garbage"; get_telemetry_line].
Proof. repeat split; reflexivity. Qed.

(** C7, amended. In [handle_client] of main.cpp, once a complete line that
    does not decode has arrived (with the chunk just read, after the
    complete lines [good], all of which decode), the reader processes the
    lines before it in order and then closes the connection: nothing is
    sent for the bad line (no ack at all, so at most one), and neither the
    rest of the buffer nor anything a later [recv] would deliver is
    processed (first conjunct). [IpcServer::handleClient] decodes nothing:
    it hands every complete line that is not empty to the callback,
    whatever the line holds, and goes on reading (second conjunct). *)
Theorem handle_client_closes_on_undecodable_line :
  forall (char_is_signed : bool) (to_string_double : float -> string)
         (stod : string -> option float)
         (get_timestamp_ms : list app.event -> Z),
  (forall (good : list string) (bad rest incomplete chunk : string)
          (later : list string) (history : list app.event)
          (st : app.ControllerState),
      app.running st = true ->
      incomplete ++ take_while app.not_nul chunk
        = lines_text good ++ bad ++ String newline rest ->
      Forall (fun l => find_char newline l = None
                       /\ json.parse_message l <> None) good ->
      find_char newline bad = None ->
      json.parse_message bad = None ->
      app.read_loop char_is_signed to_string_double stod get_timestamp_ms
        (chunk :: later) history st incomplete
      = ((fst (after_lines char_is_signed to_string_double stod
                 get_timestamp_ms good history st)
          ++ [app.Closed_invalid_json])%list,
         snd (after_lines char_is_signed to_string_double stod
                get_timestamp_ms good history st)))
  /\
  (forall (lines : list string) (tail lineBuffer chunk : string)
          (later : list string),
      lineBuffer ++ take_while ipc_server.not_nul chunk
        = lines_text lines ++ tail ->
      Forall (fun l => find_char newline l = None) lines ->
      find_char newline tail = None ->
      ipc_server.handleClient (chunk :: later) lineBuffer
      = (forwarded lines ++ ipc_server.handleClient later tail)%list).
Proof.
  intros cis tsd stod clock. split.
  - intros good bad rest incomplete chunk later history st H1 H2 H3 H4 H5.
    now apply (read_loop_closes_on_undecodable_line cis tsd stod clock
                 good bad rest).
  - intros lines tail lineBuffer chunk later Hbuf Hl Ht.
    cbn [ipc_server.handleClient]. rewrite Hbuf.
    rewrite forward_lines_all; auto.
    pose proof (length_lines_text lines tail). lia.
Qed.

Lemma handle_client_closes_witness :
  app.read_loop true (fun _ => "0") stod_plain (fun _ => 0%Z)
    [jq "{'version':'v0','type':'set_mode','payload':{'mode':'ACTIVE'}}"
       ++ String newline ("garbage" ++ String newline
            (jq "{'version':'v0','type':'set_mode','payload':{'mode':'IDLE'}}"
               ++ String newline EmptyString));
     jq "{'version':'v0','type':'set_mode','payload':{'mode':'IDLE'}}"
       ++ String newline EmptyString]
    [] app.initial_state EmptyString
  = ([app.Sent (app.ack_message true "set_mode" "ok"
                  (Some "Mode set to ACTIVE"));
      app.Closed_invalid_json],
     {| app.running := true; app.mode := "ACTIVE";
        app.target_abv := 92%float; app.target_flow := 250%float |}).
Proof.
  refine (proj1 (handle_client_closes_on_undecodable_line true
                   (fun _ => "0") stod_plain (fun _ => 0%Z))
            [jq "{'version':'v0','type':'set_mode','payload':{'mode':'ACTIVE'}}"]
            "garbage"
            (jq "{'version':'v0','type':'set_mode','payload':{'mode':'IDLE'}}"
               ++ String newline EmptyString)
            EmptyString _ _ [] app.initial_state _ _ _ _ _).
  - reflexivity.
  - reflexivity.
  - constructor; [split; [reflexivity | discriminate] | constructor].
  - reflexivity.
  - reflexivity.
Defined.

(** The inner loop ends within as many rounds as the buffer has
    characters. *)
Lemma process_lines_fuel cis tsd stod clock fuel history st buffer :
  (String.length buffer < fuel)%nat ->
  app.process_lines cis tsd stod clock fuel history st buffer <> None.
Proof.
  revert history st buffer.
  induction fuel as [|fuel IH]; intros history st buffer Hlen; [lia|].
  cbn [app.process_lines].
  destruct (find_char newline buffer) as [at_newline|] eqn:E; [|discriminate].
  destruct (json.parse_message _) as [msg|]; [|discriminate].
  destruct (app.process_command _ _ _ _ _ _ msg) as [sent st'].
  apply IH.
  assert (String.length at_newline <= String.length buffer
          /\ 0 < String.length at_newline)%nat as [H1 H2].
  { clear -E. revert E. induction buffer as [|c b IHb]; cbn; [discriminate|].
    destruct (Ascii.eqb c newline); intros H.
    - inversion H; subst; cbn; lia.
    - specialize (IHb H); lia. }
  destruct at_newline as [|c r]; cbn in *; lia.
Qed.

(** ** IpcServer::send *)

Lemma attempts_clients sys_send msg clients calls :
  map fst (attempts sys_send msg clients calls) = clients.
Proof.
  revert calls; induction clients as [|c r IH]; intros calls; cbn;
    [reflexivity | now rewrite IH].
Qed.

Lemma send_pass_attempts sys_send msg clients :
  forall calls dead,
    ipc_server.send_pass sys_send msg clients calls dead
    = ((calls ++ send_calls msg (attempts sys_send msg clients calls))%list,
       (dead ++ failed (attempts sys_send msg clients calls))%list).
Proof.
  induction clients as [|c r IH]; intros calls dead.
  - cbn. now rewrite !app_nil_r.
  - cbn [ipc_server.send_pass attempts]. rewrite IH.
    unfold send_calls, failed. cbn [map filter fst snd].
    destruct (Z.eqb (sys_send calls c msg) ipc_server.SOCKET_ERROR_VALUE);
      cbn [map fst]; now rewrite <- !app_assoc.
Qed.

Lemma remove_dead_survivors dead :
  forall clients calls,
    ipc_server.remove_dead dead clients calls
    = (survivors dead clients,
       (calls ++ map ipc_server.Closesocket dead)%list).
Proof.
  induction dead as [|d r IH]; intros clients calls.
  - cbn. rewrite app_nil_r. f_equal.
    unfold survivors. cbn. induction clients as [|c cs IHc]; cbn;
      [reflexivity | now rewrite <- IHc].
  - cbn [ipc_server.remove_dead map]. rewrite IH.
    rewrite <- app_assoc. f_equal.
    unfold survivors, ipc_server.erase.
    induction clients as [|c cs IHc]; cbn; [reflexivity|].
    destruct (Z.eqb c d); cbn; [exact IHc | now rewrite IHc].
Qed.

(** C9. One pass of [IpcServer::send]: the message (with its newline) is
    written to every registered client, in order, whatever happened to the
    clients before it; the clients whose write returned the socket error
    are collected and, only after the last write, closed and erased from
    the list, so that the list after the pass holds exactly the clients
    that did not fail, in their order; with no client registered the pass
    makes no call and leaves the empty list. *)
Theorem send_offers_all_then_removes_dead :
  forall (sys_send : list ipc_server.syscall -> Z -> string -> Z)
         (message : string) (clients : list Z)
         (calls : list ipc_server.syscall),
    let msg := ipc_server.with_newline message in
    let tried := attempts sys_send msg clients calls in
    map fst tried = clients
    /\ ipc_server.send sys_send message clients calls
       = (survivors (failed tried) clients,
          (calls ++ send_calls msg tried
             ++ map ipc_server.Closesocket (failed tried))%list)
    /\ ipc_server.send sys_send message [] calls = ([], calls).
Proof.
  intros sys_send message clients calls msg tried.
  split; [apply attempts_clients|]. split.
  - unfold ipc_server.send. fold msg.
    rewrite send_pass_attempts. fold tried. cbn [app].
    rewrite remove_dead_survivors. now rewrite <- app_assoc.
  - reflexivity.
Qed.

(** ** The binary telemetry frame *)

Lemma length_le_bytes n z : List.length (telemetry.le_bytes n z) = n.
Proof.
  revert z; induction n as [|n IH]; intros z; cbn; [reflexivity|].
  now rewrite IH.
Qed.

Lemma frame_length m : List.length (telemetry.frame m) = 32%nat.
Proof.
  unfold telemetry.frame. rewrite !length_app, !length_le_bytes. reflexivity.
Qed.

Lemma cast_to_int_value lo hi x v :
  telemetry.cast_to_int lo hi x = Some v ->
  telemetry.truncate x = Some v /\ (lo <= v <= hi)%Z.
Proof.
  unfold telemetry.cast_to_int.
  destruct (telemetry.truncate x) as [w|]; [|discriminate].
  destruct ((lo <=? w)%Z && (w <=? hi)%Z) eqn:E; [|discriminate].
  intros H; inversion H; subst. split; [reflexivity|]. lia.
Qed.

Lemma cast_to_int_fits lo hi x v :
  telemetry.truncate x = Some v -> (lo <= v <= hi)%Z ->
  telemetry.cast_to_int lo hi x = Some v.
Proof.
  intros Ht Hr. unfold telemetry.cast_to_int. rewrite Ht.
  replace ((lo <=? v)%Z && (v <=? hi)%Z) with true; [reflexivity|].
  symmetry. apply andb_true_iff. split; apply Z.leb_le; lia.
Qed.

(** What [build_message] puts in the field of a channel. *)
Lemma build_message_field presence mode state now m c :
  telemetry.build_message presence mode state now = Some m ->
  if telemetry.present presence (presence_bit c)
  then scaled_reading c state = Some (frame_field c m)
  else frame_field c m = sentinel c.
Proof.
  unfold telemetry.build_message, telemetry.scaled_int16,
    telemetry.scaled_uint16, telemetry.percent_uint8.
  destruct (telemetry.present presence telemetry.SENSOR_TEMP_VAPOUR_HEAD) eqn:P0;
  destruct (telemetry.present presence telemetry.SENSOR_TEMP_BOILER_LIQUID) eqn:P1;
  destruct (telemetry.present presence telemetry.SENSOR_TEMP_PCB_ENVIRONMENT) eqn:P2;
  destruct (telemetry.present presence telemetry.SENSOR_PRESSURE_AMBIENT) eqn:P3;
  destruct (telemetry.present presence telemetry.SENSOR_PRESSURE_VAPOUR) eqn:P4;
  destruct (telemetry.present presence telemetry.SENSOR_FLOW) eqn:P5;
  repeat match goal with
         | |- context [telemetry.cast_to_int ?lo ?hi ?x] =>
             let E := fresh "E" in
             destruct (telemetry.cast_to_int lo hi x) eqn:E;
             [apply cast_to_int_value in E as [E _]|]
         end;
  intros H; inversion H; subst; clear H;
  destruct c; cbn [presence_bit frame_field sentinel scaled_reading
                   telemetry.valve_reflux_control telemetry.heater_1
                   telemetry.valve_product_takeoff telemetry.heater_2
                   telemetry.temp_vapour_head telemetry.temp_boiler_liquid
                   telemetry.temp_pcb_environment telemetry.pressure_ambient
                   telemetry.pressure_vapour telemetry.flow_ml_min];
  repeat match goal with
         | H : telemetry.present _ _ = _ |- _ => rewrite H
         end;
  try reflexivity; try assumption;
  match goal with
  | |- context [telemetry.present presence ?b] =>
      destruct (telemetry.present presence b)
  end; reflexivity.
Qed.

(** ** Further properties *)

(** X5. [handle_set_targets] is all or nothing on every message: it answers
    with the ok ack, or it leaves the state as it was (an error ack or an
    exception of [std::stod]). *)
Theorem handle_set_targets_atomic :
  forall (stod : string -> option float) (msg : minimal_json.JsonObject)
         (st : controller.ControllerState),
    fst (controller.handle_set_targets stod msg st)
      = Ok controller.create_ok_ack
    \/ snd (controller.handle_set_targets stod msg st) = st.
Proof.
  intros stod msg st.
  destruct (controller.handle_set_targets stod msg st) as [r st'] eqn:E.
  apply handle_set_targets_all_or_nothing in E. exact E.
Qed.

(** X16. The inner loop of [handle_client] ends on every buffer. *)
Theorem process_lines_terminates :
  forall (char_is_signed : bool) (to_string_double : float -> string)
         (stod : string -> option float)
         (get_timestamp_ms : list app.event -> Z)
         (history : list app.event) (st : app.ControllerState)
         (buffer : string),
  exists d,
    app.process_lines char_is_signed to_string_double stod get_timestamp_ms
      (S (String.length buffer)) history st buffer = Some d.
Proof.
  intros cis tsd stod clock history st buffer.
  pose proof (process_lines_fuel cis tsd stod clock
                (S (String.length buffer)) history st buffer
                (Nat.lt_succ_diag_r _)) as H.
  destruct (app.process_lines _ _ _ _ _ _ _ _) as [d|]; [eauto | congruence].
Qed.


(** The inner loop of [IpcServer::handleClient] ends on every buffer. *)
Lemma forward_lines_fuel fuel buffer :
  (String.length buffer < fuel)%nat ->
  ipc_server.forward_lines fuel buffer <> None.
Proof.
  revert buffer. induction fuel as [|fuel IH]; intros buffer Hlen; [lia|].
  cbn [ipc_server.forward_lines].
  destruct (find_char newline buffer) as [at_newline|] eqn:E; [|discriminate].
  assert (String.length (drop 1 at_newline) < fuel)%nat as Hfuel.
  { assert (String.length at_newline <= String.length buffer
            /\ 0 < String.length at_newline)%nat as [H1 H2].
    { clear -E. revert E. induction buffer as [|c b IHb]; cbn; [discriminate|].
      destruct (Ascii.eqb c newline); intros H.
      - inversion H; subst; cbn; lia.
      - specialize (IHb H); lia. }
    destruct at_newline as [|c r]; cbn in *; lia. }
  specialize (IH _ Hfuel).
  destruct (ipc_server.forward_lines fuel (drop 1 at_newline)) as [[calls r]|];
    [discriminate | congruence].
Qed.

(** [parse_message] looks for the quoted field names anywhere in the
    line: a line without a top-level [version] decodes when a member of
    that name stands inside its payload. *)
Lemma parse_message_finds_nested_version :
  json.parse_message
    (jq "{'type':'set_mode','payload':{'version':'v0','mode':'IDLE'}}")
  = Some {| ipc.version := "v0"; ipc.type := "set_mode";
            ipc.payload_json := jq "{'version':'v0','mode':'IDLE'}" |}.
Proof. reflexivity. Qed.

(** * Further properties of the code *)

(** ** minimal_json: the object *)

Lemma ascii_compare_refl (a : ascii) : Ascii.compare a a = Eq.
Proof. unfold Ascii.compare. apply N.compare_refl. Qed.

Lemma ascii_compare_lt_trans (a b c : ascii) :
  Ascii.compare a b = Lt -> Ascii.compare b c = Lt -> Ascii.compare a c = Lt.
Proof.
  unfold Ascii.compare. rewrite !N.compare_lt_iff. apply N.lt_trans.
Qed.

Lemma string_compare_lt_trans (a b c : string) :
  String.compare a b = Lt -> String.compare b c = Lt -> String.compare a c = Lt.
Proof.
  revert b c. induction a as [|x a IH]; intros [|y b] [|z c]; simpl;
    try congruence.
  destruct (Ascii.compare x y) eqn:Exy; try discriminate.
  - apply Ascii.compare_eq_iff in Exy; subst y.
    destruct (Ascii.compare x z); try congruence. apply IH.
  - intros _. destruct (Ascii.compare y z) eqn:Eyz; try discriminate.
    + apply Ascii.compare_eq_iff in Eyz; subst z. now rewrite Exy.
    + intros _. now rewrite (ascii_compare_lt_trans _ _ _ Exy Eyz).
Qed.

Lemma string_compare_gt_lt (a b : string) :
  String.compare a b = Gt -> String.compare b a = Lt.
Proof.
  intros H. rewrite String.compare_antisym, H. reflexivity.
Qed.

Lemma string_compare_lt_gt (a b : string) :
  String.compare a b = Lt -> String.compare b a = Gt.
Proof.
  intros H. rewrite String.compare_antisym, H. reflexivity.
Qed.

Lemma set_key_before k0 key value o :
  key_before k0 o -> String.compare k0 key = Lt ->
  key_before k0 (minimal_json.set key value o).
Proof.
  destruct o as [|[k v] r]; simpl; intros Hb Hlt; [exact Hlt|].
  destruct (String.compare key k); simpl; assumption.
Qed.

Lemma set_keys_increasing key value o :
  keys_increasing o -> keys_increasing (minimal_json.set key value o).
Proof.
  induction o as [|[k v] r IH]; simpl; [tauto|].
  intros [Hb Hr]. destruct (String.compare key k) eqn:E; simpl.
  - apply String.compare_eq_iff in E; subst k. tauto.
  - tauto.
  - split; [|tauto].
    apply set_key_before; [exact Hb | now apply string_compare_gt_lt].
Qed.

Lemma parse_value_keys_increasing key s obj :
  keys_increasing obj ->
  keys_increasing (fst (minimal_json.parse_value key s obj)).
Proof.
  intros H. unfold minimal_json.parse_value.
  repeat match goal with |- context [if ?b then _ else _] => destruct b end;
    cbn [fst]; try apply set_keys_increasing; exact H.
Qed.

Lemma parse_members_keys_increasing fuel s obj o :
  keys_increasing obj ->
  minimal_json.parse_members fuel s obj = Some (Ok o) -> keys_increasing o.
Proof.
  revert s obj.
  induction fuel as [|fuel IH]; intros s obj Hobj; [discriminate|].
  simpl. destruct (drop_while isspace s) as [|c after_quote].
  { intros H; inversion H; subst; exact Hobj. }
  destruct (Ascii.eqb c "}").
  { intros H; inversion H; subst; exact Hobj. }
  destruct (negb (Ascii.eqb c dq)); [discriminate|].
  destruct (drop_while minimal_json.not_quote after_quote) as [|d after_key];
    [discriminate|].
  pose proof (parse_value_keys_increasing
                (take_while minimal_json.not_quote after_quote)
                (drop_while minimal_json.space_or_colon after_key) obj Hobj)
    as Hv.
  destruct (minimal_json.parse_value _ _ obj) as [obj' rest]. cbn [fst] in Hv.
  now apply IH.
Qed.

(** What [parse] returns is what its loop computes with the fuel of the
    length of the text. *)
Lemma parse_by_fuel line r :
  minimal_json.parse line = r ->
  minimal_json.parse_fuel (S (String.length line)) line = Some r.
Proof.
  unfold minimal_json.parse. pose proof (parse_fuel_enough line) as H.
  destruct (minimal_json.parse_fuel _ line); [now intros -> | congruence].
Qed.

(** X2. Insert and lookup on a [JsonObject]: after [set key value],
    [find] gives the value at that key and, at every other key, what it
    gave before. *)
Theorem find_set :
  forall (key key' value : string) (o : minimal_json.JsonObject),
    minimal_json.find key' (minimal_json.set key value o)
    = if String.eqb key key' then Some value else minimal_json.find key' o.
Proof.
  intros key key' value o. destruct (String.eqb key key') eqn:E.
  - apply String.eqb_eq in E; subst. apply set_find_same.
  - apply String.eqb_neq in E. now apply set_find_other.
Qed.

(** X3. The object [parse] returns holds its keys in strictly increasing
    order, each key once as in the [std::map] of the source, and [set]
    keeps that order. *)
Theorem parse_keys_increasing :
  forall (line : string) (o : minimal_json.JsonObject),
    minimal_json.parse line = Ok o ->
    keys_increasing o
    /\ forall key value, keys_increasing (minimal_json.set key value o).
Proof.
  intros line o H.
  assert (keys_increasing o) as Ho.
  { pose proof (parse_by_fuel _ _ H) as Ht.
    unfold minimal_json.parse_fuel in Ht.
    destruct (find_char "{" line); [|discriminate].
    eapply parse_members_keys_increasing; [|exact Ht]. exact I. }
  split; [exact Ho | intros; now apply set_keys_increasing].
Qed.

Lemma parse_keys_increasing_witness :
  keys_increasing
    [("mode", "ACTIVE"); ("type", "set_mode"); ("version", "v0")].
Proof.
  exact (proj1 (parse_keys_increasing set_mode_active_line
                  [("mode", "ACTIVE"); ("type", "set_mode"); ("version", "v0")]
                  eq_refl)).
Defined.

(** *** dump and parse *)

Lemma take_while_append_stop p a c rest :
  string_forallb p a = true -> p c = false ->
  take_while p (a ++ String c rest) = a.
Proof.
  intros Ha Hc. induction a as [|x a IH]; simpl in *.
  - now rewrite Hc.
  - apply andb_prop in Ha as [Hx Ha]. rewrite Hx. now rewrite IH.
Qed.

Lemma drop_while_append_stop p a c rest :
  string_forallb p a = true -> p c = false ->
  drop_while p (a ++ String c rest) = String c rest.
Proof.
  intros Ha Hc. induction a as [|x a IH]; simpl in *.
  - now rewrite Hc.
  - apply andb_prop in Ha as [Hx Ha]. rewrite Hx. now apply IH.
Qed.

(** What follows a value in the text of [dump]: a comma and the next
    member, or the closing brace. *)
Lemma dump_members_tail r :
  exists c rest,
    minimal_json.dump_members false r ++ "}" = String c rest
    /\ (c = ","%char \/ c = "}"%char)
    /\ drop_while minimal_json.space_or_comma (String c rest)
       = minimal_json.dump_members true r ++ "}".
Proof.
  destruct r as [|[k v] r].
  - exists "}"%char, EmptyString. repeat split; auto.
  - eexists ","%char, _. split; [reflexivity|]. split; [now left|]. reflexivity.
Qed.

Lemma parse_value_dump key v obj c rest :
  plain_value v = true -> c = ","%char \/ c = "}"%char ->
  minimal_json.parse_value key (minimal_json.dump_value v ++ String c rest) obj
  = (minimal_json.set key v obj,
     drop_while minimal_json.space_or_comma (String c rest)).
Proof.
  intros Hv Hc.
  assert (minimal_json.number_char c = false) as Hnum
    by (destruct Hc; subst c; reflexivity).
  assert (minimal_json.not_quote dq = false) as Hdq by reflexivity.
  unfold plain_value in Hv. apply andb_prop in Hv as [Hq Hn].
  unfold minimal_json.dump_value.
  destruct (String.eqb v "true") eqn:Et.
  { apply String.eqb_eq in Et; subst v. reflexivity. }
  destruct (String.eqb v "false") eqn:Ef.
  { apply String.eqb_eq in Ef; subst v. reflexivity. }
  cbn [orb].
  assert (forall T, minimal_json.parse_value key
                      (String dq (v ++ String dq T)) obj
                    = (minimal_json.set key v obj,
                       drop_while minimal_json.space_or_comma T)) as Hquoted.
  { intros T. unfold minimal_json.parse_value.
    cbn [minimal_json.char_at_head drop].
    replace (Ascii.eqb dq dq) with true by reflexivity.
    cbv iota.
    rewrite (take_while_append_stop _ _ _ _ Hq Hdq).
    rewrite (drop_while_append_stop _ _ _ _ Hq Hdq). reflexivity. }
  destruct v as [|c0 v'].
  { exact (Hquoted (String c rest)). }
  destruct (isdigit c0 || Ascii.eqb c0 "-") eqn:Enum.
  - unfold minimal_json.parse_value.
    cbn [append minimal_json.char_at_head].
    assert (Ascii.eqb c0 dq = false) as Hc0.
    { cbn in Hq. apply andb_prop in Hq as [Hq _].
      unfold minimal_json.not_quote in Hq. now destruct (Ascii.eqb c0 dq). }
    rewrite Hc0, Enum.
    change (String c0 (v' ++ String c rest))
      with (String c0 v' ++ String c rest).
    rewrite (take_while_append_stop _ _ _ _ Hn Hnum).
    rewrite (drop_while_append_stop _ _ _ _ Hn Hnum). reflexivity.
  - change (String dq (String c0 v' ++ String dq EmptyString)
            ++ String c rest)
      with (String dq ((String c0 v' ++ String dq EmptyString)
                       ++ String c rest)).
    rewrite append_assoc. exact (Hquoted (String c rest)).
Qed.

Lemma parse_members_dump o :
  forall obj fuel,
    (length o < fuel)%nat -> forallb plain_member o = true ->
    minimal_json.parse_members fuel
      (minimal_json.dump_members true o ++ "}") obj
    = Some (Ok (fold_left store o obj)).
Proof.
  induction o as [|[k v] r IH]; intros obj fuel Hfuel Hplain.
  - destruct fuel; [simpl in Hfuel; lia|]. reflexivity.
  - destruct fuel as [|fuel]; [simpl in Hfuel; lia|].
    cbn [forallb] in Hplain. apply andb_prop in Hplain as [Hm Hr].
    unfold plain_member in Hm. cbn [fst snd] in Hm.
    apply andb_prop in Hm as [Hk Hv].
    destruct (dump_members_tail r) as (c & rest & HT & Hc & Hdrop).
    cbn [minimal_json.dump_members].
    replace ((EmptyString ++ String dq (k ++ String dq ":")
              ++ minimal_json.dump_value v
              ++ minimal_json.dump_members false r) ++ "}")
      with (String dq (k ++ String dq
              (String ":" (minimal_json.dump_value v ++ String c rest)))).
    2:{ rewrite <- HT. cbn [append]. f_equal.
        rewrite !append_assoc. cbn [append]. reflexivity. }
    cbn [minimal_json.parse_members drop_while].
    replace (isspace dq) with false by reflexivity.
    replace (Ascii.eqb dq "}") with false by reflexivity.
    replace (negb (Ascii.eqb dq dq)) with false by reflexivity.
    cbv iota.
    assert (minimal_json.not_quote dq = false) as Hdq by reflexivity.
    rewrite (take_while_append_stop _ _ _ _ Hk Hdq).
    rewrite (drop_while_append_stop _ _ _ _ Hk Hdq).
    assert (drop_while minimal_json.space_or_colon
              (String ":" (minimal_json.dump_value v ++ String c rest))
            = minimal_json.dump_value v ++ String c rest) as Hcolon.
    { cbn [drop_while]. replace (minimal_json.space_or_colon ":") with true
        by reflexivity. cbv iota.
      unfold minimal_json.dump_value.
      destruct (String.eqb v "true") eqn:Et.
      { apply String.eqb_eq in Et; subst v. reflexivity. }
      destruct (String.eqb v "false") eqn:Ef.
      { apply String.eqb_eq in Ef; subst v. reflexivity. }
      cbn [orb]. destruct v as [|c0 v']; [reflexivity|].
      destruct (isdigit c0 || Ascii.eqb c0 "-") eqn:Enum; [|reflexivity].
      cbn [append drop_while].
      assert (minimal_json.space_or_colon c0 = false) as ->; [|reflexivity].
      clear -Enum. unfold minimal_json.space_or_colon, isspace, isdigit in *.
      destruct c0 as [[] [] [] [] [] [] [] []]; cbn in *; congruence. }
    rewrite Hcolon. rewrite (parse_value_dump _ _ _ _ _ Hv Hc).
    rewrite Hdrop. apply IH; [simpl in Hfuel; lia | exact Hr].
Qed.

Lemma set_after_all k v acc :
  Forall (fun a => String.compare (fst a) k = Lt) acc ->
  minimal_json.set k v acc = (acc ++ [(k, v)])%list.
Proof.
  induction 1 as [|[k0 v0] acc Hlt _ IH]; [reflexivity|].
  cbn [fst] in Hlt. simpl. rewrite (string_compare_lt_gt _ _ Hlt).
  now rewrite IH.
Qed.

Lemma keys_increasing_above k v r :
  keys_increasing ((k, v) :: r) ->
  Forall (fun m => String.compare k (fst m) = Lt) r.
Proof.
  revert k v. induction r as [|[k1 v1] r IH]; intros k v H; [constructor|].
  destruct H as [Hlt Hr]. cbn in Hlt. constructor; [exact Hlt|].
  specialize (IH k1 v1 Hr).
  eapply Forall_impl; [|exact IH]. cbn. intros m Hm.
  eapply string_compare_lt_trans; eassumption.
Qed.

Lemma fold_store_increasing o :
  forall acc,
    keys_increasing o ->
    (forall a m, In a acc -> In m o -> String.compare (fst a) (fst m) = Lt) ->
    fold_left store o acc = (acc ++ o)%list.
Proof.
  induction o as [|[k v] r IH]; intros acc Ho Hacc.
  - simpl. now rewrite app_nil_r.
  - cbn [fold_left]. unfold store at 2. cbn [fst snd].
    rewrite set_after_all.
    2:{ apply Forall_forall. intros a Ha. apply (Hacc a (k, v) Ha). now left. }
    rewrite IH.
    + now rewrite <- app_assoc.
    + apply Ho.
    + intros a m Ha Hm. apply in_app_or in Ha as [Ha|[<-|[]]].
      * apply Hacc; [exact Ha | now right].
      * pose proof (keys_increasing_above _ _ _ Ho) as Hf.
        rewrite Forall_forall in Hf. now apply Hf.
Qed.

Lemma length_dump_members b o :
  (length o <= String.length (minimal_json.dump_members b o))%nat.
Proof.
  revert b. induction o as [|[k v] r IH]; intros b; simpl; [lia|].
  rewrite length_append. cbn [String.length]. rewrite !length_append.
  specialize (IH false). lia.
Qed.

(** X4. Round trip of [dump] and [parse]. An object whose keys are in
    increasing order and hold no double quote, and whose values hold none
    and, when they start with a digit or a minus sign (so that [dump]
    writes them bare), are made of digits, points and minus signs only, is
    read back from its own text as it was. *)
Theorem dump_parse_roundtrip :
  forall o : minimal_json.JsonObject,
    keys_increasing o -> forallb plain_member o = true ->
    minimal_json.parse (minimal_json.dump o) = Ok o.
Proof.
  intros o Hinc Hplain.
  pose proof (parse_by_fuel (minimal_json.dump o) _ eq_refl) as Ht.
  unfold minimal_json.parse_fuel, minimal_json.dump in Ht.
  cbn [append find_char] in Ht.
  replace (Ascii.eqb "{" "{") with true in Ht by reflexivity.
  cbn [drop] in Ht.
  rewrite parse_members_dump in Ht.
  - rewrite fold_store_increasing in Ht; [|exact Hinc|intros a m []].
    cbn [app] in Ht. unfold minimal_json.dump. cbn [append].
    now inversion Ht.
  - pose proof (length_dump_members true o).
    cbn [String.length]. rewrite length_append. lia.
  - exact Hplain.
Qed.

Lemma dump_parse_roundtrip_witness :
  minimal_json.parse
    (minimal_json.dump
       [("message", "Missing 'mode' field"); ("status", "error");
        ("target_abv", "42.5"); ("type", "ack"); ("version", "v0")])
  = Ok [("message", "Missing 'mode' field"); ("status", "error");
        ("target_abv", "42.5"); ("type", "ack"); ("version", "v0")].
Proof.
  apply dump_parse_roundtrip; [|reflexivity].
  cbn. repeat split; reflexivity.
Defined.

(** *** Booleans *)

(** X26. A boolean stored with [set] is the one [getBool] reads at that
    key, whatever the default; at every other key [getBool] gives what it
    gave before. *)
Theorem getBool_set_bool :
  forall (key key' : string) (value defaultValue : bool)
         (o : minimal_json.JsonObject),
    minimal_json.getBool key' defaultValue
      (minimal_json.set_bool key value o)
    = if String.eqb key key' then value
      else minimal_json.getBool key' defaultValue o.
Proof.
  intros key key' value d o.
  unfold minimal_json.getBool, minimal_json.set_bool.
  destruct (String.eqb key key') eqn:E.
  - apply String.eqb_eq in E; subst. rewrite set_find_same.
    now destruct value.
  - apply String.eqb_neq in E. now rewrite set_find_other.
Qed.

(** ** IPCProtocol: what a line does to the state *)

Ltac state_kept :=
  cbn [snd controller.ret controller.mode controller.target_abv
       controller.target_flow];
  split; [left; reflexivity | left; split; reflexivity].

Section DispatchFacts.

Variable stod : string -> option float.
Variables what_substr what_stod : string.

Local Notation process_message :=
  (controller.process_message stod what_substr what_stod).
Local Notation dispatch := (controller.dispatch stod).
Local Notation handle_set_targets := (controller.handle_set_targets stod).

(** What one message does to the state: the mode changes only by a
    [set_mode] that names it, the targets only by a [set_targets] whose
    two numbers [std::stod] read and whose flow is not below zero. *)
Lemma dispatch_effect msg st :
  (controller.mode (snd (dispatch msg st)) = controller.mode st
   \/ (minimal_json.find "type" msg = Some "set_mode"
       /\ ((minimal_json.find "mode" msg = Some "IDLE"
            /\ controller.mode (snd (dispatch msg st)) = controller.IDLE)
           \/ (minimal_json.find "mode" msg = Some "ACTIVE"
               /\ controller.mode (snd (dispatch msg st))
                  = controller.ACTIVE))))
  /\ ((controller.target_abv (snd (dispatch msg st)) = controller.target_abv st
       /\ controller.target_flow (snd (dispatch msg st))
          = controller.target_flow st)
      \/ (minimal_json.find "type" msg = Some "set_targets"
          /\ (exists sa, minimal_json.find "target_abv" msg = Some sa
                /\ stod sa
                   = Some (controller.target_abv (snd (dispatch msg st))))
          /\ (exists sf, minimal_json.find "target_flow" msg = Some sf
                /\ stod sf
                   = Some (controller.target_flow (snd (dispatch msg st))))
          /\ (controller.target_flow (snd (dispatch msg st)) <? 0)%float
             = false)).
Proof.
  unfold controller.dispatch, minimal_json.has, minimal_json.getString.
  destruct (minimal_json.find "version" msg) as [v|] eqn:Hv; cbn [negb];
    [|state_kept].
  destruct (String.eqb v "v0") eqn:Ev; cbn [negb]; [|state_kept].
  destruct (minimal_json.find "type" msg) as [t|] eqn:Ht; cbn [negb];
    [|state_kept].
  destruct (String.eqb t "get_telemetry"); [state_kept|].
  destruct (String.eqb t "set_mode") eqn:Em.
  { apply String.eqb_eq in Em; subst t.
    destruct (minimal_json.find "mode" msg) as [s|] eqn:Hm.
    - rewrite (handle_set_mode_found _ _ _ Hm).
      destruct (String.eqb s "IDLE") eqn:Ei.
      { apply String.eqb_eq in Ei; subst s.
        cbn [snd controller.mode controller.target_abv controller.target_flow].
        split; [right; split; [reflexivity|left; split; reflexivity]
               | left; split; reflexivity]. }
      destruct (String.eqb s "ACTIVE") eqn:Ea.
      { apply String.eqb_eq in Ea; subst s.
        cbn [snd controller.mode controller.target_abv controller.target_flow].
        split; [right; split; [reflexivity|right; split; reflexivity]
               | left; split; reflexivity]. }
      state_kept.
    - unfold controller.handle_set_mode, minimal_json.has. rewrite Hm.
      state_kept. }
  destruct (String.eqb t "set_targets") eqn:Et; [|state_kept].
  apply String.eqb_eq in Et; subst t.
  destruct (minimal_json.find "target_abv" msg) as [sa|] eqn:Ha.
  2:{ rewrite (handle_set_targets_no_abv _ _ _ Ha). state_kept. }
  destruct (minimal_json.find "target_flow" msg) as [sf|] eqn:Hf.
  2:{ rewrite (handle_set_targets_no_flow _ _ _ _ Ha Hf). state_kept. }
  destruct (stod sa) as [abv|] eqn:Hsa.
  2:{ unfold controller.handle_set_targets, controller.getNumber,
        controller.bind, controller.lift, minimal_json.has.
      rewrite Ha, Hf, Hsa. state_kept. }
  destruct (stod sf) as [flow|] eqn:Hsf.
  2:{ unfold controller.handle_set_targets, controller.getNumber,
        controller.bind, controller.lift, minimal_json.has.
      rewrite Ha, Hf, Hsa, Hsf. state_kept. }
  rewrite (handle_set_targets_both _ _ _ _ _ _ _ Ha Hf Hsa Hsf).
  destruct (controller.abv_in_range abv); cbn [negb]; [|state_kept].
  destruct (flow <? 0)%float eqn:En; [state_kept|].
  cbn [snd controller.mode controller.target_abv controller.target_flow].
  split; [left; reflexivity|]. right. eauto 10.
Qed.

Lemma process_message_state line st :
  snd (process_message line st)
  = match minimal_json.parse line with
    | Ok msg => snd (dispatch msg st)
    | Throw _ => st
    end.
Proof.
  destruct (minimal_json.parse line) as [msg|e] eqn:Hp.
  - rewrite (process_message_parsed _ _ _ _ _ _ Hp).
    now destruct (dispatch msg st) as [[r|e] st'].
  - now rewrite (process_message_unparsed _ _ _ _ _ _ Hp).
Qed.

Lemma process_message_flow line st :
  (controller.target_flow st <? 0)%float = false ->
  (controller.target_flow (snd (process_message line st)) <? 0)%float = false.
Proof.
  intros H. rewrite process_message_state.
  destruct (minimal_json.parse line) as [msg|e]; [|exact H].
  destruct (dispatch_effect msg st) as (_ & [[_ ->]|(_ & _ & _ & Hn)]);
    assumption.
Qed.

End DispatchFacts.

(** X7. What one line does to the state of [IPCProtocol]: the mode
    changes only when the line parses to a [set_mode] message, and then to
    the mode its [mode] member names; the targets change only when the
    line parses to a [set_targets] message, and then to the numbers
    [std::stod] reads from its two members. *)
Theorem process_message_frame :
  forall (stod : string -> option float) (what_substr what_stod : string)
         (line : string) (st : controller.ControllerState),
    let st' :=
      snd (controller.process_message stod what_substr what_stod line st) in
    (controller.mode st' = controller.mode st
     \/ exists msg,
          minimal_json.parse line = Ok msg
          /\ minimal_json.find "type" msg = Some "set_mode"
          /\ ((minimal_json.find "mode" msg = Some "IDLE"
               /\ controller.mode st' = controller.IDLE)
              \/ (minimal_json.find "mode" msg = Some "ACTIVE"
                  /\ controller.mode st' = controller.ACTIVE)))
    /\ ((controller.target_abv st' = controller.target_abv st
         /\ controller.target_flow st' = controller.target_flow st)
        \/ exists msg sa sf,
             minimal_json.parse line = Ok msg
             /\ minimal_json.find "type" msg = Some "set_targets"
             /\ minimal_json.find "target_abv" msg = Some sa
             /\ minimal_json.find "target_flow" msg = Some sf
             /\ stod sa = Some (controller.target_abv st')
             /\ stod sf = Some (controller.target_flow st')).
Proof.
  intros stod ws wd line st st'. subst st'.
  rewrite process_message_state.
  destruct (minimal_json.parse line) as [msg|e];
    [|split; [left; reflexivity | left; split; reflexivity]].
  destruct (dispatch_effect stod msg st) as (Hm & Ht). split.
  - destruct Hm as [Hm|Hm]; [now left | right; exists msg; tauto].
  - destruct Ht as [Ht|(Hty & (sa & Ha & Hsa) & (sf & Hf & Hsf) & _)];
      [now left|].
    right. exists msg, sa, sf. tauto.
Qed.

(** X8. Whatever lines [process_message] is given, in any number, the
    stored [target_flow] never becomes a number below zero. *)
Theorem target_flow_never_negative :
  forall (stod : string -> option float) (what_substr what_stod : string)
         (lines : list string) (st : controller.ControllerState),
    (controller.target_flow st <? 0)%float = false ->
    (controller.target_flow (state_after stod what_substr what_stod lines st)
     <? 0)%float = false.
Proof.
  intros stod ws wd lines. induction lines as [|l r IH]; intros st H.
  - exact H.
  - cbn [state_after]. apply IH. now apply process_message_flow.
Qed.

Lemma target_flow_never_negative_witness :
  (controller.target_flow
     (state_after stod_plain "substr" "stod"
        [set_targets_both_line; set_targets_negative_flow_line]
        controller.initial_state)
   <? 0)%float = false.
Proof.
  apply target_flow_never_negative. reflexivity.
Defined.

(** X9. A line that parses, with a version other than [v0]: the answer
    is the ack text with the message [Unknown version:] and the version,
    whatever the type; with the version [v0] and a type that is none of
    the three commands: the ack text with the message
    [Unknown message type:] and the type. The state is left as it was. *)
Theorem unknown_version_or_type_rejected :
  forall (stod : string -> option float) (what_substr what_stod : string)
         (line : string) (msg : minimal_json.JsonObject)
         (st : controller.ControllerState) (version : string),
    minimal_json.parse line = Ok msg ->
    minimal_json.find "version" msg = Some version ->
    (version <> "v0" ->
     controller.process_message stod what_substr what_stod line st
     = (error_ack_text ("Unknown version: " ++ version), st))
    /\ (version = "v0" ->
        forall type,
          minimal_json.find "type" msg = Some type ->
          type <> "get_telemetry" -> type <> "set_mode" ->
          type <> "set_targets" ->
          controller.process_message stod what_substr what_stod line st
          = (error_ack_text ("Unknown message type: " ++ type), st)).
Proof.
  intros stod ws wd line msg st version Hp Hv. split.
  - intros Hne. rewrite (process_message_parsed _ _ _ _ _ _ Hp).
    unfold controller.dispatch.
    rewrite (has_find _ _ _ Hv), (getString_find _ _ _ Hv).
    apply String.eqb_neq in Hne. rewrite Hne. cbn [negb controller.ret].
    now rewrite create_error_ack_text.
  - intros -> type Ht H1 H2 H3.
    rewrite (process_message_parsed _ _ _ _ _ _ Hp).
    rewrite (dispatch_routed _ _ _ Hv Ht).
    apply String.eqb_neq in H1, H2, H3. rewrite H1, H2, H3.
    cbn [controller.ret]. now rewrite create_error_ack_text.
Qed.

Lemma unknown_version_rejected_witness :
  controller.process_message stod_plain "substr" "stod" version_v1_line
    controller.initial_state
  = (error_ack_text "Unknown version: v1", controller.initial_state).
Proof.
  refine (proj1 (unknown_version_or_type_rejected stod_plain "substr" "stod"
                   version_v1_line
                   [("type", "get_telemetry"); ("version", "v1")]
                   controller.initial_state "v1" eq_refl eq_refl) _).
  discriminate.
Defined.

(** *** Lines that throw *)

Lemma parse_without_brace line :
  find_char "{" line = None ->
  minimal_json.parse line
  = Throw (runtime_error "Invalid JSON: missing opening brace").
Proof.
  intros H. unfold minimal_json.parse, minimal_json.parse_fuel.
  now rewrite H.
Qed.

(** X27. A line without an opening brace, the empty line included, is
    answered with the ack text whose message is the text of the exception
    [parse] throws; the state is left as it was. *)
Theorem line_without_brace_rejected :
  forall (stod : string -> option float) (what_substr what_stod : string)
         (line : string) (st : controller.ControllerState),
    find_char "{" line = None ->
    controller.process_message stod what_substr what_stod line st
    = (error_ack_text "Error: Invalid JSON: missing opening brace", st).
Proof.
  intros stod ws wd line st H.
  rewrite (process_message_unparsed _ _ _ _ _ _ (parse_without_brace _ H)).
  cbn [controller.what]. now rewrite create_error_ack_text.
Qed.

Lemma line_without_brace_rejected_witness :
  controller.process_message stod_plain "substr" "stod" EmptyString
    controller.initial_state
  = (error_ack_text "Error: Invalid JSON: missing opening brace",
     controller.initial_state).
Proof. apply line_without_brace_rejected. reflexivity. Defined.

(** X28. A [set_targets] message with both fields, one of which
    [std::stod] does not read: the exception is answered with the ack
    text whose message is [Error: ] and its [what()] text, and neither
    target is stored, also when the other field is a valid number. *)
Theorem set_targets_unreadable_number :
  forall (stod : string -> option float) (what_substr what_stod : string)
         (line : string) (msg : minimal_json.JsonObject)
         (st : controller.ControllerState) (sa sf : string),
    minimal_json.parse line = Ok msg ->
    minimal_json.find "version" msg = Some "v0" ->
    minimal_json.find "type" msg = Some "set_targets" ->
    minimal_json.find "target_abv" msg = Some sa ->
    minimal_json.find "target_flow" msg = Some sf ->
    stod sa = None \/ stod sf = None ->
    controller.process_message stod what_substr what_stod line st
    = (error_ack_text ("Error: " ++ what_stod), st).
Proof.
  intros stod ws wd line msg st sa sf Hp Hv Ht Ha Hf Hbad.
  rewrite <- (create_error_ack_text ("Error: " ++ wd) eq_refl).
  rewrite (process_message_parsed _ _ _ _ _ _ Hp).
  rewrite (dispatch_routed _ _ _ Hv Ht). cbn [String.eqb Ascii.eqb Bool.eqb].
  unfold controller.handle_set_targets, controller.getNumber, controller.bind,
    controller.lift, minimal_json.has.
  rewrite Ha, Hf. cbn [negb].
  destruct (stod sa) as [abv|]; [|reflexivity].
  destruct Hbad as [Hbad|Hbad]; [discriminate|].
  rewrite Hbad. reflexivity.
Qed.

Lemma set_targets_unreadable_number_witness :
  controller.process_message stod_plain "substr" "stod"
    set_targets_unreadable_flow_line
    controller.initial_state
  = (error_ack_text "Error: stod", controller.initial_state).
Proof.
  apply (set_targets_unreadable_number stod_plain "substr" "stod" _
           [("target_abv", "50"); ("target_flow", "fast");
            ("type", "set_targets"); ("version", "v0")]
           controller.initial_state "50" "fast");
    try reflexivity.
  right. reflexivity.
Defined.

(** ** json_utils.hpp: escaping and the envelope *)

Ltac each_char c :=
  destruct c as [[] [] [] [] [] [] [] []].

Lemma escape_char_no_control cis c :
  string_forallb (fun x => negb (control_char x)) (json.escape_char cis c)
  = true.
Proof. destruct cis; each_char c; vm_compute; reflexivity. Qed.

Lemma string_forallb_append p a b :
  string_forallb p (a ++ b) = string_forallb p a && string_forallb p b.
Proof.
  induction a as [|c a IH]; simpl; [reflexivity|]. now rewrite IH, andb_assoc.
Qed.

(** X10. The text [escape_json_string] returns holds no control
    character (none below 0x20, so no raw newline, tab or NUL), whatever
    the input and whether plain [char] is signed or not. *)
Theorem escape_json_string_no_control :
  forall (char_is_signed : bool) (input : string),
    string_forallb (fun c => negb (control_char c))
      (json.escape_json_string char_is_signed input) = true.
Proof.
  intros cis input. induction input as [|c r IH]; [reflexivity|].
  cbn [json.escape_json_string].
  now rewrite string_forallb_append, escape_char_no_control, IH.
Qed.

Lemma escape_char_plain cis c :
  plain_char c = true -> json.escape_char cis c = String c EmptyString.
Proof. destruct cis; each_char c; vm_compute; congruence. Qed.

(** X11. [escape_json_string] leaves a text of printable 7-bit ASCII
    without double quote and backslash as it is. *)
Theorem escape_json_string_plain :
  forall (char_is_signed : bool) (input : string),
    string_forallb plain_char input = true ->
    json.escape_json_string char_is_signed input = input.
Proof.
  intros cis input. induction input as [|c r IH]; [reflexivity|].
  cbn [string_forallb json.escape_json_string]. intros H.
  apply andb_prop in H as [Hc Hr].
  now rewrite (escape_char_plain _ _ Hc), IH.
Qed.

Lemma escape_json_string_plain_witness :
  json.escape_json_string true "Unknown command type: set_flow"
  = "Unknown command type: set_flow".
Proof. apply escape_json_string_plain. reflexivity. Defined.

(** The scan of [extract_json_field] over one escaped character. *)
Lemma scan_escape_char cis c run T :
  Nat.even run = true ->
  json.scan_string run (json.escape_char cis c ++ T)
  = option_map (append (json.escape_char cis c))
      (json.scan_string (if Ascii.eqb c backslash then S (S run) else 0) T).
Proof.
  intros Hrun.
  assert (Nat.even (S run) = false) as Hodd.
  { rewrite Nat.even_succ, <- Nat.negb_even, Hrun. reflexivity. }
  destruct cis; each_char c;
    match goal with
    | |- context [json.escape_char ?b ?x] =>
        let e := eval vm_compute in (json.escape_char b x) in
        change (json.escape_char b x) with e
    end;
    cbn [append json.scan_string Ascii.eqb Bool.eqb dq backslash];
    rewrite ?Hodd;
    match goal with
    | |- context [json.scan_string ?r T] => destruct (json.scan_string r T)
    end; reflexivity.
Qed.

Lemma scan_string_escaped cis s :
  forall run rest,
    Nat.even run = true ->
    json.scan_string run (json.escape_json_string cis s ++ String dq rest)
    = Some (json.escape_json_string cis s).
Proof.
  induction s as [|c r IH]; intros run rest Hrun.
  - cbn. now rewrite Hrun.
  - cbn [json.escape_json_string]. rewrite append_assoc.
    rewrite (scan_escape_char _ _ _ _ Hrun).
    rewrite IH; [reflexivity|]. now destruct (Ascii.eqb c backslash).
Qed.

(** *** Reading back what serialize_message writes *)

Lemma escape_char_shape cis c :
  exists x e,
    json.escape_char cis c = String x e
    /\ Ascii.eqb dq x = false
    /\ (x = backslash \/ (e = EmptyString /\ x = c)).
Proof.
  destruct cis; each_char c;
    match goal with
    | |- context [json.escape_char ?b ?x] =>
        let e := eval vm_compute in (json.escape_char b x) in
        change (json.escape_char b x) with e
    end;
    (eexists _, _; split; [reflexivity|]; split; [reflexivity|];
     first [ left; reflexivity | right; split; reflexivity ]).
Qed.

Lemma escape_char_not_dq cis c :
  Ascii.eqb c dq = false ->
  string_forallb not_dq (json.escape_char cis c) = true.
Proof. destruct cis; each_char c; vm_compute; congruence. Qed.

Lemma find_str_skip n a Y :
  string_forallb not_dq a = true ->
  find_str (String dq n) (a ++ Y) = find_str (String dq n) Y.
Proof.
  intros Ha. induction a as [|c a IH]; [reflexivity|].
  cbn [string_forallb] in Ha. apply andb_prop in Ha as [Hc Ha].
  cbn [append find_str starts_with].
  unfold not_dq in Hc. rewrite Ascii.eqb_sym in Hc.
  destruct (Ascii.eqb dq c); [discriminate|]. cbn [andb]. now apply IH.
Qed.

(** Text that starts with a word free of quotes and backslashes and then
    a quote: when the text is escaped text followed by a quote, the
    escaped text is that word. *)
Lemma starts_with_escaped cis w :
  forall s T,
    string_forallb plain_char w = true ->
    starts_with (w ++ String dq EmptyString)
      (json.escape_json_string cis s ++ String dq T) = true ->
    json.escape_json_string cis s = w.
Proof.
  induction w as [|y w IH]; intros s T Hw H.
  - destruct s as [|c r]; [reflexivity|]. exfalso.
    cbn [json.escape_json_string] in H.
    destruct (escape_char_shape cis c) as (x & e & Hc & Hx & _).
    rewrite Hc in H.
    cbn [append starts_with] in H. rewrite Hx in H. discriminate.
  - cbn [string_forallb] in Hw. apply andb_prop in Hw as [Hy Hw].
    assert (Ascii.eqb y dq = false /\ y <> backslash) as [Hyq Hyb].
    { clear -Hy. each_char y; vm_compute in Hy; split;
        first [ reflexivity | discriminate ]. }
    destruct s as [|c r].
    + cbn [json.escape_json_string append starts_with] in H.
      rewrite Hyq in H. discriminate.
    + cbn [json.escape_json_string] in *.
      destruct (escape_char_shape cis c) as (x & e & Hc & _ & Hshape).
      rewrite Hc in *. cbn [append starts_with] in H.
      apply andb_prop in H as [Hyx H]. apply Ascii.eqb_eq in Hyx; subst x.
      destruct Hshape as [->|[-> _]]; [congruence|].
      cbn [append] in *. f_equal. now apply (IH r T).
Qed.

(** The search for the quoted name [payload] from the opening quote of
    the type on. The name is found either in the envelope, or, when the
    escaped type is the word [payload] itself or ends in an escaped quote
    and that word, at that quote; in each case the next colon is the one
    that precedes the payload. *)
Lemma payload_found_at_quote cis R s :
  finds_payload R
    (json.escape_json_string cis s ++ String dq (jq ",'payload':" ++ R)) ->
  finds_payload R
    (String dq (json.escape_json_string cis s
                ++ String dq (jq ",'payload':" ++ R))).
Proof.
  intros IH. unfold finds_payload. cbn [find_str].
  destruct (starts_with (jq "'payload'")
              (String dq (json.escape_json_string cis s
                          ++ String dq (jq ",'payload':" ++ R)))) eqn:E;
    [|exact IH].
  eexists. split; [reflexivity|].
  change (jq "'payload'") with (String dq ("payload" ++ String dq EmptyString))
    in E.
  cbn [starts_with] in E. rewrite Ascii.eqb_refl, andb_true_l in E.
  apply (starts_with_escaped cis "payload" s) in E; [|reflexivity].
  rewrite E. reflexivity.
Qed.

Lemma payload_found cis R s :
  finds_payload R
    (json.escape_json_string cis s ++ String dq (jq ",'payload':" ++ R)).
Proof.
  induction s as [|c r IH].
  - eexists. split; reflexivity.
  - cbn [json.escape_json_string]. rewrite append_assoc.
    destruct (Ascii.eqb c dq) eqn:Ec.
    + apply Ascii.eqb_eq in Ec; subst c.
      replace (json.escape_char cis dq)
        with (String backslash (String dq EmptyString))
        by (now destruct cis).
      destruct (payload_found_at_quote cis R r IH) as (at_field & Hf & Hc).
      exists at_field. split; [|exact Hc].
      cbn [append]. exact Hf.
    + destruct IH as (at_field & Hf & Hc).
      exists at_field. split; [|exact Hc].
      change (jq "'payload'")
        with (String dq ("payload" ++ String dq EmptyString)).
      rewrite find_str_skip; [exact Hf|].
      now apply escape_char_not_dq.
Qed.

Lemma envelope_type_escaped cis type rest :
  json.extract_json_field
    (jq "{'version':'v0','type':'" ++ json.escape_json_string cis type
     ++ jq "','payload':" ++ rest)
    "type" = Some (json.escape_json_string cis type).
Proof.
  unfold json.extract_json_field.
  change (find_str _ _)
    with (Some (jq "'type':'" ++ json.escape_json_string cis type
                ++ String dq (jq ",'payload':" ++ rest))).
  cbv iota.
  change (find_char ":" _)
    with (Some (String ":" (String dq (json.escape_json_string cis type
                  ++ String dq (jq ",'payload':" ++ rest))))).
  cbv iota. cbn [drop drop_while isspace Ascii.eqb Bool.eqb orb dq].
  cbn [json.read_value Ascii.eqb Bool.eqb dq].
  now apply scan_string_escaped.
Qed.

Lemma envelope_payload_escaped cis type rest :
  json.extract_json_field
    (jq "{'version':'v0','type':'" ++ json.escape_json_string cis type
     ++ jq "','payload':" ++ rest)
    "payload" = json.read_value (drop_while isspace rest).
Proof.
  unfold json.extract_json_field.
  destruct (payload_found_at_quote cis rest type (payload_found cis rest type))
    as (at_field & Hf & Hc).
  change (find_str _ _)
    with (find_str (jq "'payload'")
            (String dq (json.escape_json_string cis type
                        ++ String dq (jq ",'payload':" ++ rest)))).
  rewrite Hf, Hc. reflexivity.
Qed.

(** X12. Decoding what [serialize_message] writes, for every type text
    and every payload that is an object whose braces match as characters:
    [parse_message] succeeds and gives the version [v0], the payload as it
    was, and the type in its escaped form: [extract_json_field] stops at
    the first quote that is not escaped and does not undo the escapes. *)
Theorem parse_message_of_serialized :
  forall (char_is_signed : bool) (type body : string),
    balanced body ->
    json.parse_message
      (json.serialize_message char_is_signed type ("{" ++ body ++ "}"))
    = Some {| ipc.version := "v0";
              ipc.type := json.escape_json_string char_is_signed type;
              ipc.payload_json := "{" ++ body ++ "}" |}.
Proof.
  intros cis type body Hb.
  rewrite serialize_message_text. unfold json.parse_message.
  rewrite envelope_version, envelope_payload_escaped, envelope_type_escaped.
  cbn [append json.read_value drop_while isspace Ascii.eqb Bool.eqb orb].
  rewrite !append_assoc. cbn [append].
  rewrite (take_object_balanced _ Hb). cbn. reflexivity.
Qed.

Lemma parse_message_of_serialized_witness :
  json.parse_message
    (json.serialize_message true (jq "say 'payload'") (jq "{'x':1}"))
  = Some {| ipc.version := "v0";
            ipc.type := json.escape_json_string true (jq "say 'payload'");
            ipc.payload_json := jq "{'x':1}" |}.
Proof.
  refine (parse_message_of_serialized true (jq "say 'payload'") (jq "'x':1") _).
  repeat (apply balanced_char; [discriminate | discriminate |]).
  apply balanced_nil.
Defined.

(** *** One ack, one line *)

Lemma find_char_none_forallb c s :
  find_char c s = None
  <-> string_forallb (fun d => negb (Ascii.eqb d c)) s = true.
Proof.
  induction s as [|d s IH]; cbn [find_char string_forallb]; [tauto|].
  destruct (Ascii.eqb d c); cbn [negb andb]; [split; discriminate | exact IH].
Qed.

Lemma string_forallb_weaken (p q : ascii -> bool) s :
  (forall c, p c = true -> q c = true) ->
  string_forallb p s = true -> string_forallb q s = true.
Proof.
  intros Hpq. induction s as [|c s IH]; cbn [string_forallb]; [reflexivity|].
  intros H. apply andb_prop in H as [Hc Hs]. now rewrite (Hpq _ Hc), IH.
Qed.

Lemma escape_json_string_no_newline cis s :
  string_forallb app.not_newline (json.escape_json_string cis s) = true.
Proof.
  induction s as [|c r IH]; [reflexivity|].
  cbn [json.escape_json_string]. rewrite string_forallb_append, IH.
  rewrite andb_true_r.
  eapply string_forallb_weaken; [|apply (escape_char_no_control cis c)].
  intros x. each_char x; vm_compute; congruence.
Qed.

Lemma quoted_no_newline cis v :
  string_forallb app.not_newline (json.quoted cis v) = true.
Proof.
  unfold json.quoted. cbn [string_forallb].
  rewrite string_forallb_append, escape_json_string_no_newline. reflexivity.
Qed.

Lemma serialize_ack_no_newline cis ack :
  string_forallb app.not_newline (json.serialize_ack cis ack) = true.
Proof.
  unfold json.serialize_ack.
  destruct (ipc.message ack);
    rewrite ?string_forallb_append, ?quoted_no_newline; reflexivity.
Qed.

(** X13. An ack is exactly one line of the protocol: the first newline
    of the text [create_ack_message] returns is its last character,
    whatever the command, status and message hold. *)
Theorem ack_message_one_line :
  forall (char_is_signed : bool) (ack : ipc.AckPayload),
    find_char newline (json.create_ack_message char_is_signed ack)
    = Some (String newline EmptyString).
Proof.
  intros cis ack. unfold json.create_ack_message.
  rewrite serialize_message_text.
  replace (jq "{'version':'v0','type':'" ++ json.escape_json_string cis ipc.ACK
           ++ jq "','payload':" ++ json.serialize_ack cis ack
           ++ String "}" (String newline EmptyString))
    with ((jq "{'version':'v0','type':'" ++ json.escape_json_string cis ipc.ACK
           ++ jq "','payload':" ++ json.serialize_ack cis ack ++ "}")
          ++ String newline EmptyString)
    by (now rewrite !append_assoc).
  apply find_char_append_here. apply find_char_none_forallb.
  change (fun d => negb (Ascii.eqb d newline)) with app.not_newline.
  rewrite !string_forallb_append, serialize_ack_no_newline,
    escape_json_string_no_newline. reflexivity.
Qed.

(** *** What extract_json_field returns is text of the line *)

Lemma find_char_suffix c s r :
  find_char c s = Some r -> exists pre, s = pre ++ r.
Proof.
  induction s as [|d s IH]; cbn [find_char]; [discriminate|].
  destruct (Ascii.eqb d c).
  - intros H; inversion H. now exists EmptyString.
  - intros H. destruct (IH H) as [pre ->]. now exists (String d pre).
Qed.

Lemma find_str_suffix n s r :
  find_str n s = Some r -> exists pre post, s = pre ++ r /\ r = n ++ post.
Proof.
  induction s as [|d s IH].
  - cbn [find_str]. destruct (starts_with n EmptyString) eqn:E; [|discriminate].
    intros H; inversion H; subst. apply starts_with_iff in E as [post E].
    now exists EmptyString, post.
  - cbn [find_str]. destruct (starts_with n (String d s)) eqn:E.
    + intros H; inversion H; subst. apply starts_with_iff in E as [post E].
      now exists EmptyString, post.
    + intros H. destruct (IH H) as (pre & post & -> & Hr).
      now exists (String d pre), post.
Qed.

Lemma drop_suffix n s : exists pre, s = pre ++ drop n s.
Proof.
  revert s. induction n as [|n IH]; intros s.
  - exists EmptyString. now destruct s.
  - destruct s as [|c s]; [now exists EmptyString|].
    destruct (IH s) as [pre H]. exists (String c pre). cbn. now f_equal.
Qed.

Lemma scan_string_prefix s :
  forall run v, json.scan_string run s = Some v -> exists post, s = v ++ post.
Proof.
  induction s as [|c s IH]; intros run v; cbn [json.scan_string];
    [discriminate|].
  assert (forall r, option_map (String c) (json.scan_string r s) = Some v ->
                    exists post, String c s = v ++ post) as Hstep.
  { intros r H. destruct (json.scan_string r s) as [w|] eqn:E; [|discriminate].
    inversion H; subst. destruct (IH _ _ E) as [post ->]. now exists post. }
  destruct (Ascii.eqb c dq).
  - destruct (Nat.even run); [|apply Hstep].
    intros H; inversion H. now exists (String c s).
  - destruct (Ascii.eqb c backslash); apply Hstep.
Qed.

Lemma take_object_prefix s :
  forall n, exists post, s = json.take_object n s ++ post.
Proof.
  induction s as [|c s IH]; intros n.
  - exists EmptyString. now destruct n.
  - destruct n as [|n]; [now exists (String c s)|].
    cbn [json.take_object].
    destruct (IH (if Ascii.eqb c "{" then S (S n)
                  else if Ascii.eqb c "}" then n else S n)) as [post H].
    exists post. cbn [append]. now f_equal.
Qed.

Lemma read_value_prefix text v :
  json.read_value text = Some v -> exists pre post, text = pre ++ v ++ post.
Proof.
  unfold json.read_value. destruct text as [|c rest]; [discriminate|].
  destruct (Ascii.eqb c dq).
  - intros H. destruct (scan_string_prefix _ _ _ H) as [post ->].
    now exists (String c EmptyString), post.
  - destruct (Ascii.eqb c "{").
    + intros H; inversion H.
      destruct (take_object_prefix rest 1) as [post Hp].
      exists EmptyString, post. cbn [append]. now f_equal.
    + intros H. injection H as <-.
      exists EmptyString, (drop_while json.scalar_char (String c rest)).
      symmetry. exact (take_drop_while json.scalar_char (String c rest)).
Qed.

(** X14. [extract_json_field] returns nothing unless the quoted field
    name occurs in the text, and what it returns is a piece of the text
    itself. *)
Theorem extract_json_field_substring :
  forall (json field value : string),
    json.extract_json_field json field = Some value ->
    Contains (String dq (field ++ String dq EmptyString)) json
    /\ Contains value json.
Proof.
  intros json field value. unfold json.extract_json_field.
  destruct (find_str _ json) as [at_field|] eqn:Ef; [|discriminate].
  destruct (find_char ":" at_field) as [at_colon|] eqn:Ec; [|discriminate].
  intros Hv.
  destruct (find_str_suffix _ _ _ Ef) as (p1 & post1 & -> & Hat).
  split.
  { exists p1, post1. now rewrite <- Hat. }
  destruct (find_char_suffix _ _ _ Ec) as [p2 ->].
  destruct (drop_suffix 1 at_colon) as [p3 H3].
  pose proof (take_drop_while isspace (drop 1 at_colon)) as H4.
  destruct (read_value_prefix _ _ Hv) as (p5 & post & H5).
  exists (p1 ++ p2 ++ p3 ++ take_while isspace (drop 1 at_colon) ++ p5), post.
  rewrite H3 at 1. rewrite <- H4 at 1. rewrite H5 at 1.
  now rewrite !append_assoc.
Qed.

Lemma extract_json_field_substring_witness :
  Contains (jq "'type'") get_telemetry_line
  /\ Contains "get_telemetry" get_telemetry_line.
Proof.
  exact (extract_json_field_substring get_telemetry_line "type"
           "get_telemetry" eq_refl).
Defined.

(** ** main.cpp: commands and connections *)

(** ** Lines of a stream *)

Lemma first_line_unique (a b X Y : string) :
  find_char newline a = None -> find_char newline b = None ->
  a ++ String newline X = b ++ String newline Y -> a = b /\ X = Y.
Proof.
  revert b. induction a as [|c a IH]; intros [|d b] Ha Hb H;
    cbn [append find_char] in *.
  - inversion H. auto.
  - inversion H; subst d. rewrite Ascii.eqb_refl in Hb. discriminate.
  - inversion H; subst c. rewrite Ascii.eqb_refl in Ha. discriminate.
  - inversion H; subst d.
    destruct (Ascii.eqb c newline); [discriminate|].
    destruct (IH b Ha Hb H2) as [-> ->]. auto.
Qed.

(** Every text is a sequence of complete lines and an incomplete rest. *)
Lemma lines_decomposition (s : string) :
  exists lines tail,
    s = lines_text lines ++ tail
    /\ Forall (fun l => find_char newline l = None) lines
    /\ find_char newline tail = None.
Proof.
  induction s as [|c s (lines & tail & -> & Hl & Ht)].
  - exists [], EmptyString. repeat split. constructor.
  - destruct (Ascii.eqb c newline) eqn:Ec.
    + apply Ascii.eqb_eq in Ec; subst c.
      exists (EmptyString :: lines), tail. repeat split; auto.
    + destruct lines as [|l lines].
      * exists [], (String c tail). repeat split; auto.
        cbn [find_char]. now rewrite Ec.
      * exists (String c l :: lines), tail. split; [reflexivity|].
        inversion Hl; subst. split; [|exact Ht].
        constructor; [|assumption]. cbn [find_char]. now rewrite Ec.
Qed.

(** The complete lines of a prefix of a stream are the first complete
    lines of the stream. *)
Lemma lines_text_prefix ls :
  forall lines (X tail : string),
    Forall (fun l => find_char newline l = None) ls ->
    Forall (fun l => find_char newline l = None) lines ->
    find_char newline tail = None ->
    lines_text ls ++ X = lines_text lines ++ tail ->
    exists lines', lines = (ls ++ lines')%list /\ X = lines_text lines' ++ tail.
Proof.
  induction ls as [|l ls IH]; intros lines X tail Hls Hlines Htail H.
  - exists lines. auto.
  - inversion Hls as [|? ? Hl Hls']; subst.
    cbn [lines_text] in H. rewrite append_assoc in H. cbn [append] in H.
    destruct lines as [|l' lines].
    + cbn [lines_text append] in H. rewrite <- H in Htail.
      rewrite (find_char_append_here _ _ _ Hl) in Htail. discriminate.
    + inversion Hlines as [|? ? Hl' Hlines']; subst.
      cbn [lines_text] in H. rewrite append_assoc in H. cbn [append] in H.
      destruct (first_line_unique _ _ _ _ Hl Hl' H) as [-> H'].
      destruct (IH _ _ _ Hls' Hlines' Htail H') as (lines' & -> & ->).
      now exists lines'.
Qed.

Ltac effect_done :=
  cbn [orb fst snd app.running app.mode app.target_abv app.target_flow];
  split; [eexists; reflexivity|];
  split; [reflexivity|];
  split;
  [ first [ left; reflexivity | right; unfold valid_mode; auto ]
  | first [ left; split; reflexivity | right; auto ] ].

Section StreamFacts.

Variable char_is_signed : bool.
Variable to_string_double : float -> string.
Variable stod : string -> option float.
Variable get_timestamp_ms : list app.event -> Z.

Local Notation process_command :=
  (app.process_command char_is_signed to_string_double stod get_timestamp_ms).
Local Notation process_lines :=
  (app.process_lines char_is_signed to_string_double stod get_timestamp_ms).
Local Notation read_loop :=
  (app.read_loop char_is_signed to_string_double stod get_timestamp_ms).
Local Notation handle_client :=
  (app.handle_client char_is_signed to_string_double stod get_timestamp_ms).
Local Notation processed :=
  (after_lines char_is_signed to_string_double stod get_timestamp_ms).

(** What one command does: one message is sent; the mode changes only by
    a [set_mode] that names a mode of the protocol, the targets only by a
    [set_targets]; [running] is not touched. *)
Lemma process_command_effect history st msg :
  (exists text, fst (process_command history st msg) = [app.Sent text])
  /\ app.running (snd (process_command history st msg)) = app.running st
  /\ (app.mode (snd (process_command history st msg)) = app.mode st
      \/ (ipc.version msg = ipc.PROTOCOL_VERSION
          /\ ipc.type msg = ipc.SET_MODE
          /\ valid_mode (app.mode (snd (process_command history st msg)))))
  /\ ((app.target_abv (snd (process_command history st msg)) = app.target_abv st
       /\ app.target_flow (snd (process_command history st msg))
          = app.target_flow st)
      \/ (ipc.version msg = ipc.PROTOCOL_VERSION
          /\ ipc.type msg = ipc.SET_TARGETS)).
Proof.
  unfold app.process_command.
  destruct (String.eqb (ipc.version msg) ipc.PROTOCOL_VERSION) eqn:Ev;
    cbn [negb]; [|effect_done].
  apply String.eqb_eq in Ev.
  destruct (String.eqb (ipc.type msg) ipc.GET_TELEMETRY); [effect_done|].
  destruct (String.eqb (ipc.type msg) ipc.SET_MODE) eqn:Em.
  { apply String.eqb_eq in Em.
    destruct (json.parse_set_mode (ipc.payload_json msg)) as [p|];
      [|effect_done].
    destruct (String.eqb (ipc.set_mode_mode p) ipc.IDLE) eqn:Ei.
    { apply String.eqb_eq in Ei. effect_done. }
    destruct (String.eqb (ipc.set_mode_mode p) ipc.ACTIVE) eqn:Ea.
    { apply String.eqb_eq in Ea. effect_done. }
    effect_done. }
  destruct (String.eqb (ipc.type msg) ipc.SET_TARGETS) eqn:Et.
  { apply String.eqb_eq in Et. effect_done. }
  effect_done.
Qed.

Lemma processed_app ls :
  forall more history st,
    processed (ls ++ more)%list history st
    = if forallb decodable ls
      then processed more (fst (processed ls history st))
             (snd (processed ls history st))
      else processed ls history st.
Proof.
  induction ls as [|l ls IH]; intros more history st; [reflexivity|].
  cbn [app after_lines forallb]. unfold decodable at 1.
  destruct (json.parse_message l) as [msg|]; [|reflexivity].
  destruct (process_command history st msg) as [sent st'].
  cbn [andb]. apply IH.
Qed.

Lemma processed_running ls :
  forall history st,
    app.running (snd (processed ls history st)) = app.running st.
Proof.
  induction ls as [|l ls IH]; intros history st; [reflexivity|].
  cbn [after_lines]. destruct (json.parse_message l) as [msg|]; [|reflexivity].
  pose proof (process_command_effect history st msg) as (_ & Hr & _).
  destruct (process_command history st msg) as [sent st'].
  cbn [snd] in Hr. now rewrite IH.
Qed.

(** The inner loop on any buffer, by its complete lines. *)
Lemma process_lines_lines ls :
  forall fuel history st (tail : string),
    (List.length ls < fuel)%nat ->
    Forall (fun l => find_char newline l = None) ls ->
    find_char newline tail = None ->
    process_lines fuel history st (lines_text ls ++ tail)
    = Some (if forallb decodable ls
            then app.Open (fst (processed ls history st))
                   (snd (processed ls history st)) tail
            else app.Shut (fst (processed ls history st)
                           ++ [app.Closed_invalid_json])%list
                   (snd (processed ls history st))).
Proof.
  induction ls as [|l ls IH]; intros fuel history st tail Hf Hls Ht.
  - destruct fuel as [|fuel]; [cbn in Hf; lia|].
    cbn [lines_text append app.process_lines]. now rewrite Ht.
  - destruct fuel as [|fuel]; [cbn in Hf; lia|].
    inversion Hls as [|? ? Hl Hls']; subst.
    cbn [lines_text]. rewrite append_assoc. cbn [append].
    rewrite (process_lines_step _ _ _ _ _ _ _ _ _ Hl).
    cbn [forallb after_lines]. unfold decodable at 1.
    destruct (json.parse_message l) as [msg|]; [|reflexivity].
    destruct (process_command history st msg) as [sent st'].
    cbn [andb]. apply IH; auto. cbn in Hf. lia.
Qed.

(** The outer loop, by the complete lines of everything it reads. *)
Lemma read_loop_stream reads :
  forall history st (incomplete : string) lines (tail : string),
    app.running st = true ->
    find_char newline incomplete = None ->
    incomplete ++ received reads = lines_text lines ++ tail ->
    Forall (fun l => find_char newline l = None) lines ->
    find_char newline tail = None ->
    read_loop reads history st incomplete
    = ((fst (processed lines history st) ++ [closing lines])%list,
       snd (processed lines history st)).
Proof.
  induction reads as [|chunk later IH];
    intros history st incomplete lines tail Hrun Hinc Hs Hlines Htail.
  - cbn [received] in Hs. rewrite append_nil_r in Hs.
    destruct lines as [|l lines].
    + cbn [app.read_loop]. rewrite Hrun. reflexivity.
    + exfalso. inversion Hlines as [|? ? Hl _]; subst.
      cbn [lines_text] in Hinc. rewrite append_assoc in Hinc.
      cbn [append] in Hinc.
      rewrite (find_char_append_here _ _ _ Hl) in Hinc. discriminate.
  - cbn [app.read_loop received] in *. rewrite Hrun. cbn [negb].
    rewrite <- append_assoc in Hs.
    destruct (lines_decomposition (incomplete ++ take_while app.not_nul chunk))
      as (ls & t & Hbuf & Hls & Ht).
    rewrite Hbuf in Hs. rewrite append_assoc in Hs.
    destruct (lines_text_prefix _ _ _ _ Hls Hlines Htail Hs)
      as (lines' & -> & Hrest).
    cbv zeta.
    remember (S (String.length (incomplete ++ take_while app.not_nul chunk)))
      as fuel eqn:Hfuel.
    rewrite Hbuf in Hfuel |- *.
    rewrite process_lines_lines; auto.
    2:{ pose proof (length_lines_text ls t). lia. }
    rewrite processed_app. unfold closing. rewrite forallb_app.
    destruct (forallb decodable ls) eqn:Eall.
    + cbn [andb]. apply (IH _ _ _ _ tail); auto.
      * now rewrite processed_running.
      * apply Forall_app in Hlines. tauto.
    + reflexivity.
Qed.

Lemma handle_client_by_lines reads st lines (tail : string) :
  app.running st = true ->
  received reads = lines_text lines ++ tail ->
  Forall (fun l => find_char newline l = None) lines ->
  find_char newline tail = None ->
  handle_client reads st
  = ((fst (processed lines [] st) ++ [closing lines])%list,
     snd (processed lines [] st)).
Proof.
  intros Hrun Hs Hlines Htail. unfold app.handle_client.
  now apply (read_loop_stream reads [] st EmptyString lines tail).
Qed.

Lemma handle_client_stopped reads st :
  app.running st = false ->
  handle_client reads st = ([app.Closed_disconnected], st).
Proof.
  intros Hrun. unfold app.handle_client.
  destruct reads; cbn [app.read_loop]; rewrite Hrun; reflexivity.
Qed.

(** What [after_lines] adds to the trace is sent messages only, and the
    mode stays one of the protocol's. *)
Lemma processed_trace ls :
  forall history st,
    (exists texts,
        fst (processed ls history st) = (history ++ map app.Sent texts)%list)
    /\ (valid_mode (app.mode st) ->
        valid_mode (app.mode (snd (processed ls history st)))).
Proof.
  induction ls as [|l ls IH]; intros history st.
  - cbn. split; [exists []; now rewrite app_nil_r | auto].
  - cbn [after_lines]. destruct (json.parse_message l) as [msg|].
    2:{ cbn. split; [exists []; now rewrite app_nil_r | auto]. }
    pose proof (process_command_effect history st msg)
      as ([text Hsent] & _ & Hmode & _).
    destruct (process_command history st msg) as [sent st'].
    cbn [fst snd] in *. subst sent.
    destruct (IH (history ++ [app.Sent text])%list st') as ([texts Ht] & Hm).
    split.
    + exists (text :: texts). rewrite Ht. now rewrite <- app_assoc.
    + intros Hv. apply Hm. destruct Hmode as [-> | (_ & _ & H)]; auto.
Qed.

End StreamFacts.

(** X15. What [process_command] does on any message: it sends exactly
    one text; it never touches [running]; the mode changes only by a
    [set_mode] of version [v0], and then to [IDLE] or [ACTIVE]; the targets
    change only by a [set_targets] of version [v0]. *)
Theorem process_command_frame :
  forall (char_is_signed : bool) (to_string_double : float -> string)
         (stod : string -> option float)
         (get_timestamp_ms : list app.event -> Z)
         (history : list app.event) (st : app.ControllerState)
         (msg : ipc.Message),
    let result :=
      app.process_command char_is_signed to_string_double stod
        get_timestamp_ms history st msg in
    (exists text, fst result = [app.Sent text])
    /\ app.running (snd result) = app.running st
    /\ (app.mode (snd result) = app.mode st
        \/ (ipc.version msg = ipc.PROTOCOL_VERSION
            /\ ipc.type msg = ipc.SET_MODE
            /\ valid_mode (app.mode (snd result))))
    /\ ((app.target_abv (snd result) = app.target_abv st
         /\ app.target_flow (snd result) = app.target_flow st)
        \/ (ipc.version msg = ipc.PROTOCOL_VERSION
            /\ ipc.type msg = ipc.SET_TARGETS)).
Proof.
  intros. apply process_command_effect.
Qed.

(** X17. [handle_client] by the byte stream. When the reads of a
    connection, put together, are the complete lines [lines] and an
    incomplete rest, [handle_client] processes the lines in order up to
    the first that does not decode, however the stream was cut into reads,
    and then closes: by invalid JSON when a line did not decode, by the end
    of the stream otherwise. The incomplete rest is never processed. *)
Theorem handle_client_stream :
  forall (char_is_signed : bool) (to_string_double : float -> string)
         (stod : string -> option float)
         (get_timestamp_ms : list app.event -> Z)
         (reads lines : list string) (tail : string)
         (st : app.ControllerState),
    app.running st = true ->
    received reads = lines_text lines ++ tail ->
    Forall (fun l => find_char newline l = None) lines ->
    find_char newline tail = None ->
    app.handle_client char_is_signed to_string_double stod get_timestamp_ms
      reads st
    = ((fst (after_lines char_is_signed to_string_double stod
               get_timestamp_ms lines [] st) ++ [closing lines])%list,
       snd (after_lines char_is_signed to_string_double stod
              get_timestamp_ms lines [] st)).
Proof.
  intros. now apply handle_client_by_lines with (tail := tail).
Qed.

Lemma handle_client_stream_witness :
  app.handle_client true (fun _ => "0") stod_plain (fun _ => 0%Z)
    set_mode_in_two_reads app.initial_state
  = ((fst (after_lines true (fun _ => "0") stod_plain (fun _ => 0%Z)
             [set_mode_nested_line] [] app.initial_state)
      ++ [closing [set_mode_nested_line]])%list,
     snd (after_lines true (fun _ => "0") stod_plain (fun _ => 0%Z)
            [set_mode_nested_line] [] app.initial_state)).
Proof.
  apply (handle_client_stream true (fun _ => "0") stod_plain (fun _ => 0%Z)
           set_mode_in_two_reads [set_mode_nested_line] "{").
  - reflexivity.
  - reflexivity.
  - constructor; [reflexivity | constructor].
  - reflexivity.
Defined.

(** X18. How the stream is cut into reads does not matter to
    [handle_client]: two sequences of reads that deliver the same bytes
    give the same trace and the same state. *)
Theorem handle_client_chunking :
  forall (char_is_signed : bool) (to_string_double : float -> string)
         (stod : string -> option float)
         (get_timestamp_ms : list app.event -> Z)
         (reads1 reads2 : list string) (st : app.ControllerState),
    received reads1 = received reads2 ->
    app.handle_client char_is_signed to_string_double stod get_timestamp_ms
      reads1 st
    = app.handle_client char_is_signed to_string_double stod get_timestamp_ms
        reads2 st.
Proof.
  intros cis tsd stod clock reads1 reads2 st Hsame.
  destruct (app.running st) eqn:Hrun.
  - destruct (lines_decomposition (received reads1))
      as (lines & tail & Hs & Hl & Ht).
    rewrite (handle_client_by_lines cis tsd stod clock reads1 st lines tail);
      auto.
    rewrite (handle_client_by_lines cis tsd stod clock reads2 st lines tail);
      auto. now rewrite <- Hsame.
  - now rewrite !handle_client_stopped.
Qed.

Lemma handle_client_chunking_witness :
  app.handle_client true (fun _ => "0") stod_plain (fun _ => 0%Z)
    set_mode_in_two_reads app.initial_state
  = app.handle_client true (fun _ => "0") stod_plain (fun _ => 0%Z)
      set_mode_in_one_read app.initial_state.
Proof. apply handle_client_chunking. reflexivity. Defined.

(** X19. Every run of [handle_client] ends with exactly one close
    event, after sent messages only; it leaves [running] as it was and,
    when the mode was [IDLE] or [ACTIVE], a mode that is one of them. *)
Theorem handle_client_trace :
  forall (char_is_signed : bool) (to_string_double : float -> string)
         (stod : string -> option float)
         (get_timestamp_ms : list app.event -> Z)
         (reads : list string) (st : app.ControllerState),
    let result :=
      app.handle_client char_is_signed to_string_double stod
        get_timestamp_ms reads st in
    (exists texts,
        fst result = (map app.Sent texts ++ [app.Closed_disconnected])%list
        \/ fst result = (map app.Sent texts ++ [app.Closed_invalid_json])%list)
    /\ app.running (snd result) = app.running st
    /\ (valid_mode (app.mode st) -> valid_mode (app.mode (snd result))).
Proof.
  intros cis tsd stod clock reads st result. subst result.
  destruct (app.running st) eqn:Hrun.
  - destruct (lines_decomposition (received reads))
      as (lines & tail & Hs & Hl & Ht).
    rewrite (handle_client_by_lines cis tsd stod clock reads st lines tail);
      auto.
    cbn [fst snd].
    destruct (processed_trace cis tsd stod clock lines [] st)
      as ([texts Htexts] & Hmode).
    rewrite Htexts, processed_running, Hrun. cbn [app].
    split; [|auto]. exists texts. unfold closing.
    destruct (forallb decodable lines); auto.
  - rewrite handle_client_stopped by exact Hrun. cbn [fst snd].
    split; [exists []; now left | auto].
Qed.

(** ** IpcServer::handleClient over the whole stream *)

Lemma forwarded_app (a b : list string) :
  forwarded (a ++ b) = (forwarded a ++ forwarded b)%list.
Proof. unfold forwarded. apply flat_map_app. Qed.

Lemma handleClient_lines reads :
  forall (lineBuffer : string) lines (tail : string),
    find_char newline lineBuffer = None ->
    lineBuffer ++ received reads = lines_text lines ++ tail ->
    Forall (fun l => find_char newline l = None) lines ->
    find_char newline tail = None ->
    ipc_server.handleClient reads lineBuffer = forwarded lines.
Proof.
  induction reads as [|chunk later IH];
    intros buf lines tail Hbuf Hs Hlines Htail.
  - cbn [received] in Hs. rewrite append_nil_r in Hs.
    destruct lines as [|l lines]; [reflexivity|].
    exfalso. inversion Hlines as [|? ? Hl _]; subst.
    cbn [lines_text] in Hbuf. rewrite append_assoc in Hbuf.
    cbn [append] in Hbuf.
    rewrite (find_char_append_here _ _ _ Hl) in Hbuf. discriminate.
  - cbn [ipc_server.handleClient received] in *.
    change ipc_server.not_nul with app.not_nul.
    rewrite <- append_assoc in Hs.
    destruct (lines_decomposition (buf ++ take_while app.not_nul chunk))
      as (ls & t & Hdec & Hls & Ht).
    rewrite Hdec in Hs. rewrite append_assoc in Hs.
    destruct (lines_text_prefix _ _ _ _ Hls Hlines Htail Hs)
      as (lines' & -> & Hrest).
    cbv zeta.
    remember (S (String.length (buf ++ take_while app.not_nul chunk)))
      as fuel eqn:Hfuel.
    rewrite Hdec in Hfuel |- *.
    rewrite forward_lines_all; auto.
    2:{ pose proof (length_lines_text ls t). lia. }
    rewrite forwarded_app. f_equal.
    apply (IH _ _ tail); auto. apply Forall_app in Hlines. tauto.
Qed.

Lemma find_char_none_substring c n s :
  find_char c s = None -> find_char c (substring 0 n s) = None.
Proof.
  revert n. induction s as [|d s IH]; intros n; cbn [find_char].
  - now destruct n.
  - destruct (Ascii.eqb d c) eqn:E; [discriminate|]. intros H.
    destruct n as [|n]; cbn [substring find_char]; [reflexivity|].
    rewrite E. now apply IH.
Qed.

Lemma callback_argument_message line m :
  find_char newline line = None ->
  ipc_server.callback_argument line = Some m ->
  m <> EmptyString /\ find_char newline m = None.
Proof.
  intros Hl. unfold ipc_server.callback_argument.
  assert (find_char newline (ipc_server.strip_cr line) = None) as Hs.
  { unfold ipc_server.strip_cr. destruct (ipc_server.last_char line) as [c|];
      [|exact Hl].
    destruct (Ascii.eqb c "013"); [|exact Hl].
    now apply find_char_none_substring. }
  destruct (ipc_server.strip_cr line) as [|c r]; [discriminate|].
  intros H; inversion H; subst. split; [discriminate | exact Hs].
Qed.

Lemma forwarded_messages lines m :
  Forall (fun l => find_char newline l = None) lines ->
  In m (forwarded lines) ->
  m <> EmptyString /\ find_char newline m = None.
Proof.
  intros Hl Hin. unfold forwarded in Hin. apply in_flat_map in Hin.
  destruct Hin as (l & Hlin & Hm).
  rewrite Forall_forall in Hl. specialize (Hl _ Hlin).
  destruct (ipc_server.callback_argument l) as [m'|] eqn:E; [|destruct Hm].
  destruct Hm as [<-|[]]. now apply (callback_argument_message l).
Qed.

(** X20. [IpcServer::handleClient] by the byte stream: when the reads,
    put together, are the complete lines [lines] and an incomplete rest,
    the callback gets every line that is not empty, without its trailing
    carriage return, in order, however the stream was cut into reads; the
    incomplete rest is never handed over. *)
Theorem handleClient_stream :
  forall (reads lines : list string) (tail : string),
    received reads = lines_text lines ++ tail ->
    Forall (fun l => find_char newline l = None) lines ->
    find_char newline tail = None ->
    ipc_server.handleClient reads EmptyString = forwarded lines.
Proof.
  intros reads lines tail Hs Hl Ht.
  now apply (handleClient_lines reads EmptyString lines tail).
Qed.

Lemma handleClient_stream_witness :
  ipc_server.handleClient set_mode_in_two_reads EmptyString
  = forwarded [set_mode_nested_line].
Proof.
  apply (handleClient_stream set_mode_in_two_reads [set_mode_nested_line] "{").
  - reflexivity.
  - constructor; [reflexivity | constructor].
  - reflexivity.
Defined.

(** X21. How the stream is cut into reads does not matter to
    [IpcServer::handleClient]: the same bytes give the same calls of the
    callback. *)
Theorem handleClient_chunking :
  forall reads1 reads2 : list string,
    received reads1 = received reads2 ->
    ipc_server.handleClient reads1 EmptyString
    = ipc_server.handleClient reads2 EmptyString.
Proof.
  intros reads1 reads2 Hsame.
  destruct (lines_decomposition (received reads1))
    as (lines & tail & Hs & Hl & Ht).
  rewrite (handleClient_lines reads1 EmptyString lines tail); auto.
  rewrite (handleClient_lines reads2 EmptyString lines tail); auto.
  cbn [append]. now rewrite <- Hsame.
Qed.

Lemma handleClient_chunking_witness :
  ipc_server.handleClient set_mode_in_two_reads EmptyString
  = ipc_server.handleClient set_mode_in_one_read EmptyString.
Proof. apply handleClient_chunking. reflexivity. Defined.

(** X22. [IpcServer::handleClient] never hands the callback an empty
    message, nor one that holds a newline. *)
Theorem handleClient_messages :
  forall (reads : list string) (message : string),
    In message (ipc_server.handleClient reads EmptyString) ->
    message <> EmptyString /\ find_char newline message = None.
Proof.
  intros reads m Hin.
  destruct (lines_decomposition (received reads))
    as (lines & tail & Hs & Hl & Ht).
  rewrite (handleClient_lines reads EmptyString lines tail) in Hin; auto.
  now apply (forwarded_messages lines).
Qed.

Lemma handleClient_messages_witness :
  set_mode_nested_line <> EmptyString
  /\ find_char newline set_mode_nested_line = None.
Proof.
  apply (handleClient_messages set_mode_in_two_reads set_mode_nested_line).
  left. reflexivity.
Defined.

(** ** IpcServer::send: the newline *)

Lemma last_char_append_char s c :
  ipc_server.last_char (s ++ String c EmptyString) = Some c.
Proof.
  induction s as [|d s IH]; [reflexivity|].
  cbn [append ipc_server.last_char]. rewrite IH.
  destruct (s ++ String c EmptyString) eqn:E; [|reflexivity].
  destruct s; discriminate.
Qed.

(** X23. The message [IpcServer::send] writes ends with a newline; a
    message that already ends with one is written as it is (adding the
    newline twice changes nothing), any other gets exactly one newline
    appended, the empty message included. *)
Theorem with_newline_ends_line :
  forall message : string,
    ipc_server.last_char (ipc_server.with_newline message) = Some newline
    /\ ipc_server.with_newline (ipc_server.with_newline message)
       = ipc_server.with_newline message
    /\ (ipc_server.with_newline message = message
        \/ ipc_server.with_newline message
           = message ++ String newline EmptyString).
Proof.
  intros message.
  assert (ipc_server.last_char (ipc_server.with_newline message)
          = Some newline) as Hlast.
  { unfold ipc_server.with_newline.
    destruct (ipc_server.last_char message) as [c|] eqn:E.
    - destruct (Ascii.eqb c newline) eqn:Ec.
      + apply Ascii.eqb_eq in Ec. now subst c.
      + apply last_char_append_char.
    - apply last_char_append_char. }
  split; [exact Hlast|]. split.
  - unfold ipc_server.with_newline at 1. rewrite Hlast.
    now rewrite Ascii.eqb_refl.
  - unfold ipc_server.with_newline.
    destruct (ipc_server.last_char message) as [c|]; [|now right].
    destruct (Ascii.eqb c newline); [now left | now right].
Qed.

(** ** IpcServer: a client whose write fails *)

Lemma closes_app s a b :
  closes s (a ++ b) = (closes s a + closes s b)%nat.
Proof.
  induction a as [|[c m r|c] a IH]; cbn [app closes]; [reflexivity|exact IH|].
  destruct (Z.eqb c s); cbn; now rewrite IH.
Qed.

Lemma closes_send_calls s msg tried : closes s (send_calls msg tried) = O.
Proof. induction tried as [|a r IH]; [reflexivity | exact IH]. Qed.

Lemma closes_dead s dead :
  In s dead -> (1 <= closes s (map ipc_server.Closesocket dead))%nat.
Proof.
  induction dead as [|d r IH]; intros Hin; [destruct Hin|].
  cbn [map closes]. destruct (Z.eqb d s) eqn:E; [lia|].
  destruct Hin as [->|Hin]; [rewrite Z.eqb_refl in E; discriminate | auto].
Qed.

Lemma failed_In s tried :
  In (s, ipc_server.SOCKET_ERROR_VALUE) tried -> In s (failed tried).
Proof.
  intros H. unfold failed. apply in_map_iff.
  exists (s, ipc_server.SOCKET_ERROR_VALUE).
  split; [reflexivity|]. apply filter_In. split; [exact H | reflexivity].
Qed.

Lemma survivors_not_dead s dead clients :
  In s dead -> ~ In s (survivors dead clients).
Proof.
  intros Hd Hin. unfold survivors in Hin. apply filter_In in Hin as [_ Hn].
  apply negb_true_iff in Hn.
  assert (existsb (Z.eqb s) dead = true) as He.
  { apply existsb_exists. exists s. split; [exact Hd | apply Z.eqb_refl]. }
  congruence.
Qed.

(** X29. A client whose write fails in [send] is erased from [clients_]
    and its socket closed by [send]; when the handler of that client then
    leaves its loop, it closes the same socket again: over the two, the
    socket is closed at least twice. *)
Theorem failed_client_closed_twice :
  forall (sys_send : list ipc_server.syscall -> Z -> string -> Z)
         (message : string) (clients : list Z)
         (calls : list ipc_server.syscall) (s : Z),
    In (s, ipc_server.SOCKET_ERROR_VALUE)
       (attempts sys_send (ipc_server.with_newline message) clients calls) ->
    let after_send := ipc_server.send sys_send message clients calls in
    let after_leave :=
      ipc_server.leave s (fst after_send) (snd after_send) in
    ~ In s (fst after_send)
    /\ (closes s calls + 2 <= closes s (snd after_leave))%nat.
Proof.
  intros sys_send message clients calls s Hfail after_send after_leave.
  subst after_leave after_send.
  unfold ipc_server.send. rewrite send_pass_attempts.
  cbn [app]. rewrite remove_dead_survivors. cbn [fst snd ipc_server.leave].
  pose proof (failed_In _ _ Hfail) as Hdead.
  split; [now apply survivors_not_dead|].
  rewrite !closes_app, closes_send_calls. cbn [closes].
  rewrite Z.eqb_refl. pose proof (closes_dead _ _ Hdead). lia.
Qed.

Lemma failed_client_closed_twice_witness :
  ~ In 7%Z (fst (ipc_server.send send_fails_on_7 "x" [4; 7]%Z []))
  /\ (closes 7%Z [] + 2
      <= closes 7%Z
           (snd (ipc_server.leave 7%Z
                   (fst (ipc_server.send send_fails_on_7 "x" [4; 7]%Z []))
                   (snd (ipc_server.send send_fails_on_7 "x" [4; 7]%Z [])))))%nat.
Proof.
  apply (failed_client_closed_twice send_fails_on_7 "x" [4; 7]%Z [] 7%Z).
  right. left. reflexivity.
Defined.

(** ** controller.cpp: the frame and the loop *)

Section TelemetryFacts.

Local Open Scope Z_scope.


Lemma le_value_le_bytes n z :
  le_value (telemetry.le_bytes n z) = z mod 256 ^ Z.of_nat n.
Proof.
  revert z. induction n as [|n IH]; intros z.
  - cbn. now rewrite Z.mod_1_r.
  - cbn [telemetry.le_bytes le_value]. rewrite IH.
    rewrite Nat2Z.inj_succ, Z.pow_succ_r by lia.
    rewrite Z.rem_mul_r; [reflexivity | lia | apply Z.pow_pos_nonneg; lia].
Qed.

Lemma le_bytes_unsigned n z z' :
  0 <= z < 256 ^ Z.of_nat n -> 0 <= z' < 256 ^ Z.of_nat n ->
  telemetry.le_bytes n z = telemetry.le_bytes n z' -> z = z'.
Proof.
  intros Hz Hz' H. apply (f_equal le_value) in H.
  rewrite !le_value_le_bytes in H.
  now rewrite !Z.mod_small in H.
Qed.

Lemma le_bytes_signed16 z z' :
  - 2 ^ 15 <= z < 2 ^ 15 -> - 2 ^ 15 <= z' < 2 ^ 15 ->
  telemetry.le_bytes 2 z = telemetry.le_bytes 2 z' -> z = z'.
Proof.
  intros Hz Hz' H. apply (f_equal le_value) in H.
  rewrite !le_value_le_bytes in H.
  change (256 ^ Z.of_nat 2) with 65536 in H.
  change (2 ^ 15) with 32768 in *.
  pose proof (Z.div_mod z 65536 ltac:(lia)).
  pose proof (Z.div_mod z' 65536 ltac:(lia)).
  pose proof (Z.mod_pos_bound z 65536 ltac:(lia)).
  pose proof (Z.mod_pos_bound z' 65536 ltac:(lia)).
  lia.
Qed.

Lemma app_inj_length {A} (a a' b b' : list A) :
  length a = length a' -> (a ++ b = a' ++ b')%list -> a = a' /\ b = b'.
Proof.
  revert a'. induction a as [|x a IH]; intros [|y a'] Hlen H;
    cbn in *; try discriminate; [auto|].
  inversion H; subst. destruct (IH a' ltac:(lia) H2) as [-> ->]. auto.
Qed.

Lemma le_bytes_range n z :
  Forall (fun b => 0 <= b < 256) (telemetry.le_bytes n z).
Proof.
  revert z. induction n as [|n IH]; intros z; cbn [telemetry.le_bytes];
    constructor; [apply Z.mod_pos_bound; lia | apply IH].
Qed.

Ltac split_frame H :=
  repeat match type of H with
    | (telemetry.le_bytes ?n _ ++ _ = telemetry.le_bytes ?n _ ++ _)%list =>
        let H1 := fresh "Hfield" in
        apply app_inj_length in H;
        [ destruct H as [H1 H] | now rewrite !length_le_bytes ]
    end.

(** X24. The frame keeps everything: its 32 entries are bytes, and two
    messages whose fields hold values of their types and whose frames are
    equal are equal. *)
Theorem frame_injective :
  forall m1 m2 : telemetry.TelemetryMessage,
    fits m1 -> fits m2 ->
    Forall (fun b => 0 <= b < 256) (telemetry.frame m1)
    /\ (telemetry.frame m1 = telemetry.frame m2 -> m1 = m2).
Proof.
  intros m1 m2 F1 F2. split.
  { unfold telemetry.frame.
    repeat (apply Forall_app; split); apply le_bytes_range. }
  intros H. unfold telemetry.frame in H. split_frame H.
  unfold fits in F1, F2.
  destruct F1 as (A1 & A2 & A3 & A4 & A5 & A6 & A7 & A8 & A9 & A10 & A11
                  & A12 & A13 & A14 & A15).
  destruct F2 as (B1 & B2 & B3 & B4 & B5 & B6 & B7 & B8 & B9 & B10 & B11
                  & B12 & B13 & B14 & B15).
  destruct m1, m2;
    cbn [telemetry.version telemetry.timestamp_ms telemetry.mode
         telemetry.temp_vapour_head telemetry.temp_boiler_liquid
         telemetry.temp_pcb_environment telemetry.pressure_ambient
         telemetry.pressure_vapour telemetry.flow_ml_min
         telemetry.valve_reflux_control telemetry.valve_product_takeoff
         telemetry.heater_1 telemetry.heater_2 telemetry.faults
         telemetry.sensor_presence] in *.
  repeat match goal with
    | E : telemetry.le_bytes 2 ?a = telemetry.le_bytes 2 ?b |- _ =>
        first [ apply le_bytes_signed16 in E; [subst|assumption|assumption]
              | apply le_bytes_unsigned in E; [subst|assumption|assumption] ]
    | E : telemetry.le_bytes _ ?a = telemetry.le_bytes _ ?b |- _ =>
        apply le_bytes_unsigned in E; [subst|assumption|assumption]
    end.
  reflexivity.
Qed.

Lemma frame_injective_witness :
  Forall (fun b => 0 <= b < 256)%Z (telemetry.frame example_message)
  /\ (telemetry.frame example_message = telemetry.frame example_message ->
      example_message = example_message).
Proof.
  apply frame_injective; unfold fits; cbn; lia.
Defined.

(** ** Controller::Run *)

Lemma due_monotone last now :
  0 <= last <= now -> now < telemetry.UINT64_MODULUS ->
  telemetry.due last now = (200 <=? now - last).
Proof.
  intros H1 H2. unfold telemetry.due, telemetry.telemetry_interval_ms.
  rewrite Z.mod_small by lia. apply Z.geb_leb.
Qed.

Lemma nondecreasing_from prev prev' ts :
  prev' <= prev -> nondecreasing prev ts -> nondecreasing prev' ts.
Proof.
  destruct ts as [|t r]; cbn; [auto|].
  intros H [H1 H2]. split; [lia | auto].
Qed.

Lemma last_cons {A} (l : list A) :
  forall a d, List.last (a :: l) d = List.last l a.
Proof.
  induction l as [|b l IH]; intros a d; [reflexivity|].
  change (List.last (a :: b :: l) d) with (List.last (b :: l) d).
  now rewrite !IH.
Qed.

Lemma Run_rounds sp mode state clock :
  forall last,
    0 <= last -> nondecreasing last clock ->
    Forall (fun t => t < telemetry.UINT64_MODULUS) clock ->
    spaced 200 last (map fst (fst (telemetry.Run sp mode state clock last)))
    /\ List.last clock last - snd (telemetry.Run sp mode state clock last) < 200
    /\ forall t frame,
         In (t, frame) (fst (telemetry.Run sp mode state clock last)) ->
         In t clock /\ frame = telemetry.PublishTelemetry sp mode state t.
Proof.
  induction clock as [|now later IH]; intros last Hlast Hmono Hbound.
  - cbn. split; [exact I|]. split; [lia|]. intros t frame [].
  - destruct Hmono as [Hnow Hlater].
    inversion Hbound as [|? ? Hb Hbound']; subst.
    cbn [telemetry.Run]. rewrite due_monotone by lia.
    rewrite last_cons.
    destruct (200 <=? now - last) eqn:Edue.
    + apply Z.leb_le in Edue.
      destruct (IH now ltac:(lia) Hlater Hbound') as (Hs & Hl & Hin).
      destruct (telemetry.Run sp mode state later now) as [published last'].
      cbn [fst snd map spaced] in *.
      split; [split; [lia | exact Hs]|]. split; [exact Hl|].
      intros t frame [Heq|Ht].
      * inversion Heq; subst. split; [now left | reflexivity].
      * destruct (Hin _ _ Ht). split; [now right | assumption].
    + apply Z.leb_gt in Edue.
      destruct (IH last Hlast (nondecreasing_from _ _ _ Hnow Hlater) Hbound')
        as (Hs & Hl & Hin).
      split; [exact Hs|]. split.
      * destruct later as [|t later]; [cbn in *; lia|].
        rewrite last_cons in *. exact Hl.
      * intros t frame Ht. destruct (Hin _ _ Ht).
        split; [now right | assumption].
Qed.

(** X25. The loop of [Controller::Run] on a clock that does not go back:
    two published frames are at least 200 ms apart (the first at least
    200 ms after [last_telemetry_ms_]), after every round the last reading
    of the clock is less than 200 ms after the last publication, and every
    published frame is the frame of [PublishTelemetry] at a reading of the
    clock. *)
Theorem Run_publishes_every_interval :
  forall (sensor_presence : Z) (current_mode : telemetry.ProcessMode)
         (state : telemetry.ProcessState) (clock : list Z)
         (last_telemetry_ms : Z),
    0 <= last_telemetry_ms ->
    nondecreasing last_telemetry_ms clock ->
    Forall (fun t => t < telemetry.UINT64_MODULUS) clock ->
    let result :=
      telemetry.Run sensor_presence current_mode state clock
        last_telemetry_ms in
    spaced telemetry.telemetry_interval_ms last_telemetry_ms
      (map fst (fst result))
    /\ List.last clock last_telemetry_ms - snd result
       < telemetry.telemetry_interval_ms
    /\ forall t frame,
         In (t, frame) (fst result) ->
         In t clock
         /\ frame = telemetry.PublishTelemetry sensor_presence current_mode
                      state t.
Proof.
  intros. now apply Run_rounds.
Qed.

Lemma Run_publishes_every_interval_witness :
  spaced telemetry.telemetry_interval_ms 0
    (map fst (fst (telemetry.Run 65519 telemetry.ACTIVE example_state
                     example_clock 0)))
  /\ (List.last example_clock 0
      - snd (telemetry.Run 65519 telemetry.ACTIVE example_state
               example_clock 0)
      < telemetry.telemetry_interval_ms)%Z.
Proof.
  pose proof (Run_publishes_every_interval 65519 telemetry.ACTIVE example_state
                example_clock 0) as H.
  cbv zeta in H.
  assert (0 <= 0)%Z as H0 by lia.
  assert (nondecreasing 0 example_clock) as H1 by (cbn; lia).
  assert (Forall (fun t => t < telemetry.UINT64_MODULUS)%Z example_clock)
    as H2 by (repeat constructor).
  specialize (H H0 H1 H2).
  exact (conj (proj1 H) (proj1 (proj2 H))).
Defined.

End TelemetryFacts.

(** * The commands on the lines of the protocol *)

(** ** Numbers in the text of a line *)








(** ** Comparisons of doubles *)



(** ** IPCProtocol on the lines of set_targets *)

Section FlatLines.

Variable stod : string -> option float.
Variables what_substr what_stod : string.

Local Notation process_message :=
  (controller.process_message stod what_substr what_stod).




End FlatLines.

(** ** main.cpp on the lines of set_targets *)










Section NestedLines.

Variable char_is_signed : bool.
Variable to_string_double : float -> string.
Variable stod : string -> option float.
Variable get_timestamp_ms : list app.event -> Z.

Local Notation process_command :=
  (app.process_command char_is_signed to_string_double stod get_timestamp_ms).


End NestedLines.

(** ** set_mode *)

(** C3, at the failing input. The line of the test
    [valid_json_set_mode_active], with the mode in a nested payload, is
    not parsed by [minimal_json]: [IPCProtocol::process_message] answers
    with the text that carries the message [Invalid JSON: expected key],
    and the mode stays IDLE; the lines for IDLE and for a mode that is
    neither are answered in the same way. With the mode as a member of
    the message the mode is replaced, by ACTIVE and then by IDLE, and a
    mode that is neither is refused with [Invalid mode] and the state
    kept; the answer to an accepted request is the text with [status],
    [type] and [version] all [true], in which [ok] does not occur.
    [process_command] of main.cpp does what the claim says on the lines
    with the nested payload: ACTIVE is answered ok and becomes the mode;
    ACTIVE, IDLE and BOGUS in this order are answered ok, ok and with the
    error [Invalid mode value], and the mode left is IDLE. *)
Theorem set_mode_nested_payload_not_parsed :
  forall (stod : string -> option float) (what_substr what_stod : string)
         (char_is_signed : bool) (to_string_double : float -> string)
         (get_timestamp_ms : list app.event -> Z),
  set_mode_line "ACTIVE" = set_mode_nested_line
  /\ controller.process_message stod what_substr what_stod
       (set_mode_line "ACTIVE") controller.initial_state
     = (error_ack_text "Error: Invalid JSON: expected key",
        controller.initial_state)
  /\ controller.process_message stod what_substr what_stod
       (set_mode_line "IDLE") controller.initial_state
     = (error_ack_text "Error: Invalid JSON: expected key",
        controller.initial_state)
  /\ controller.process_message stod what_substr what_stod
       (set_mode_line "BOGUS") controller.initial_state
     = (error_ack_text "Error: Invalid JSON: expected key",
        controller.initial_state)
  /\ controller.process_message stod what_substr what_stod
       (set_mode_flat_line "ACTIVE") controller.initial_state
     = (ok_ack_text,
        {| controller.mode := controller.ACTIVE;
           controller.target_abv := 0%float;
           controller.target_flow := 0%float |})
  /\ controller.process_message stod what_substr what_stod
       (set_mode_flat_line "IDLE")
       {| controller.mode := controller.ACTIVE;
          controller.target_abv := 0%float;
          controller.target_flow := 0%float |}
     = (ok_ack_text, controller.initial_state)
  /\ controller.process_message stod what_substr what_stod
       (set_mode_flat_line "BOGUS")
       {| controller.mode := controller.ACTIVE;
          controller.target_abv := 0%float;
          controller.target_flow := 0%float |}
     = (error_ack_text "Invalid mode: BOGUS",
        {| controller.mode := controller.ACTIVE;
           controller.target_abv := 0%float;
           controller.target_flow := 0%float |})
  /\ containsb "ok" ok_ack_text = false
  /\ after_lines char_is_signed to_string_double stod get_timestamp_ms
       [set_mode_line "ACTIVE"] [] app.initial_state
     = ([app.Sent (mode_set_ack "ACTIVE")],
        {| app.running := true; app.mode := "ACTIVE";
           app.target_abv := 92%float; app.target_flow := 250%float |})
  /\ after_lines char_is_signed to_string_double stod get_timestamp_ms
       [set_mode_line "ACTIVE"; set_mode_line "IDLE"; set_mode_line "BOGUS"]
       [] app.initial_state
     = ([app.Sent (mode_set_ack "ACTIVE"); app.Sent (mode_set_ack "IDLE");
         app.Sent (invalid_mode_ack "BOGUS")],
        {| app.running := true; app.mode := "IDLE";
           app.target_abv := 92%float; app.target_flow := 250%float |}).
Proof.
  intros stod what_substr what_stod char_is_signed to_string_double
    get_timestamp_ms.
  repeat split; reflexivity.
Qed.

(** ** set_targets *)




(** C1, at the failing input. [process_command] of main.cpp has no range
    test. The request of the test [set_targets_abv_out_of_range_high] is
    decoded and answered ok, and 150 is stored as [target_abv]; the
    request of the test [set_targets_negative_flow] is answered ok as
    well, and -1 is stored as [target_flow]. The answer holds neither
    [out of range] nor [cannot be negative]. *)
Theorem set_targets_150_accepted_by_process_command :
  forall (char_is_signed : bool) (to_string_double : float -> string)
         (get_timestamp_ms : list app.event -> Z),
  set_targets_150_line
  = command_line "set_targets" (targets_payload (Some "150.0") (Some "1.5"))
  /\ (exists msg,
        json.parse_message set_targets_150_line = Some msg /\
        app.process_command char_is_signed to_string_double stod_plain
          get_timestamp_ms [] app.initial_state msg =
          ([app.Sent targets_updated_ack],
           {| app.running := true; app.mode := "IDLE";
              app.target_abv := 150%float; app.target_flow := 1.5%float |}))
  /\ (exists msg,
        json.parse_message set_targets_negative_flow_nested_line = Some msg /\
        app.process_command char_is_signed to_string_double stod_plain
          get_timestamp_ms [] app.initial_state msg =
          ([app.Sent targets_updated_ack],
           {| app.running := true; app.mode := "IDLE";
              app.target_abv := 42.5%float; app.target_flow := (-1)%float |}))
  /\ (100 <? 150)%float = true /\ (-1 <? 0)%float = true
  /\ containsb "out of range" targets_updated_ack = false
  /\ containsb "cannot be negative" targets_updated_ack = false
  /\ containsb "error" targets_updated_ack = false.
Proof.
  intros char_is_signed to_string_double get_timestamp_ms.
  split; [reflexivity|].
  split; [eexists; split; reflexivity|].
  split; [eexists; split; reflexivity|].
  repeat split; reflexivity.
Qed.



(** * The telemetry frame: layout and sentinels *)

Section FrameFacts.

Local Open Scope Z_scope.

(** [build_message] gives a message as soon as the scaled value of every
    present float channel is one its field holds. *)
Lemma build_message_defined presence mode state now :
  (forall c, telemetry.present presence (presence_bit c) = true ->
             exists v, scaled_reading c state = Some v /\ in_field_range c v) ->
  exists m, telemetry.build_message presence mode state now = Some m.
Proof.
  intros H.
  assert (H16 : forall c x,
    (c = TempVapourHead \/ c = TempBoilerLiquid \/ c = TempPcbEnvironment
     \/ c = PressureAmbient \/ c = PressureVapour) ->
    scaled_reading c state
      = telemetry.truncate (telemetry.f32_mul x (telemetry.f32_of_int 100)) ->
    exists v, telemetry.scaled_int16 presence (presence_bit c) x = Some v).
  { intros c x Hc Hs. unfold telemetry.scaled_int16.
    destruct (telemetry.present presence (presence_bit c)) eqn:P; [|eauto].
    destruct (H c P) as (v & Hv & Hl). exists v.
    apply cast_to_int_fits; [congruence|].
    destruct Hc as [->|[->|[->|[->| ->]]]]; exact Hl. }
  destruct (H16 TempVapourHead _ (or_introl eq_refl) eq_refl) as [t1 E1].
  destruct (H16 TempBoilerLiquid _ (or_intror (or_introl eq_refl)) eq_refl)
    as [t2 E2].
  destruct (H16 TempPcbEnvironment _
              (or_intror (or_intror (or_introl eq_refl))) eq_refl) as [t3 E3].
  destruct (H16 PressureAmbient _
              (or_intror (or_intror (or_intror (or_introl eq_refl)))) eq_refl)
    as [p1 E4].
  destruct (H16 PressureVapour _
              (or_intror (or_intror (or_intror (or_intror eq_refl)))) eq_refl)
    as [p2 E5].
  assert (exists fl, telemetry.scaled_uint16 presence telemetry.SENSOR_FLOW
                       (telemetry.flow_ml_min_reading state) = Some fl)
    as [fl E6].
  { unfold telemetry.scaled_uint16.
    destruct (telemetry.present presence telemetry.SENSOR_FLOW) eqn:P; [|eauto].
    destruct (H Flow P) as (v & Hv & Hl). exists v.
    apply cast_to_int_fits; [exact Hv | exact Hl]. }
  unfold telemetry.build_message.
  cbn [presence_bit] in E1, E2, E3, E4, E5.
  rewrite E1, E2, E3, E4, E5, E6. eauto.
Qed.

(** The bytes depend on the value modulo the width only. *)
Lemma le_bytes_mod n z :
  telemetry.le_bytes n z = telemetry.le_bytes n (z mod 256 ^ Z.of_nat n).
Proof.
  revert z. induction n as [|n IH]; intros z; [reflexivity|].
  cbn [telemetry.le_bytes].
  rewrite Nat2Z.inj_succ, Z.pow_succ_r by lia.
  assert (0 < 256 ^ Z.of_nat n) as Hpos by (apply Z.pow_pos_nonneg; lia).
  rewrite (Z.rem_mul_r z 256 (256 ^ Z.of_nat n)) by lia.
  f_equal.
  - rewrite (Z.mul_comm 256), Z.mod_add by lia.
    now rewrite Z.mod_mod by lia.
  - rewrite (IH (z / 256)).
    f_equal.
    rewrite (Z.mul_comm 256), Z.div_add by lia.
    rewrite (Z.div_small (z mod 256) 256) by (apply Z.mod_pos_bound; lia).
    reflexivity.
Qed.

(** The field of a channel stands at the channel's place in the frame. *)
Lemma channel_bytes_frame c m :
  channel_bytes c (telemetry.frame m)
  = telemetry.le_bytes (channel_width c) (frame_field c m).
Proof. destruct c; reflexivity. Qed.

Lemma sentinel_bytes_value c :
  telemetry.le_bytes (channel_width c) (sentinel c) = sentinel_bytes c
  /\ le_value (sentinel_bytes c) = sentinel c
  /\ sentinel c mod 256 ^ Z.of_nat (channel_width c) = sentinel c.
Proof. destruct c; repeat split; reflexivity. Qed.

End FrameFacts.

(** C10 as stated fails where a present sensor reads a value whose scaled
    reading is the sentinel itself. With every sensor present, as
    [GetSensorPresenceMap] says, and the vapour head at 327.67 degrees,
    the scaled reading is 32767 and the two bytes of the field are those
    of INT16_MAX, the same two bytes the frame holds when the sensor is
    absent. *)
Lemma present_reading_encoded_as_sentinel :
  telemetry.present 65535 telemetry.SENSOR_TEMP_VAPOUR_HEAD = true
  /\ telemetry.truncate (telemetry.temp_vapour_head_degc hot_state)
     = Some 327%Z
  /\ scaled_reading TempVapourHead hot_state = Some telemetry.INT16_MAX
  /\ option_map (channel_bytes TempVapourHead)
       (telemetry.PublishTelemetry 65535 telemetry.ACTIVE hot_state 1234)
     = Some [255; 127]%Z
  /\ telemetry.present 65534 telemetry.SENSOR_TEMP_VAPOUR_HEAD = false
  /\ option_map (channel_bytes TempVapourHead)
       (telemetry.PublishTelemetry 65534 telemetry.ACTIVE hot_state 1234)
     = Some [255; 127]%Z
  /\ sentinel_bytes TempVapourHead = [255; 127]%Z.
Proof. repeat split; reflexivity. Qed.

(** C10, amended. The frame is the fields in their order, nothing between
    them: 32 bytes, within the 64 of the budget; the version in byte 0,
    the time stamp in bytes 1 to 8, the mode in byte 9, the ten channels
    from byte 10 on, the fault flags in bytes 26 to 29 and the presence
    bitmap in the last two, every field least significant byte first.
    Every channel that the presence map does not have is encoded as the
    bytes of its sentinel (INT16_MAX for the five scaled readings,
    UINT16_MAX for the flow, UINT8_MAX for the valve and heater
    percents). A present channel is encoded as its scaled reading, and
    its bytes are those of the sentinel exactly when the scaled reading
    is the sentinel's value: nothing clamps a reading, and what tells a
    present channel from an absent one is the presence bitmap. A reading
    of 100.00 degrees, times 100, is 10000, with the bytes 16 and 39, not
    those of INT16_MAX. *)
Theorem telemetry_frame_sentinels :
  forall (presence : Z) (mode : telemetry.ProcessMode)
         (state : telemetry.ProcessState) (now : Z)
         (m : telemetry.TelemetryMessage),
    telemetry.build_message presence mode state now = Some m ->
    telemetry.PublishTelemetry presence mode state now
      = Some (telemetry.frame m)
    /\ List.length (telemetry.frame m) = 32%nat /\ (32 <= 64)%nat
    /\ firstn 1 (telemetry.frame m) = [1%Z]
    /\ le_value (firstn 8 (skipn 1 (telemetry.frame m))) = (now mod 2 ^ 64)%Z
    /\ firstn 1 (skipn 9 (telemetry.frame m)) = [telemetry.mode_code mode]
    /\ le_value (firstn 4 (skipn 26 (telemetry.frame m)))
       = (telemetry.fault_flags state mod 2 ^ 32)%Z
    /\ le_value (skipn 30 (telemetry.frame m)) = (presence mod 2 ^ 16)%Z
    /\ (forall c, telemetry.present presence (presence_bit c) = false ->
                  channel_bytes c (telemetry.frame m) = sentinel_bytes c)
    /\ (forall c, telemetry.present presence (presence_bit c) = true ->
          exists v,
            scaled_reading c state = Some v
            /\ le_value (channel_bytes c (telemetry.frame m))
               = (v mod 256 ^ Z.of_nat (channel_width c))%Z
            /\ (channel_bytes c (telemetry.frame m) = sentinel_bytes c
                <-> (v mod 256 ^ Z.of_nat (channel_width c))%Z = sentinel c))
    /\ (telemetry.scaled_int16 1 telemetry.SENSOR_TEMP_VAPOUR_HEAD
          (telemetry.f32_of_int 100) = Some 10000%Z
        /\ telemetry.le_bytes 2 10000 = [16; 39]%Z
        /\ telemetry.le_bytes 2 telemetry.INT16_MAX = [255; 127]%Z).
Proof.
  intros presence mode state now m Hm.
  assert (Hfields :
    telemetry.version m = 1%Z /\ telemetry.timestamp_ms m = now
    /\ telemetry.mode m = telemetry.mode_code mode
    /\ telemetry.faults m = telemetry.fault_flags state
    /\ telemetry.sensor_presence m = presence).
  { revert Hm. unfold telemetry.build_message.
    repeat match goal with
           | |- context [match ?o with Some _ => _ | None => _ end] =>
               destruct o; try discriminate
           end.
    intros H; inversion H; subst; clear H. repeat split; reflexivity. }
  destruct Hfields as (Hv & Ht & Hmode & Hfaults & Hpres).
  split; [unfold telemetry.PublishTelemetry; now rewrite Hm|].
  split; [apply frame_length|].
  split; [lia|].
  split.
  { change (firstn 1 (telemetry.frame m))
      with (telemetry.le_bytes 1 (telemetry.version m)).
    now rewrite Hv. }
  split.
  { change (firstn 8 (skipn 1 (telemetry.frame m)))
      with (telemetry.le_bytes 8 (telemetry.timestamp_ms m)).
    now rewrite le_value_le_bytes, Ht. }
  split.
  { change (firstn 1 (skipn 9 (telemetry.frame m)))
      with (telemetry.le_bytes 1 (telemetry.mode m)).
    rewrite Hmode. now destruct mode. }
  split.
  { change (firstn 4 (skipn 26 (telemetry.frame m)))
      with (telemetry.le_bytes 4 (telemetry.faults m)).
    now rewrite le_value_le_bytes, Hfaults. }
  split.
  { change (skipn 30 (telemetry.frame m))
      with (telemetry.le_bytes 2 (telemetry.sensor_presence m)).
    now rewrite le_value_le_bytes, Hpres. }
  split; [|split].
  - intros c Hc. pose proof (build_message_field _ _ _ _ _ c Hm) as H.
    rewrite Hc in H. rewrite channel_bytes_frame, H.
    apply sentinel_bytes_value.
  - intros c Hc. pose proof (build_message_field _ _ _ _ _ c Hm) as H.
    rewrite Hc in H. exists (frame_field c m).
    split; [exact H|]. rewrite channel_bytes_frame.
    split; [apply le_value_le_bytes|]. split.
    + intros Hb. apply (f_equal le_value) in Hb.
      rewrite le_value_le_bytes in Hb. rewrite Hb.
      apply sentinel_bytes_value.
    + intros Hs. rewrite le_bytes_mod, Hs. apply sentinel_bytes_value.
  - repeat split; reflexivity.
Qed.

Lemma telemetry_frame_witness :
  telemetry.PublishTelemetry 65519 telemetry.ACTIVE example_state 1234
    = Some (telemetry.frame example_message)
  /\ telemetry.frame example_message
     = [1; 210; 4; 0; 0; 0; 0; 0; 0; 2; 16; 39; 12; 254; 0; 0; 116; 39;
        255; 127; 96; 9; 65; 30; 70; 70; 0; 0; 0; 0; 239; 255]%Z
  /\ channel_bytes PressureVapour (telemetry.frame example_message)
     = sentinel_bytes PressureVapour.
Proof.
  pose proof (telemetry_frame_sentinels 65519 telemetry.ACTIVE example_state
                1234 example_message eq_refl) as H.
  split; [exact (proj1 H)|]. split; [reflexivity|].
  exact (proj1 (proj2 (proj2 (proj2 (proj2 (proj2 (proj2 (proj2 (proj2 H))))))))
           PressureVapour eq_refl).
Defined.
